(* ===================================================================== *)
(* kymatio: the 1D scattering front end (torch) and the 2D numpy backend  *)
(*                                                                       *)
(* A shallow embedding of                                                *)
(*   kymatio/scattering1d/frontend/__init__.py                           *)
(*   kymatio/scattering1d/frontend/torch_frontend.py                     *)
(*   kymatio/scattering2d/backend/numpy_backend.py                       *)
(* and the properties of the path enumeration, the constructor, the      *)
(* forward entry point and the Fourier backend.                          *)
(* ===================================================================== *)

From Stdlib Require Import String DecimalString DecimalNat Lia.
From Stdlib Require Import PrimFloat.
From HB Require Import structures.
From mathcomp Require Import boot order algebra.
From mathcomp Require Import algC.

Set Implicit Arguments.
Unset Strict Implicit.
Unset Printing Implicit Defensive.

Import Order.Theory GRing.Theory Num.Theory.

(* --------------------------------------------------------------------- *)
(* Python values that cross function boundaries: exceptions and results  *)
(* --------------------------------------------------------------------- *)

Module Py.

(* The exception classes the three files raise or let through. *)
Inductive exn : Type :=
| ValueError (msg : string)
| RuntimeError (msg : string)
| NameError (name : string)
| UnboundLocalError (name : string)
| AttributeError (attr : string)
| KeyError (key : string)
| IndexError
| ZeroDivisionError
| TypeError
| AxisError
| ImportError (module : string).

(* A call either returns a value or raises. *)
Inductive result (A : Type) : Type :=
| Ok (a : A)
| Raise (e : exn).

Arguments Ok {A} a.
Arguments Raise {A} e.

Definition bind {A B : Type} (r : result A) (k : A -> result B) : result B :=
  match r with
  | Ok a => k a
  | Raise e => Raise e
  end.

Definition is_ok {A : Type} (r : result A) : bool :=
  if r is Ok _ then true else false.

(* `for x in xs: body` threading an accumulator through a fallible body. *)
Fixpoint for_each {A S : Type} (xs : seq A) (body : S -> A -> result S)
    (s : S) : result S :=
  match xs with
  | [::] => Ok s
  | x :: xs' => bind (body s x) (for_each xs' body)
  end.

(* `s[i]` on a list, for the non-negative indices `range` produces. *)
Definition getitem {A : Type} (s : seq A) (i : nat) : result A :=
  match ohead (drop i s) with
  | Some a => Ok a
  | None => Raise IndexError
  end.

(* `enumerate(xs)` and the three-way `zip`, which stops at the shortest. *)
Definition enumerate {A : Type} (xs : seq A) : seq (nat * A) :=
  zip (iota 0 (size xs)) xs.

Definition zip3 {A B C : Type} (a : seq A) (b : seq B) (c : seq C)
    : seq (A * (B * C)) :=
  zip a (zip b c).

(* `t * k` for a tuple and an int: empty when k is not positive. *)
Definition tuple_repeat {A : Type} (t : seq A) (k : int) : seq A :=
  match k with
  | Posz n => flatten (nseq n t)
  | Negz _ => [::]
  end.

End Py.

Import Py.

Declare Scope py_scope.
Delimit Scope py_scope with py.
Notation "x <-- c ;; k" := (bind c (fun x => k))
  (at level 61, c at next level, right associativity) : py_scope.
Notation "c ;;; k" := (bind c (fun _ => k))
  (at level 61, right associativity) : py_scope.
Local Open Scope py_scope.

(* --------------------------------------------------------------------- *)
(* torch_frontend.py: the static methods of Scattering1DTorch            *)
(* --------------------------------------------------------------------- *)

Module Meta.

Definition float := PrimFloat.float.

(* A number inside a padded metadata row: the rows mix the ints of 'j' and
   'n' with the float math.nan used as filler. *)
Inductive num : Type :=
| NInt (z : int)
| NFloat (x : float).

Definition nan : num := NFloat PrimFloat.nan.

(* What calibrate_scattering_filters returns:
   sigma_low, xi1s, sigma1s, j1s, xi2s, sigma2s, j2s. *)
Record calibration : Type := Calibration {
  sigma_low : float;
  xi1s : seq float;
  sigma1s : seq float;
  j1s : seq int;
  xi2s : seq float;
  sigma2s : seq float;
  j2s : seq int
}.

(* The dict `meta` while it is being filled: every field holds the three
   per-order lists [[], [], []]. *)
Record lists : Type := Lists {
  l_order : seq (seq int);
  l_xi : seq (seq (seq float));
  l_sigma : seq (seq (seq float));
  l_j : seq (seq (seq int));
  l_n : seq (seq (seq nat));
  l_key : seq (seq (seq nat))
}.

(* The dict `meta` as returned: 'order', 'xi', 'sigma', 'j', 'n' hold the
   rows of the tensors, 'key' stays a list of tuples. *)
Record t : Type := Make {
  order : seq int;
  xi : seq (seq num);
  sigma : seq (seq num);
  j : seq (seq num);
  n : seq (seq num);
  key : seq (seq nat)
}.

(* `value[k].append(v)` on a list of lists. *)
Definition push {A : Type} (k : nat) (v : A) (value : seq (seq A))
    : seq (seq A) :=
  set_nth [::] value k (rcons (nth [::] value k) v).

(* The six appends the loops make for one path of order k. *)
Definition append_path (meta : lists) (k : nat) (o : int)
    (xs ss : seq float) (js : seq int) (ns : seq nat) : lists :=
  {| l_order := push k o (l_order meta);
     l_xi := push k xs (l_xi meta);
     l_sigma := push k ss (l_sigma meta);
     l_j := push k js (l_j meta);
     l_n := push k ns (l_n meta);
     l_key := push k ns (l_key meta) |}.

Definition empty : lists :=
  {| l_order := [:: [::]; [::]; [::]];
     l_xi := [:: [::]; [::]; [::]];
     l_sigma := [:: [::]; [::]; [::]];
     l_j := [:: [::]; [::]; [::]];
     l_n := [:: [::]; [::]; [::]];
     l_key := [:: [::]; [::]; [::]] |}.

(* `value[0] + value[1] + value[2]` *)
Definition concat3 {A : Type} (value : seq (seq A)) : seq A :=
  nth [::] value 0 ++ nth [::] value 1 ++ nth [::] value 2.

(* `x + (math.nan,) * (pad_len - len(x))` *)
Definition pad_row {A : Type} (inj : A -> num) (pad_len : int) (x : seq A)
    : seq num :=
  [seq inj a | a <- x] ++ tuple_repeat [:: nan] (pad_len - (size x)%:Z)%R.

(* `torch.from_numpy(np.array(rows))`: the rows become the rows of one
   tensor, which needs them to have one common length. *)
Definition rectangular {A : Type} (rows : seq (seq A)) : bool :=
  all (fun r => size r == size (head [::] rows)) rows.

Definition to_tensor {A : Type} (rows : seq (seq A)) : result (seq (seq A)) :=
  if rectangular rows then Ok rows
  else Raise (ValueError "setting an array element with a sequence").

End Meta.

Module Size.

(* What precompute_size_scattering returns: an int, or the tuple of the
   per-order counts. *)
Inductive t : Type :=
| Total (c : nat)
| Detail (cs : seq nat).

End Size.

Section StaticMethods.

(* filter_bank.calibrate_scattering_filters is imported from a module that
   is not part of the three files: it is a parameter of the methods. *)
Variable calibrate_scattering_filters : int -> int -> result Meta.calibration.

(* The inner loop of compute_meta_scattering, lines 476-483. *)
Definition meta_inner (xi1 sigma1 : Meta.float) (j1 : int) (n1 : nat)
    (c : Meta.calibration) (meta : Meta.lists) : Meta.lists :=
  foldl (fun meta e =>
           let: (n2, (xi2, (sigma2, j2))) := e in
           if (j1 < j2)%R then
             Meta.append_path meta 2 2 [:: xi1; xi2] [:: sigma1; sigma2]
               [:: j1; j2] [:: n1; n2]
           else meta)
        meta
        (enumerate (zip3 (Meta.xi2s c) (Meta.sigma2s c) (Meta.j2s c))).

(* The outer loop, lines 465-483. *)
Definition meta_outer (max_order : int) (c : Meta.calibration)
    (meta : Meta.lists) : Meta.lists :=
  foldl (fun meta e =>
           let: (n1, (xi1, (sigma1, j1))) := e in
           let meta :=
             Meta.append_path meta 1 1 [:: xi1] [:: sigma1] [:: j1] [:: n1] in
           if (max_order < 2)%R then meta
           else meta_inner xi1 sigma1 j1 n1 c meta)
        meta
        (enumerate (zip3 (Meta.xi1s c) (Meta.sigma1s c) (Meta.j1s c))).

Definition compute_meta_scattering (J Q : int) (max_order : int)
    : result Meta.t :=
  c <-- calibrate_scattering_filters J Q ;;
  let meta := Meta.empty in
  let meta := Meta.append_path meta 0 0 [::] [::] [::] [::] in
  let meta := meta_outer max_order c meta in
  let pad_len := max_order in
  let m_order := Meta.concat3 (Meta.l_order meta) in
  let m_xi :=
    [seq Meta.pad_row Meta.NFloat pad_len x
    | x <- Meta.concat3 (Meta.l_xi meta)] in
  let m_sigma :=
    [seq Meta.pad_row Meta.NFloat pad_len x
    | x <- Meta.concat3 (Meta.l_sigma meta)] in
  let m_j :=
    [seq Meta.pad_row Meta.NInt pad_len x
    | x <- Meta.concat3 (Meta.l_j meta)] in
  let m_n :=
    [seq Meta.pad_row (fun i : nat => Meta.NInt i%:Z) pad_len x
    | x <- Meta.concat3 (Meta.l_n meta)] in
  let m_key := Meta.concat3 (Meta.l_key meta) in
  t_xi <-- Meta.to_tensor m_xi ;;
  t_sigma <-- Meta.to_tensor m_sigma ;;
  t_j <-- Meta.to_tensor m_j ;;
  t_n <-- Meta.to_tensor m_n ;;
  Ok {| Meta.order := m_order; Meta.xi := t_xi; Meta.sigma := t_sigma;
        Meta.j := t_j; Meta.n := t_n; Meta.key := m_key |}.

(* The double loop of precompute_size_scattering, lines 537-540. *)
Definition count_order2 (c : Meta.calibration) : result nat :=
  for_each (iota 0 (size (Meta.xi1s c)))
    (fun size_order2 n1 =>
       for_each (iota 0 (size (Meta.xi2s c)))
         (fun size_order2 n2 =>
            j2 <-- getitem (Meta.j2s c) n2 ;;
            j1 <-- getitem (Meta.j1s c) n1 ;;
            Ok (if (j1 < j2)%R then size_order2.+1 else size_order2))
         size_order2)
    0.

Definition precompute_size_scattering (J Q : int) (max_order : int)
    (detail : bool) : result Size.t :=
  c <-- calibrate_scattering_filters J Q ;;
  let size_order0 := 1 in
  let size_order1 := size (Meta.xi1s c) in
  size_order2 <-- count_order2 c ;;
  if detail then
    if max_order == 2 then
      Ok (Size.Detail [:: size_order0; size_order1; size_order2])
    else Ok (Size.Detail [:: size_order0; size_order1])
  else
    if max_order == 2 then
      Ok (Size.Total (size_order0 + size_order1 + size_order2))
    else Ok (Size.Total (size_order0 + size_order1)).

End StaticMethods.

(* --------------------------------------------------------------------- *)
(* Reference enumerations used to state the path properties              *)
(* --------------------------------------------------------------------- *)

(* One calibrated filter as the loops see it: (index, (xi, (sigma, j))). *)
Definition entry : Type := (nat * (Meta.float * (Meta.float * int)))%type.

Definition entries1 (c : Meta.calibration) : seq entry :=
  enumerate (zip3 (Meta.xi1s c) (Meta.sigma1s c) (Meta.j1s c)).

Definition entries2 (c : Meta.calibration) : seq entry :=
  enumerate (zip3 (Meta.xi2s c) (Meta.sigma2s c) (Meta.j2s c)).

Definition scale (e : entry) : int := e.2.2.2.

(* The second-order filters that may follow the first-order filter e1. *)
Definition valid2 (c : Meta.calibration) (e1 : entry) : seq entry :=
  [seq e2 <- entries2 c | (scale e1 < scale e2)%R].

(* The sequences of one order are parallel: one xi, sigma and j a filter. *)
Definition parallel (c : Meta.calibration) : bool :=
  [&& size (Meta.sigma1s c) == size (Meta.xi1s c),
      size (Meta.j1s c) == size (Meta.xi1s c),
      size (Meta.sigma2s c) == size (Meta.xi2s c)
    & size (Meta.j2s c) == size (Meta.xi2s c)].

(* The order-2 index pairs the specification asks for, in loop order. *)
Definition order2_pairs (c : Meta.calibration) : seq (nat * nat) :=
  [seq p <- allpairs pair (iota 0 (size (Meta.j1s c)))
                          (iota 0 (size (Meta.j2s c)))
  | (nth 0%R (Meta.j1s c) p.1 < nth 0%R (Meta.j2s c) p.2)%R].

(* The n-th calibrated filter of each order, read off the sequences. *)
Definition entry1_at (c : Meta.calibration) (i : nat) : entry :=
  (i, (nth PrimFloat.nan (Meta.xi1s c) i,
       (nth PrimFloat.nan (Meta.sigma1s c) i, nth 0%R (Meta.j1s c) i))).

Definition entry2_at (c : Meta.calibration) (i : nat) : entry :=
  (i, (nth PrimFloat.nan (Meta.xi2s c) i,
       (nth PrimFloat.nan (Meta.sigma2s c) i, nth 0%R (Meta.j2s c) i))).

(* A small calibration to run the methods on: two first-order and three
   second-order filters. *)
Definition sample_calibration : Meta.calibration :=
  {| Meta.sigma_low := 0.025%float;
     Meta.xi1s := [:: 0.4%float; 0.2%float];
     Meta.sigma1s := [:: 0.1%float; 0.05%float];
     Meta.j1s := [:: 0%R; 1%R];
     Meta.xi2s := [:: 0.4%float; 0.2%float; 0.1%float];
     Meta.sigma2s := [:: 0.1%float; 0.05%float; 0.025%float];
     Meta.j2s := [:: 0%R; 1%R; 2%R] |}.

Definition sample_calibrate (J Q : int) : result Meta.calibration :=
  Ok sample_calibration.

(* --------------------------------------------------------------------- *)
(* Python objects, attributes and names of the front end                 *)
(* --------------------------------------------------------------------- *)

Definition string_eqP : Equality.axiom String.eqb := String.eqb_spec.

HB.instance Definition _ := hasDecEq.Build string string_eqP.

Module Obj.

(* Keys of the filter dictionaries: the resolution (an int) for a filter
   array, a string ('xi', 'sigma', 'j', ...) for metadata. *)
Inductive key : Type :=
| KInt (z : int)
| KStr (s : string).

Definition key_eqb (a b : key) : bool :=
  match a, b with
  | KInt x, KInt y => x == y
  | KStr s, KStr t => s == t
  | _, _ => false
  end.

(* `type(k) != str` *)
Definition not_str (k : key) : bool :=
  if k is KStr _ then false else true.

(* The values the attributes and locals of the front end hold. An array
   and the tensor made from it are named by a number; nothing in the
   front end looks inside them. *)
Inductive value : Type :=
| VNone
| VBool (b : bool)
| VInt (z : int)
| VFloat (x : float)
| VStr (s : string)
| VTuple (vs : seq value)
| VList (vs : seq value)
| VDict (kvs : seq (key * value))
| VArray (a : nat)
| VTensor (a : nat)
| VModule (name : string)
| VFunction (name : string).

(* Truth value of an object, as `if v:` and `not v` take it. *)
Definition truthy (v : value) : bool :=
  match v with
  | VNone => false
  | VBool b => b
  | VInt z => z != 0%R
  | VFloat x => ~~ PrimFloat.eqb x 0%float
  | VStr s => s != EmptyString
  | VTuple vs | VList vs => ~~ nilp vs
  | VDict kvs => ~~ nilp kvs
  | VArray _ | VTensor _ | VModule _ | VFunction _ => true
  end.

(* isinstance(v, numbers.Integral): ints, and bools as their subclass. *)
Definition is_integral (v : value) : bool :=
  match v with
  | VInt _ | VBool _ => true
  | _ => false
  end.

Definition as_int (v : value) : result int :=
  match v with
  | VInt z => Ok z
  | VBool b => Ok (Posz b)
  | _ => Raise TypeError
  end.

(* A dict as the list of its items, in insertion order. *)
Section Dict.

Variables (K V : Type) (eqb : K -> K -> bool).

Fixpoint lookup (k : K) (d : seq (K * V)) : option V :=
  match d with
  | [::] => None
  | (k', v) :: d' => if eqb k k' then Some v else lookup k d'
  end.

(* `d[k] = v`: replaces the value of a present key, appends a new key. *)
Fixpoint insert (k : K) (v : V) (d : seq (K * V)) : seq (K * V) :=
  match d with
  | [::] => [:: (k, v)]
  | (k', v') :: d' =>
      if eqb k k' then (k, v) :: d' else (k', v') :: insert k v d'
  end.

Definition keys (d : seq (K * V)) : seq K := [seq kv.1 | kv <- d].

End Dict.

(* The object `self` and what the calls made so far have left behind:
   the instance attributes, the buffers of the torch module, and the names
   of the functions of other modules that were entered. *)
Record world : Type := World {
  attrs : seq (string * value);
  buffers : seq (string * value);
  calls : seq string
}.

(* A statement: runs in a world, returns or raises, leaves a world. *)
Definition act (A : Type) : Type := world -> result A * world.

Definition ret {A : Type} (a : A) : act A := fun w => (Ok a, w).

Definition raise {A : Type} (e : exn) : act A := fun w => (Raise e, w).

Definition lift {A : Type} (r : result A) : act A := fun w => (r, w).

Definition abind {A B : Type} (m : act A) (k : A -> act B) : act B :=
  fun w =>
    match m w with
    | (Ok a, w') => k a w'
    | (Raise e, w') => (Raise e, w')
    end.

(* `for x in xs:` with the loop-carried locals in s. *)
Fixpoint afor {A S : Type} (xs : seq A) (body : S -> A -> act S) (s : S)
    : act S :=
  match xs with
  | [::] => ret s
  | x :: xs' => abind (body s x) (afor xs' body)
  end.

(* `self.name`: the instance attributes, then the registered buffers. *)
Definition getattr (name : string) : act value :=
  fun w =>
    match lookup String.eqb name (attrs w) with
    | Some v => (Ok v, w)
    | None =>
        match lookup String.eqb name (buffers w) with
        | Some v => (Ok v, w)
        | None => (Raise (AttributeError name), w)
        end
    end.

(* `self.name = v` *)
Definition setattr (name : string) (v : value) : act unit :=
  fun w =>
    (Ok tt, {| attrs := insert String.eqb name v (attrs w);
               buffers := buffers w; calls := calls w |}).

(* `self.register_buffer(name, v)` of torch.nn.Module: refuses a name that
   is already an attribute and not a buffer. *)
Definition register_buffer (name : string) (v : value) : act unit :=
  fun w =>
    if (lookup String.eqb name (attrs w) : option value) is Some _
    then (Raise (KeyError name), w)
    else (Ok tt, {| attrs := attrs w;
                    buffers := insert String.eqb name v (buffers w);
                    calls := calls w |}).

(* `dict(self.named_buffers())` *)
Definition named_buffers : act (seq (string * value)) :=
  fun w => (Ok (buffers w), w).

Definition log_call (name : string) : act unit :=
  fun w =>
    (Ok tt, {| attrs := attrs w; buffers := buffers w;
               calls := rcons (calls w) name |}).

(* `v.keys()` and `v[k] = x` on a filter dictionary. *)
Definition dict_keys (v : value) : result (seq key) :=
  if v is VDict kvs then Ok (keys kvs) else Raise (AttributeError "keys").

Definition dict_setitem (v : value) (k : key) (x : value) : result value :=
  if v is VDict kvs then Ok (VDict (insert key_eqb k x kvs))
  else Raise TypeError.

Definition dict_getitem (v : value) (k : key) : result value :=
  if v is VDict kvs then
    if lookup key_eqb k kvs is Some x then Ok x else Raise (KeyError "")
  else Raise TypeError.

(* `for psi_f in v` on a list. *)
Definition list_items (v : value) : result (seq value) :=
  match v with
  | VList vs | VTuple vs => Ok vs
  | _ => Raise TypeError
  end.

End Obj.

Import Obj.

Notation "x <~ c ;; k" := (abind c (fun x => k))
  (at level 61, c at next level, right associativity) : py_scope.
Notation "c ;;~ k" := (abind c (fun _ => k))
  (at level 61, right associativity) : py_scope.

(* --------------------------------------------------------------------- *)
(* torch_frontend.py: names, the constructor and build                   *)
(* --------------------------------------------------------------------- *)

(* The names bound at module level of torch_frontend.py: the imports of
   lines 4-16, __all__, the class and the two functions after it. The
   functions defined in the class body (among them
   compute_minimum_support_to_pad, line 552) are attributes of the class
   and are not in this list. *)
Definition module_globals : seq string :=
  [:: "math"; "numbers"; "torch"; "np"; "ScatteringTorch"; "scattering1d";
      "calibrate_scattering_filters"; "scattering_filter_factory";
      "compute_border_indices"; "compute_padding"; "__all__";
      "Scattering1DTorch"; "_apply_psi"; "_apply_phi"]%string.

(* The attributes of the class Scattering1DTorch, lines 163-613. *)
Definition class_attributes : seq string :=
  [:: "__init__"; "build"; "create_and_register_filters"; "meta";
      "output_size"; "forward"; "compute_meta_scattering";
      "precompute_size_scattering"; "compute_minimum_support_to_pad"]%string.

(* The built-in names the file uses. *)
Definition builtins : seq string :=
  [:: "super"; "isinstance"; "tuple"; "len"; "int"; "min"; "type"; "str";
      "dict"; "range"; "enumerate"; "zip"; "ValueError";
      "RuntimeError"]%string.

(* A bare name inside a method body: looked up in the module globals, then
   in the built-ins; the class body is not a scope for its methods. *)
Definition load_global (name : string) : act value :=
  if (name \in module_globals) || (name \in builtins)
  then ret (VFunction name)
  else raise (NameError name).

(* `str(n)` for a non-negative int. *)
Definition str_of_nat (n : nat) : string :=
  NilEmpty.string_of_uint (Nat.to_uint n).

(* `'tensor' + str(n)` *)
Definition tensor_name (n : nat) : string := ("tensor" ++ str_of_nat n)%string.

(* `a, b = v` and `a, b, c, d = v` *)
Definition unpack2 (v : value) : result (value * value) :=
  match v with
  | VTuple [:: a; b] | VList [:: a; b] => Ok (a, b)
  | VTuple _ | VList _ => Raise (ValueError "not enough values to unpack")
  | _ => Raise TypeError
  end.

Definition unpack4 (v : value) : result (value * value * value * value) :=
  match v with
  | VTuple [:: a; b; c; d] | VList [:: a; b; c; d] => Ok (a, b, c, d)
  | VTuple _ | VList _ => Raise (ValueError "not enough values to unpack")
  | _ => Raise TypeError
  end.

(* The input of forward: a tensor, of which the front end reads the shape
   and which it hands on. *)
Module Tensor.

Record t : Type := Make {
  shape : seq nat;
  storage : nat
}.

End Tensor.

Section Scattering1DTorch.

(* What the class takes from outside the three files. *)

(* ScatteringTorch.__init__, reached through super(). *)
Variable base_init : act unit.
(* `from ..backend import torch_backend as backend` *)
Variable import_torch_backend : result value.
(* The functions of other modules, by name: filter_bank's
   scattering_filter_factory, utils' compute_padding and
   compute_border_indices, core's scattering1d, and numpy's and torch's. *)
Variable extern : string -> seq value -> act value.
Variable calibrate_scattering_filters : int -> int -> result Meta.calibration.
(* `x.reshape(shape)` of torch. *)
Variable reshape : Tensor.t -> seq int -> result Tensor.t.

(* Calling what a name evaluated to. *)
Definition invoke (f : value) (args : seq value) : act value :=
  if f is VFunction name then log_call name ;;~ extern name args
  else raise TypeError.

(* `int(np.floor(np.log2(v)))` and `int(np.ceil(np.log2(v)))` *)
Definition int_floor_log2 (v : value) : act value :=
  np <~ load_global "np" ;;
  l <~ invoke (VFunction "np.log2") [:: v] ;;
  f <~ invoke (VFunction "np.floor") [:: l] ;;
  invoke (VFunction "int") [:: f].

Definition int_ceil_log2 (v : value) : act value :=
  np <~ load_global "np" ;;
  l <~ invoke (VFunction "np.log2") [:: v] ;;
  f <~ invoke (VFunction "np.ceil") [:: l] ;;
  invoke (VFunction "int") [:: f].

(* compute_minimum_support_to_pad, lines 552-613: a function stored in the
   class body. *)
Definition compute_minimum_support_to_pad
    (T J Q criterion_amplitude normalize r_psi sigma0 alpha P_max eps : value)
    : act value :=
  J_tentative <~ int_ceil_log2 T ;;
  factory <~ load_global "scattering_filter_factory" ;;
  r <~ invoke factory
         [:: J_tentative; J; Q; normalize; VBool false; VInt 0;
             criterion_amplitude; r_psi; sigma0; alpha; P_max; eps] ;;
  u <~ lift (unpack4 r) ;;
  let: (_, _, _, t_max_phi) := u in
  t <~ lift (as_int t_max_phi) ;;
  let min_to_pad := (3 * t)%R in
  ret (VInt min_to_pad).

(* create_and_register_filters, lines 235-275. *)

(* `torch.from_numpy(a).view(-1, 1).repeat(1, 2)` *)
Definition from_numpy (v : value) : result value :=
  if v is VArray a then Ok (VTensor a) else Raise TypeError.

(* The body of the three loops over the keys of one filter dictionary:
   the local dictionary d and the counter n are carried along. *)
Definition register_key (s : value * nat) (k : key) : act (value * nat) :=
  let: (d, n) := s in
  if not_str k then
    a <~ lift (dict_getitem d k) ;;
    t <~ lift (from_numpy a) ;;
    d' <~ lift (dict_setitem d k t) ;;
    v <~ lift (dict_getitem d' k) ;;
    register_buffer (tensor_name n) v ;;~
    ret (d', n.+1)
  else ret (d, n).

Definition register_dict (d : value) (n : nat) : act (value * nat) :=
  ks <~ lift (dict_keys d) ;;
  afor ks register_key (d, n).

(* `for psi_f in psi_f_list:` around the loop over the keys. *)
Definition register_list (l : value) (n : nat) : act (value * nat) :=
  ds <~ lift (list_items l) ;;
  r <~ afor ds
         (fun (s : seq value * nat) psi_f =>
            r <~ register_dict psi_f s.2 ;;
            ret (rcons s.1 r.1, r.2))
         ([::], n) ;;
  ret (VList r.1, r.2).

Definition create_and_register_filters : act unit :=
  factory <~ load_global "scattering_filter_factory" ;;
  J_pad <~ getattr "J_pad" ;;
  J <~ getattr "J" ;;
  Q <~ getattr "Q" ;;
  normalize <~ getattr "normalize" ;;
  criterion_amplitude <~ getattr "criterion_amplitude" ;;
  r_psi <~ getattr "r_psi" ;;
  sigma0 <~ getattr "sigma0" ;;
  alpha <~ getattr "alpha" ;;
  P_max <~ getattr "P_max" ;;
  eps <~ getattr "eps" ;;
  r <~ invoke factory
         [:: J_pad; J; Q; normalize; criterion_amplitude; r_psi; sigma0;
             alpha; P_max; eps] ;;
  u <~ lift (unpack4 r) ;;
  let: (phi_f, psi1_f, psi2_f, _) := u in
  let n := 0 in
  p0 <~ register_dict phi_f n ;;
  p1 <~ register_list psi1_f p0.2 ;;
  p2 <~ register_list psi2_f p1.2 ;;
  setattr "psi1_f" p1.1 ;;~
  setattr "psi2_f" p2.1 ;;~
  setattr "phi_f" p0.1.

(* build, lines 180-233, in the four steps its comments name. *)

(* Lines 192-196: the backend. *)
Definition select_backend : act unit :=
  backend <~ getattr "backend" ;;
  if ~~ truthy backend then
    backend <~ lift import_torch_backend ;;
    setattr "backend" backend
  else
    backend <~ getattr "backend" ;;
    name <~ (if backend is VModule name then ret name
             else raise (AttributeError "name")) ;;
    if substring 0 5 name != "torch"%string
    then raise (RuntimeError "This backend is not supported.")
    else ret tt.

(* Lines 198-204: the fixed numerical parameters. *)
Definition set_defaults : act unit :=
  setattr "r_psi" (VFloat (PrimFloat.sqrt 0.5%float)) ;;~
  setattr "sigma0" (VFloat 0.1%float) ;;~
  setattr "alpha" (VFloat 5%float) ;;~
  setattr "P_max" (VInt 5) ;;~
  setattr "eps" (VFloat 1e-7%float) ;;~
  setattr "criterion_amplitude" (VFloat 1e-3%float) ;;~
  setattr "normalize" (VStr "l1").

(* Lines 206-215: "check the shape". *)
Definition check_shape : act unit :=
  shape <~ getattr "shape" ;;
  if is_integral shape then
    shape <~ getattr "shape" ;;
    setattr "T" shape
  else if shape is VTuple vs then
    shape0 <~ lift (getitem vs 0) ;;
    setattr "T" shape0 ;;~
    if 1 < size vs
    then raise (ValueError
      "If shape is specified as a tuple, it must have exactly one element")
    else ret tt
  else raise (ValueError "shape must be an integer or a 1-tuple").

(* Lines 217-232: the minimum support to pad, J_pad, the padding
   quantities and the border indices. *)
Definition plan_padding : act unit :=
  f <~ load_global "compute_minimum_support_to_pad" ;;
  T <~ getattr "T" ;;
  J <~ getattr "J" ;;
  Q <~ getattr "Q" ;;
  r_psi <~ getattr "r_psi" ;;
  sigma0 <~ getattr "sigma0" ;;
  alpha <~ getattr "alpha" ;;
  P_max <~ getattr "P_max" ;;
  eps <~ getattr "eps" ;;
  criterion_amplitude <~ getattr "criterion_amplitude" ;;
  normalize <~ getattr "normalize" ;;
  min_to_pad <~ invoke f
    [:: T; J; Q; r_psi; sigma0; alpha; P_max; eps; criterion_amplitude;
        normalize] ;;
  T <~ getattr "T" ;;
  t <~ lift (as_int T) ;;
  J_max_support <~ int_floor_log2 (VInt (3 * t - 2)%R) ;;
  T <~ getattr "T" ;;
  t <~ lift (as_int T) ;;
  m <~ lift (as_int min_to_pad) ;;
  c <~ int_ceil_log2 (VInt (t + 2 * m)%R) ;;
  a <~ lift (as_int c) ;;
  b <~ lift (as_int J_max_support) ;;
  setattr "J_pad" (VInt (Order.min a b)) ;;~
  compute_padding <~ load_global "compute_padding" ;;
  J_pad <~ getattr "J_pad" ;;
  T <~ getattr "T" ;;
  r <~ invoke compute_padding [:: J_pad; T] ;;
  u <~ lift (unpack2 r) ;;
  setattr "pad_left" u.1 ;;~
  setattr "pad_right" u.2 ;;~
  compute_border_indices <~ load_global "compute_border_indices" ;;
  J <~ getattr "J" ;;
  pad_left <~ getattr "pad_left" ;;
  pad_left' <~ getattr "pad_left" ;;
  T <~ getattr "T" ;;
  pl <~ lift (as_int pad_left') ;;
  t <~ lift (as_int T) ;;
  r <~ invoke compute_border_indices [:: J; pad_left; VInt (pl + t)%R] ;;
  u <~ lift (unpack2 r) ;;
  setattr "ind_start" u.1 ;;~
  setattr "ind_end" u.2.

Definition build : act unit :=
  select_backend ;;~
  set_defaults ;;~
  check_shape ;;~
  plan_padding ;;~
  create_and_register_filters.

(* __init__, lines 163-178. *)
Definition init (J shape Q max_order average oversampling vectorize
    backend : value) : act unit :=
  base_init ;;~
  setattr "J" J ;;~
  setattr "shape" shape ;;~
  setattr "Q" Q ;;~
  setattr "max_order" max_order ;;~
  setattr "average" average ;;~
  setattr "oversampling" oversampling ;;~
  setattr "vectorize" vectorize ;;~
  setattr "backend" backend ;;~
  build.

(* forward, lines 312-401. *)

(* `buffer_dict['tensor' + str(n)]` *)
Definition buffer_getitem (buffer_dict : seq (string * value)) (n : nat)
    : result value :=
  if lookup String.eqb (tensor_name n) buffer_dict is Some v then Ok v
  else Raise (KeyError (tensor_name n)).

(* Lines 367-371: `self.phi_f[k] = buffer_dict['tensor' + str(n)]`. The
   right-hand side is evaluated first, then `self.phi_f`, then the item is
   stored in that dictionary. *)
Definition restore_phi_key (buffer_dict : seq (string * value)) (n : nat)
    (k : key) : act nat :=
  if not_str k then
    v <~ lift (buffer_getitem buffer_dict n) ;;
    phi_f <~ getattr "phi_f" ;;
    d <~ lift (dict_setitem phi_f k v) ;;
    setattr "phi_f" d ;;~
    ret n.+1
  else ret n.

(* Lines 372-377: `self.psi_f[sub_k] = buffer_dict['tensor' + str(n)]`. *)
Definition restore_psi1_key (buffer_dict : seq (string * value)) (n : nat)
    (sub_k : key) : act nat :=
  if not_str sub_k then
    v <~ lift (buffer_getitem buffer_dict n) ;;
    psi_f <~ getattr "psi_f" ;;
    d <~ lift (dict_setitem psi_f sub_k v) ;;
    setattr "psi_f" d ;;~
    ret n.+1
  else ret n.

(* Lines 378-383: `psi_f[sub_k] = buffer_dict['tensor' + str(n)]`, where
   psi_f is the i-th dictionary of the list self.psi2_f. *)
Definition restore_psi2_key (buffer_dict : seq (string * value)) (i : nat)
    (n : nat) (sub_k : key) : act nat :=
  if not_str sub_k then
    v <~ lift (buffer_getitem buffer_dict n) ;;
    psi2_f <~ getattr "psi2_f" ;;
    ds <~ lift (list_items psi2_f) ;;
    psi_f <~ lift (getitem ds i) ;;
    d <~ lift (dict_setitem psi_f sub_k v) ;;
    setattr "psi2_f" (VList (set_nth VNone ds i d)) ;;~
    ret n.+1
  else ret n.

Definition size_value (s : Size.t) : value :=
  match s with
  | Size.Total c => VInt (Posz c)
  | Size.Detail cs => VTuple [seq VInt (Posz c) | c <- cs]
  end.

Definition shape_value (sh : seq nat) : value :=
  VTuple [seq VInt (Posz d) | d <- sh].

(* Lines 343-351: the check of the input and its reshaping. Returns the
   batch shape and the reshaped input. *)
Definition check_input (x : Tensor.t) : act (seq nat * Tensor.t) :=
  (if size (Tensor.shape x) < 1
   then raise (ValueError
     "Input tensor x should have at least one axis, got 0")
   else ret tt) ;;~
  let batch_shape := take (size (Tensor.shape x)).-1 (Tensor.shape x) in
  let signal_shape := drop (size (Tensor.shape x)).-1 (Tensor.shape x) in
  x <~ lift (reshape x ([:: Negz 0; Posz 1]
                        ++ [seq Posz d | d <- signal_shape])) ;;
  ret (batch_shape, x).

(* Lines 353-363: "treat the arguments". Returns size_scattering. *)
Definition treat_arguments : act value :=
  vectorize <~ getattr "vectorize" ;;
  if truthy vectorize then
    average <~ getattr "average" ;;
    if ~~ truthy average then
      raise (ValueError
        ("Options average=False and vectorize=True are "
         ++ "mutually incompatible. Please set vectorize to False."))
    else
      J <~ getattr "J" ;;
      Q <~ getattr "Q" ;;
      max_order <~ getattr "max_order" ;;
      j <~ lift (as_int J) ;;
      q <~ lift (as_int Q) ;;
      mo <~ lift (as_int max_order) ;;
      s <~ lift (precompute_size_scattering
                   calibrate_scattering_filters j q mo true) ;;
      ret (size_value s)
  else ret (VInt 0).

(* Lines 367-371, 372-377 and 378-383: the three restoring loops. *)
Definition restore_phi (buffer_dict : seq (string * value)) (n : nat)
    : act nat :=
  phi_f <~ getattr "phi_f" ;;
  ks <~ lift (dict_keys phi_f) ;;
  afor ks (restore_phi_key buffer_dict) n.

Definition restore_psi1 (buffer_dict : seq (string * value)) (n : nat)
    : act nat :=
  psi1_f <~ getattr "psi1_f" ;;
  ds <~ lift (list_items psi1_f) ;;
  afor ds
    (fun n psi_f =>
       ks <~ lift (dict_keys psi_f) ;;
       afor ks (restore_psi1_key buffer_dict) n)
    n.

Definition restore_psi2 (buffer_dict : seq (string * value)) (n : nat)
    : act nat :=
  psi2_f <~ getattr "psi2_f" ;;
  ds <~ lift (list_items psi2_f) ;;
  afor (enumerate ds)
    (fun n (e : nat * value) =>
       ks <~ lift (dict_keys e.2) ;;
       afor ks (restore_psi2_key buffer_dict e.1) n)
    n.

(* Lines 385-401: the call of scattering1d and the reshaping of what it
   returns. *)
Definition cascade (x : Tensor.t) (batch_shape : seq nat)
    (size_scattering : value) : act value :=
  scattering1d <~ load_global "scattering1d" ;;
  pad <~ load_global "pad" ;;
  unpad <~ load_global "unpad" ;;
  backend <~ getattr "backend" ;;
  J <~ getattr "J" ;;
  psi1_f <~ getattr "psi1_f" ;;
  psi2_f <~ getattr "psi2_f" ;;
  phi_f <~ getattr "phi_f" ;;
  max_order <~ getattr "max_order" ;;
  average <~ getattr "average" ;;
  pad_left <~ getattr "pad_left" ;;
  pad_right <~ getattr "pad_right" ;;
  ind_start <~ getattr "ind_start" ;;
  ind_end <~ getattr "ind_end" ;;
  oversampling <~ getattr "oversampling" ;;
  vectorize <~ getattr "vectorize" ;;
  S <~ invoke scattering1d
         [:: VTensor (Tensor.storage x); pad; unpad; backend; J; psi1_f;
             psi2_f; phi_f; max_order; average; pad_left; pad_right;
             ind_start; ind_end; oversampling; vectorize;
             size_scattering] ;;
  vectorize <~ getattr "vectorize" ;;
  if truthy vectorize then
    invoke (VFunction "reshape") [:: S; shape_value batch_shape]
  else
    invoke (VFunction "reshape_items") [:: S; shape_value batch_shape].

Definition forward (x : Tensor.t) : act value :=
  checked <~ check_input x ;;
  size_scattering <~ treat_arguments ;;
  let n := 0 in
  buffer_dict <~ named_buffers ;;
  n <~ restore_phi buffer_dict n ;;
  n <~ restore_psi1 buffer_dict n ;;
  n <~ restore_psi2 buffer_dict n ;;
  cascade checked.2 checked.1 size_scattering.

End Scattering1DTorch.

(* --------------------------------------------------------------------- *)
(* frontend/__init__.py: the public class Scattering1D                   *)
(* --------------------------------------------------------------------- *)

(* `try: body  except: handler`: the bare except clause takes every
   exception the body raises. *)
Definition try_except {A : Type} (body : act A) (handler : exn -> act A)
    : act A :=
  fun w =>
    match body w with
    | (Ok a, w') => (Ok a, w')
    | (Raise e, w') => handler e w'
    end.

(* `kwargs.pop(name)` *)
Definition remove_key (name : string) (kwargs : seq (string * value))
    : seq (string * value) :=
  [seq kv <- kwargs | kv.1 != name].

(* Binding positional and keyword arguments to the parameters of a `def`:
   each parameter is a name with an optional default. *)
Fixpoint bind_parameters (params : seq (string * option value))
    (args : seq value) (kwargs : seq (string * value))
    : result (seq value) :=
  match params with
  | [::] =>
      if nilp args && nilp kwargs then Ok [::] else Raise TypeError
  | (name, default) :: params' =>
      match args with
      | a :: args' =>
          if lookup String.eqb name kwargs is Some _ then Raise TypeError
          else
            vs <-- bind_parameters params' args' kwargs ;;
            Ok (a :: vs)
      | [::] =>
          match lookup String.eqb name kwargs, default with
          | Some v, _ =>
              vs <-- bind_parameters params' [::] (remove_key name kwargs) ;;
              Ok (v :: vs)
          | None, Some v =>
              vs <-- bind_parameters params' [::] kwargs ;;
              Ok (v :: vs)
          | None, None => Raise TypeError
          end
      end
  end.

(* The parameters of Scattering1DTorch.__init__ after self, line 163. *)
Definition torch_parameters : seq (string * option value) :=
  [:: ("J"%string, None); ("shape"%string, None);
      ("Q"%string, Some (VInt 1)); ("max_order"%string, Some (VInt 2));
      ("average"%string, Some (VBool true));
      ("oversampling"%string, Some (VInt 0));
      ("vectorize"%string, Some (VBool true));
      ("backend"%string, Some VNone)].

Section Scattering1D.

Variable base_init : act unit.
Variable import_torch_backend : result value.
Variable extern : string -> seq value -> act value.
(* `from .numpy_frontend import Scattering1DNumpy` and its two siblings:
   the import of a front-end module. *)
Variable import_frontend : string -> result unit.
(* The constructors of the numpy and tensorflow front ends, which are not
   among the three files. *)
Variable numpy_init : seq value -> seq (string * value) -> act unit.
Variable tensorflow_init : seq value -> seq (string * value) -> act unit.

(* The call of `self.__init__` with the arguments passed on, once the class
   is Scattering1DTorch. *)
Definition torch_init (args : seq value) (kwargs : seq (string * value))
    : act unit :=
  vs <~ lift (bind_parameters torch_parameters args kwargs) ;;
  if vs is [:: J; shape; Q; max_order; average; oversampling; vectorize;
               backend]
  then init base_init import_torch_backend extern
         J shape Q max_order average oversampling vectorize backend
  else raise TypeError.

(* `frontend == name` for whatever object kwargs['frontend'] is. *)
Definition is_str (v : value) (name : string) : bool :=
  if v is VStr s then s == name else false.

(* Scattering1D.__init__, lines 6-38. *)
Definition scattering1d_init (args : seq value)
    (kwargs : seq (string * value)) : act unit :=
  let frontend :=
    if lookup String.eqb "frontend"%string kwargs is Some v then v
    else VStr "numpy" in
  let kwargs := remove_key "frontend" kwargs in
  if is_str frontend "numpy" then
    try_except
      (lift (import_frontend "numpy_frontend") ;;~
       setattr "__class__" (VStr "Scattering1DNumpy") ;;~
       numpy_init args kwargs)
      (fun _ => raise (RuntimeError "Make sure NumPy is correctly installed."))
    ;;~ log_call "logging.info"
  else if is_str frontend "torch" then
    try_except
      (lift (import_frontend "torch_frontend") ;;~
       setattr "__class__" (VStr "Scattering1DTorch") ;;~
       torch_init args kwargs)
      (fun _ =>
         raise (RuntimeError "Make sure PyTorch is correctly installed."))
    ;;~ log_call "logging.info"
  else if is_str frontend "tensorflow" then
    try_except
      (lift (import_frontend "tensorflow_frontend") ;;~
       setattr "__class__" (VStr "Scattering1DTensorflow") ;;~
       tensorflow_init args kwargs)
      (fun _ =>
         raise (RuntimeError "Make sure TensorFlow is correctly installed."))
    ;;~ log_call "logging.info"
  else raise (RuntimeError "This frontend is not available.").

End Scattering1D.

(* A world and surroundings to run the constructors in: a fresh object,
   a base constructor that clears the buffers, a torch backend that
   imports, and no function of another module ever reached. *)
Definition fresh_world : world :=
  {| attrs := [::]; buffers := [::]; calls := [::] |}.

Definition sample_base_init : act unit :=
  fun w => (Ok tt, {| attrs := attrs w; buffers := [::]; calls := calls w |}).

Definition sample_backend : result value := Ok (VModule "torch").

Definition sample_extern (name : string) (args : seq value) : act value :=
  ret VNone.

Definition sample_import (name : string) : result unit := Ok tt.

Definition sample_init (args : seq value) (kwargs : seq (string * value))
    : act unit :=
  ret tt.

(* The constructor arguments build accepts up to its call of
   compute_minimum_support_to_pad: no backend (then the torch backend is
   imported) or one whose name starts with 'torch', and a shape that is an
   int or a 1-tuple. *)
Definition backend_accepted (backend : value) : bool :=
  if truthy backend then
    if backend is VModule name then substring 0 5 name == "torch"%string
    else false
  else true.

Definition shape_accepted (shape : value) : bool :=
  is_integral shape || (if shape is VTuple [:: _] then true else false).

(* Two worlds that differ at most in the attributes named. *)
Definition frame (names : seq string) (w w' : world) : Prop :=
  [/\ calls w' = calls w, buffers w' = buffers w
    & forall name, name \notin names ->
        lookup String.eqb name (attrs w') = lookup String.eqb name (attrs w)].

(* The attributes that hold the padding plan and the filter bank. *)
Definition plan_attributes : seq string :=
  [:: "J_pad"; "pad_left"; "pad_right"; "ind_start"; "ind_end"; "psi1_f";
      "psi2_f"; "phi_f"]%string.

(* What the constructor leaves behind when the checks of build pass: the
   NameError of line 218, no call into another module, no buffer, and no
   attribute of the padding plan or of the filter bank. *)
Definition stops_at_line_218 (w : world) (r : result unit * world) : Prop :=
  [/\ r.1 = Raise (NameError "compute_minimum_support_to_pad"),
      calls r.2 = calls w, buffers r.2 = buffers w
    & forall name, name \in plan_attributes ->
        lookup String.eqb name (attrs r.2)
        = lookup String.eqb name (attrs w)].

(* The only exception class that leaves Scattering1D.__init__. *)
Definition returns_or_runtime_error {A : Type} (r : result A) : bool :=
  match r with
  | Ok _ => true
  | Raise (RuntimeError _) => true
  | Raise _ => false
  end.

(* A constructor of the numpy front end that refuses its configuration. *)
Definition refusing_init (args : seq value) (kwargs : seq (string * value))
    : act unit :=
  raise (ValueError "Q should always be >= 1, got 0").

(* The configuration error of forward, lines 357-359. *)
Definition incompatible_options : exn :=
  ValueError
    ("Options average=False and vectorize=True are "
     ++ "mutually incompatible. Please set vectorize to False.").

(* An object on which the restoring loops of forward get as far as the
   first resolution key of psi1_f: phi_f is a filter dictionary, psi1_f a
   list of filter dictionaries of which one has a key that is not a
   string, the buffers 'tensor0', 'tensor1', ... exist up to the number of
   resolution keys of phi_f, and nothing is called psi_f. *)
Record restorable (w : world) (phi : seq (key * value))
    (psi1 : seq (seq (key * value))) : Prop := Restorable {
  has_phi_f :
    lookup String.eqb "phi_f"%string (attrs w) = Some (VDict phi);
  has_psi1_f :
    lookup String.eqb "psi1_f"%string (attrs w)
    = Some (VList [seq VDict d | d <- psi1]);
  has_buffers :
    forall n, n <= count not_str (keys phi) ->
      isSome (lookup String.eqb (tensor_name n) (buffers w));
  has_resolution_key : has (fun d => has not_str (keys d)) psi1;
  no_psi_f_attribute :
    lookup String.eqb "psi_f"%string (attrs w) = None;
  no_psi_f_buffer :
    lookup String.eqb "psi_f"%string (buffers w) = None
}.

(* A statement that enters no function of another module. *)
Definition quiet {A : Type} (m : act A) : Prop :=
  forall w, calls (m w).2 = calls w.

(* An object to run forward on. The filter factory hands out a low-pass
   filter at two resolutions, two first-order and one second-order
   wavelet; create_and_register_filters registers them on an object that
   carries the attributes __init__ and build would have set. *)
Definition sample_phi_f : value :=
  VDict [:: (KInt 0, VArray 0); (KInt 1, VArray 1);
            (KStr "xi", VFloat 0%float); (KStr "sigma", VFloat 0.025%float);
            (KStr "j", VInt 2)].

Definition sample_psi1_f : value :=
  VList [:: VDict [:: (KInt 0, VArray 2); (KStr "xi", VFloat 0.4%float);
                      (KStr "sigma", VFloat 0.1%float); (KStr "j", VInt 0)];
            VDict [:: (KInt 0, VArray 3); (KInt 1, VArray 4);
                      (KStr "xi", VFloat 0.2%float);
                      (KStr "sigma", VFloat 0.05%float); (KStr "j", VInt 1)]].

Definition sample_psi2_f : value :=
  VList [:: VDict [:: (KInt 0, VArray 5); (KStr "xi", VFloat 0.2%float);
                      (KStr "sigma", VFloat 0.05%float); (KStr "j", VInt 1)]].

Definition sample_factory (name : string) (args : seq value) : act value :=
  if name == "scattering_filter_factory"%string
  then ret (VTuple [:: sample_phi_f; sample_psi1_f; sample_psi2_f; VInt 7])
  else ret VNone.

Definition configured_world (average vectorize : bool) : world :=
  {| attrs :=
       [:: ("J"%string, VInt 2); ("shape"%string, VInt 16);
           ("Q"%string, VInt 1); ("max_order"%string, VInt 2);
           ("average"%string, VBool average);
           ("oversampling"%string, VInt 0);
           ("vectorize"%string, VBool vectorize);
           ("backend"%string, VModule "torch");
           ("r_psi"%string, VFloat (PrimFloat.sqrt 0.5%float));
           ("sigma0"%string, VFloat 0.1%float);
           ("alpha"%string, VFloat 5%float); ("P_max"%string, VInt 5);
           ("eps"%string, VFloat 1e-7%float);
           ("criterion_amplitude"%string, VFloat 1e-3%float);
           ("normalize"%string, VStr "l1"); ("T"%string, VInt 16);
           ("J_pad"%string, VInt 5); ("pad_left"%string, VInt 8);
           ("pad_right"%string, VInt 8);
           ("ind_start"%string, VDict [::]);
           ("ind_end"%string, VDict [::])];
     buffers := [::];
     calls := [::] |}.

Definition registered_world (average vectorize : bool) : world :=
  (create_and_register_filters sample_factory
     (configured_world average vectorize)).2.

(* The filter dictionaries of the registered object. *)
Definition registered_phi : seq (key * value) :=
  [:: (KInt 0, VTensor 0); (KInt 1, VTensor 1);
      (KStr "xi", VFloat 0%float); (KStr "sigma", VFloat 0.025%float);
      (KStr "j", VInt 2)].

Definition registered_psi1 : seq (seq (key * value)) :=
  [:: [:: (KInt 0, VTensor 2); (KStr "xi", VFloat 0.4%float);
          (KStr "sigma", VFloat 0.1%float); (KStr "j", VInt 0)];
      [:: (KInt 0, VTensor 3); (KInt 1, VTensor 4);
          (KStr "xi", VFloat 0.2%float); (KStr "sigma", VFloat 0.05%float);
          (KStr "j", VInt 1)]].

(* A batch of three signals of length 16, and a reshape that returns. *)
Definition sample_input : Tensor.t :=
  {| Tensor.shape := [:: 3; 16]; Tensor.storage := 0 |}.

Definition sample_reshape (x : Tensor.t) (sh : seq int) : result Tensor.t :=
  Ok {| Tensor.shape := [:: 3; 1; 16]; Tensor.storage := Tensor.storage x |}.

(* `x.reshape(shape)` as torch does it. At most one entry of the shape is
   -1, and stands for the dimension that makes the numbers of elements
   agree. When the other entries multiply to 0 and x has no element, any
   dimension would do, and torch refuses to choose one. *)
Definition torch_reshape (x : Tensor.t) (sh : seq int) : result Tensor.t :=
  let numel := foldr muln 1 (Tensor.shape x) in
  let newsize := foldr muln 1 [seq `|d|%N | d <- sh & d != Negz 0] in
  let invalid := RuntimeError "shape is invalid for the input size" in
  if has (fun d : int => (d < Negz 0)%R) sh then
    Raise (RuntimeError "invalid shape dimension")
  else if 1 < count (pred1 (Negz 0)) sh then
    Raise (RuntimeError "only one dimension can be inferred")
  else if has (pred1 (Negz 0)) sh then
    if newsize == 0 then
      if numel == 0 then
        Raise (RuntimeError
          ("cannot reshape tensor of 0 elements: the unspecified "
           ++ "dimension size -1 can be any value and is ambiguous"))
      else Raise invalid
    else if numel %% newsize == 0 then
      Ok {| Tensor.shape :=
              [seq if d == Negz 0 then numel %/ newsize else `|d|%N
              | d <- sh];
            Tensor.storage := Tensor.storage x |}
    else Raise invalid
  else if newsize == numel then
    Ok {| Tensor.shape := [seq `|d|%N | d <- sh];
          Tensor.storage := Tensor.storage x |}
  else Raise invalid.

(* `torch.zeros(0)`: one axis, no element. *)
Definition empty_input : Tensor.t :=
  {| Tensor.shape := [:: 0]; Tensor.storage := 0 |}.

(* An object whose filter dictionaries hold metadata only, with
   vectorize off, and an input without axes. *)
Definition bare_world : world :=
  {| attrs :=
       [:: ("vectorize"%string, VBool false);
           ("phi_f"%string, VDict [:: (KStr "xi", VFloat 0%float)]);
           ("psi1_f"%string, VList [:: VDict [:: (KStr "j", VInt 0)]]);
           ("psi2_f"%string, VList [::])];
     buffers := [::];
     calls := [::] |}.

Definition scalar_input : Tensor.t :=
  {| Tensor.shape := [::]; Tensor.storage := 0 |}.

(* A statement that leaves the world as it found it. *)
Definition readonly {A : Type} (m : act A) : Prop :=
  forall w, (m w).2 = w.

(* --------------------------------------------------------------------- *)
(* numpy arrays, as numpy_backend.py uses them                           *)
(* --------------------------------------------------------------------- *)

(* An array is its shape and its elements in row-major (C) order, as numpy
   lays out what np.zeros, reshape, mean and the FFTs return. The elements
   are taken in a field of complex numbers with exact arithmetic, where
   numpy holds complex128 values and rounds: the shapes and the
   exceptions of the backend are those of the code, the entries are its
   entries up to rounding only; they are looked at on one small array of
   integers alone, where numpy does not round. *)
Module Np.

Section Arrays.

Variable C : numClosedFieldType.

Record ndarray : Type := Ndarray {
  ndshape : seq nat;
  data : seq C
}.

(* The number of elements of an array of shape sh. *)
Definition numel (sh : seq nat) : nat := foldr muln 1 sh.

Definition well_formed (x : ndarray) : bool :=
  size (data x) == numel (ndshape x).

(* The position of the element with index idx in the data: the stride of
   an axis is the number of elements of the axes after it. *)
Fixpoint ravel (sh idx : seq nat) : nat :=
  match sh, idx with
  | _ :: sh', i :: idx' => i * numel sh' + ravel sh' idx'
  | _, _ => 0
  end.

Fixpoint unravel (sh : seq nat) (t : nat) : seq nat :=
  match sh with
  | [::] => [::]
  | _ :: sh' => t %/ numel sh' :: unravel sh' (t %% numel sh')
  end.


(* `x[idx]` for an index in range. *)
Definition item (x : ndarray) (idx : seq nat) : C :=
  nth 0%R (data x) (ravel (ndshape x) idx).

(* The array of shape sh whose element at idx is f idx. *)
Definition tabulate (sh : seq nat) (f : seq nat -> C) : ndarray :=
  {| ndshape := sh;
     data := mkseq (fun t => f (unravel sh t)) (numel sh) |}.

(* `np.zeros(shape, dtype)`: refuses a negative dimension. *)
Definition zeros (shape : seq int) : result ndarray :=
  if all (fun d : int => (0 <= d)%R) shape
  then Ok (tabulate [seq `|d|%N | d <- shape] (fun _ => 0%R))
  else Raise (ValueError "negative dimensions are not allowed").

(* `x.reshape(shape)`: the same data under a shape with as many
   elements. *)
Definition reshape (x : ndarray) (shape : seq nat) : result ndarray :=
  if numel shape == size (data x)
  then Ok {| ndshape := shape; data := data x |}
  else Raise (ValueError "cannot reshape array").

(* `x.shape[i]` for i >= 0. *)
Definition shape_at (x : ndarray) (i : nat) : result nat :=
  getitem (ndshape x) i.

(* The index of x that has the entries of kept on the axes that stay and
   the entries of reduced on the axes that are averaged. *)
Fixpoint merge_index (reduce : bitseq) (kept reduced : seq nat)
    : seq nat :=
  match reduce with
  | [::] => [::]
  | true :: reduce' =>
      head 0 reduced :: merge_index reduce' kept (behead reduced)
  | false :: reduce' =>
      head 0 kept :: merge_index reduce' (behead kept) reduced
  end.

(* `x.mean(axis=axes)` for a tuple of axes. *)
Definition mean (x : ndarray) (axes : seq nat) : result ndarray :=
  let sh := ndshape x in
  if ~~ all (fun a => a < size sh) axes then Raise AxisError
  else if ~~ uniq axes then Raise (ValueError "duplicate value in 'axis'")
  else
    let reduce := [seq a \in axes | a <- iota 0 (size sh)] in
    let kept_shape := mask [seq ~~ b | b <- reduce] sh in
    let reduced_shape := mask reduce sh in
    Ok (tabulate kept_shape
          (fun kept =>
             (\sum_(0 <= t < numel reduced_shape)
                item x (merge_index reduce kept (unravel reduced_shape t)))
             / (numel reduced_shape)%:R)%R).

(* `x * n` for a Python int n, elementwise. *)
Definition scale (x : ndarray) (n : nat) : ndarray :=
  {| ndshape := ndshape x; data := [seq (z * n%:R)%R | z <- data x] |}.

(* `np.real(x)` *)
Definition real (x : ndarray) : ndarray :=
  {| ndshape := ndshape x; data := [seq ('Re z)%R | z <- data x] |}.

(* The discrete Fourier transforms of numpy.fft over the last two axes.
   omega n stands for exp(-2 pi i / n). *)
Variable omega : nat -> C.

(* The lengths of the last two axes: the transforms need two axes
   (else the axis -2 is out of bounds) and refuse an empty axis. *)
Definition last_two (x : ndarray) : result (seq nat * nat * nat) :=
  match rev (ndshape x) with
  | n :: m :: pre =>
      if (m == 0) || (n == 0)
      then Raise (ValueError "Invalid number of FFT data points (0) specified.")
      else Ok (rev pre, m, n)
  | _ => Raise IndexError
  end.

(* `np.fft.fft2(x, norm=None)`: no scaling. *)
Definition fft2 (x : ndarray) : result ndarray :=
  s <-- last_two x ;;
  let: (pre, m, n) := s in
  Ok (tabulate (ndshape x)
        (fun idx =>
           let b := take (size pre) idx in
           let k1 := nth 0 idx (size pre) in
           let k2 := nth 0 idx (size pre).+1 in
           (\sum_(0 <= n1 < m) \sum_(0 <= n2 < n)
              item x (b ++ [:: n1; n2])
              * omega m ^+ (k1 * n1) * omega n ^+ (k2 * n2))%R)).

(* `np.fft.ifft2(x, norm=None)`: scaled by 1 / (m * n). *)
Definition ifft2 (x : ndarray) : result ndarray :=
  s <-- last_two x ;;
  let: (pre, m, n) := s in
  Ok (tabulate (ndshape x)
        (fun idx =>
           let b := take (size pre) idx in
           let k1 := nth 0 idx (size pre) in
           let k2 := nth 0 idx (size pre).+1 in
           ((\sum_(0 <= n1 < m) \sum_(0 <= n2 < n)
               item x (b ++ [:: n1; n2])
               * omega m ^- (k1 * n1) * omega n ^- (k2 * n2))
            / (m * n)%:R)%R)).

End Arrays.

End Np.

(* --------------------------------------------------------------------- *)
(* numpy_backend.py                                                      *)
(* --------------------------------------------------------------------- *)

(* `a // b` on Python ints, for a >= 0: the floor of the quotient. *)
Definition floordiv (a : nat) (b : int) : result int :=
  match b with
  | Posz 0 => Raise ZeroDivisionError
  | Posz d => Ok (Posz (a %/ d))
  | Negz d => Ok (- Posz ((a + d) %/ d.+1))%R
  end.

Section NumpyBackend.

Variable C : numClosedFieldType.
Variable omega : nat -> C.

Local Notation ndarray := (Np.ndarray C).

(* SubsampleFourier.__call__, lines 68-76. *)
Definition SubsampleFourier (x : ndarray) (k : int) : result ndarray :=
  s0 <-- Np.shape_at x 0 ;;
  s1 <-- Np.shape_at x 1 ;;
  s2 <-- Np.shape_at x 2 ;;
  d2 <-- floordiv s2 k ;;
  s3 <-- Np.shape_at x 3 ;;
  d3 <-- floordiv s3 k ;;
  out <-- Np.zeros C [:: Posz s0; Posz s1; d2; d3] ;;
  x0 <-- Np.shape_at x 0 ;;
  x1 <-- Np.shape_at x 1 ;;
  x2 <-- Np.shape_at x 2 ;;
  o2 <-- Np.shape_at out 2 ;;
  q2 <-- floordiv x2 (Posz o2) ;;
  o2' <-- Np.shape_at out 2 ;;
  x3 <-- Np.shape_at x 3 ;;
  o3 <-- Np.shape_at out 3 ;;
  q3 <-- floordiv x3 (Posz o3) ;;
  o3' <-- Np.shape_at out 3 ;;
  y <-- Np.reshape x [:: x0; x1; `|q2|%N; o2'; `|q3|%N; o3'] ;;
  out <-- Np.mean y [:: 2; 4] ;;
  Ok out.

(* fft, lines 101-131. *)
Definition fft (x : ndarray) (direction : string) (inverse : bool)
    : result ndarray :=
  (if direction == "C2R"%string then
     if ~~ inverse then
       Raise (RuntimeError "C2R mode can only be done with an inverse FFT.")
     else Ok tt
   else Ok tt) ;;;
  if direction == "C2R"%string then
    y <-- Np.ifft2 omega x ;;
    n <-- getitem (rev (Np.ndshape x)) 0 ;;
    m <-- getitem (rev (Np.ndshape x)) 1 ;;
    let output := Np.scale (Np.scale (Np.real y) n) m in
    Ok output
  else if direction == "C2C"%string then
    if inverse then
      y <-- Np.ifft2 omega x ;;
      n <-- getitem (rev (Np.ndshape x)) 0 ;;
      m <-- getitem (rev (Np.ndshape x)) 1 ;;
      let output := Np.scale (Np.scale y n) m in
      Ok output
    else
      output <-- Np.fft2 omega x ;;
      Ok output
  else Raise (UnboundLocalError "output").

End NumpyBackend.

(* An array to run the backend on: one image of two rows and two columns
   over the algebraic numbers. *)
Definition sample_image : Np.ndarray algC :=
  {| Np.ndshape := [:: 1; 1; 2; 2];
     Np.data := [:: 1; 2%:R; 3%:R; 4%:R]%R |}.




(* --------------------------------------------------------------------- *)
(* torch_frontend.py: the module functions _apply_psi and _apply_phi     *)
(* --------------------------------------------------------------------- *)

(* `torch.is_tensor(v)` *)
Definition is_tensor (v : value) : bool :=
  if v is VTensor _ then true else false.

Section ApplyFilters.

(* The callable `fn`, which may raise. *)
Variable fn : value -> result value.

(* The body of the loop over the keys, lines 656-657 (and 635-636):
   `if torch.is_tensor(Phi[k]): Phi[k] = fn(Phi[k])`. The dictionary is
   changed in place; the statement returns it as it is afterwards. *)
Definition apply_key (Phi : value) (k : key) : result value :=
  v <-- dict_getitem Phi k ;;
  if is_tensor v then
    v <-- dict_getitem Phi k ;;
    r <-- fn v ;;
    dict_setitem Phi k r
  else Ok Phi.

(* _apply_phi, lines 639-657. *)
Definition _apply_phi (Phi : value) : result value :=
  ks <-- dict_keys Phi ;;
  for_each ks apply_key Phi.

(* _apply_psi, lines 617-636, changes the objects that Psi holds, and a
   list may hold one dictionary at two places. The objects are therefore
   kept in a store and named by their address in it; a statement runs on
   a store and gives what it returns or raises with the store as it has
   left it. *)
Definition stmt : Type := seq value -> result unit * seq value.

(* A `for` loop over xs: the first iteration that raises ends the loop,
   with the store as it is then. *)
Fixpoint store_for {A : Type} (xs : seq A) (body : A -> stmt) : stmt :=
  fun store =>
    match xs with
    | [::] => (Ok tt, store)
    | x :: xs' =>
        match body x store with
        | (Ok _, store') => store_for xs' body store'
        | (Raise e, store') => (Raise e, store')
        end
    end.

(* The argument Psi: a list or a tuple, given by the addresses of its
   items in order, or a dictionary. *)
Inductive filters : Type :=
| Listed (addrs : seq nat)
| Mapping (d : seq (key * value)).

(* Lines 635-636 with filt the object at address a:
   `if torch.is_tensor(filt[k]): filt[k] = fn(filt[k])`. When the
   statement raises, the assignment has not taken place. *)
Definition apply_key_at (a : nat) (k : key) : stmt :=
  fun store =>
    match apply_key (nth VNone store a) k with
    | Ok filt => (Ok tt, set_nth VNone store a filt)
    | Raise e => (Raise e, store)
    end.

(* Lines 634-636: `for k in filt.keys():` on the object at address a; an
   object without the method `keys` gives an AttributeError. *)
Definition apply_filt (a : nat) : stmt :=
  fun store =>
    match dict_keys (nth VNone store a) with
    | Ok ks => store_for ks (apply_key_at a) store
    | Raise e => (Raise e, store)
    end.

(* _apply_psi, lines 617-636. `for filt in Psi:` goes through the items
   of a list and through the keys of a dictionary; a key is an int or a
   str, which has no method `keys`, so that the first iteration on a
   dictionary raises at line 634. *)
Definition _apply_psi (Psi : filters) : stmt :=
  fun store =>
    match Psi with
    | Listed addrs => store_for addrs apply_filt store
    | Mapping [::] => (Ok tt, store)
    | Mapping (_ :: _) => (Raise (AttributeError "keys"), store)
    end.

End ApplyFilters.

(* The keys of a dictionary are pairwise different. *)
Fixpoint distinct (ks : seq key) : bool :=
  if ks is k :: ks' then ~~ has (key_eqb k) ks' && distinct ks' else true.

(* What the loop of _apply_phi makes of one item when fn returns g v on
   the tensor v. *)
Definition applied (g : value -> value) (kv : key * value) : key * value :=
  (kv.1, if is_tensor kv.2 then g kv.2 else kv.2).

(* What the loop over the keys makes of a dictionary, and of the object
   at address a of a store, when fn returns g v on the tensor v. *)
Definition applied_dict (g : value -> value) (v : value) : value :=
  if v is VDict d then VDict [seq applied g kv | kv <- d] else v.

Definition applied_at (g : value -> value) (store : seq value) (a : nat) :
    seq value :=
  set_nth VNone store a (applied_dict g (nth VNone store a)).

(* A dictionary whose keys are pairwise different. *)
Definition filter_dict (v : value) : bool :=
  if v is VDict d then distinct (keys d) else false.

(* A cast to run the two functions with: it renames a tensor and refuses
   anything else. *)
Definition sample_cast (v : value) : result value :=
  if v is VTensor a then Ok (VTensor a.+1) else Raise TypeError.

Definition sample_cast_value (v : value) : value :=
  if v is VTensor a then VTensor a.+1 else v.

(* Two filter dictionaries in a store. *)
Definition sample_store : seq value :=
  [:: VDict [:: (KInt 0, VTensor 2); (KStr "j", VInt 0)];
      VDict [:: (KInt 0, VTensor 3); (KInt 1, VTensor 4)]].

(* --------------------------------------------------------------------- *)
(* What the registering loops make of a filter dictionary                *)
(* --------------------------------------------------------------------- *)

(* The value is a numpy array, which torch.from_numpy accepts. *)
Definition is_array (v : value) : bool :=
  if v is VArray _ then true else false.

(* The item after lines 250-255: the array under a resolution key has
   become a tensor; the items under string keys are as they were. *)
Definition torched (kv : key * value) : key * value :=
  if not_str kv.1 then
    (kv.1, if kv.2 is VArray a then VTensor a else kv.2)
  else kv.

(* A dictionary the loop can go through: keys pairwise different, an
   array under every resolution key. *)
Definition registrable (d : seq (key * value)) : bool :=
  distinct (keys d) && all (fun kv => not_str kv.1 ==> is_array kv.2) d.

(* The buffers hold the values that d has under its resolution keys, in
   the order of the keys, under the names 'tensor<n>', 'tensor<n+1>',
   ... *)
Fixpoint buffered (buffer_dict : seq (string * value)) (n : nat)
    (d : seq (key * value)) : Prop :=
  match d with
  | [::] => True
  | kv :: d' =>
      if not_str kv.1 then
        lookup String.eqb (tensor_name n) buffer_dict = Some kv.2
        /\ buffered buffer_dict n.+1 d'
      else buffered buffer_dict n d'
  end.

(* ===================================================================== *)
(* Properties                                                            *)
(* ===================================================================== *)

Section MetaProjection.

Variables (A : Type) (P : Meta.lists -> seq (seq A)).
Variable mk : int -> seq Meta.float -> seq Meta.float -> seq int ->
              seq nat -> A.

Hypothesis P_append : forall meta k o xs ss js ns,
  P (Meta.append_path meta k o xs ss js ns)
  = Meta.push k (mk o xs ss js ns) (P meta).

Definition row1 (e1 : entry) : A :=
  mk 1 [:: e1.2.1] [:: e1.2.2.1] [:: e1.2.2.2] [:: e1.1].

Definition row2 (e1 e2 : entry) : A :=
  mk 2 [:: e1.2.1; e2.2.1] [:: e1.2.2.1; e2.2.2.1]
     [:: e1.2.2.2; e2.2.2.2] [:: e1.1; e2.1].

Lemma nth_push (T : Type) k (v : T) value k' :
  nth [::] (Meta.push k v value) k'
  = if k' == k then rcons (nth [::] value k) v else nth [::] value k'.
Proof. by rewrite /Meta.push nth_set_nth. Qed.

Lemma P_inner xi1 s1 j1 n1 c meta k :
  nth [::] (P (meta_inner xi1 s1 j1 n1 c meta)) k
  = nth [::] (P meta) k
    ++ (if k == 2
        then [seq row2 (n1, (xi1, (s1, j1))) e2
             | e2 <- valid2 c (n1, (xi1, (s1, j1)))]
        else [::]).
Proof.
rewrite /meta_inner /valid2 -/(entries2 c).
elim: (entries2 c) meta => [|[n2 [xi2 [s2 j2]]] es IH] meta /=.
  by rewrite if_same cats0.
rewrite IH /scale /=; case: ifP => _ //=.
rewrite P_append nth_push; case: ifP => [/eqP ->|_] //=.
by rewrite cat_rcons.
Qed.

Definition rows2 (max_order : int) (c : Meta.calibration) (es : seq entry)
    : seq A :=
  if (max_order < 2)%R then [::]
  else flatten [seq [seq row2 e1 e2 | e2 <- valid2 c e1] | e1 <- es].

Lemma P_outer max_order c meta k :
  nth [::] (P (meta_outer max_order c meta)) k
  = nth [::] (P meta) k
    ++ (if k == 1 then [seq row1 e1 | e1 <- entries1 c]
        else if k == 2 then rows2 max_order c (entries1 c)
        else [::]).
Proof.
rewrite /meta_outer /rows2 -/(entries1 c).
elim: (entries1 c) meta => [|[n1 [xi1 [s1 j1]]] es IH] meta /=.
  by rewrite !if_same cats0.
rewrite IH; case: ifP => Hmo.
  rewrite P_append nth_push; case: ifP => [/eqP ->|_] /=.
    by rewrite cat_rcons.
  by [].
rewrite P_inner P_append nth_push.
case: ifP => [/eqP ->|_] /=; first by rewrite cats0 cat_rcons.
by case: ifP => _; rewrite ?cats0 ?catA.
Qed.

End MetaProjection.

Section MetaRows.

Variables (A : Type) (P : Meta.lists -> seq (seq A)).
Variable mk : int -> seq Meta.float -> seq Meta.float -> seq int ->
              seq nat -> A.

Hypothesis P_append : forall meta k o xs ss js ns,
  P (Meta.append_path meta k o xs ss js ns)
  = Meta.push k (mk o xs ss js ns) (P meta).
Hypothesis P_empty : P Meta.empty = [:: [::]; [::]; [::]].

(* What one field of `meta` holds after the loops and the concatenation. *)
Lemma concat3_outer max_order c :
  Meta.concat3
    (P (meta_outer max_order c
          (Meta.append_path Meta.empty 0 0 [::] [::] [::] [::])))
  = mk 0 [::] [::] [::] [::]
    :: [seq row1 mk e1 | e1 <- entries1 c]
    ++ rows2 mk max_order c (entries1 c).
Proof.
by rewrite /Meta.concat3 !(P_outer P_append) P_append P_empty.
Qed.

End MetaRows.

Lemma size_pad_row (T : Type) (inj : T -> Meta.num) (pad_len : int)
    (x : seq T) :
  ((size x)%:Z <= pad_len)%R ->
  ((size (Meta.pad_row inj pad_len x))%:Z = pad_len)%R.
Proof.
move=> le_x; rewrite /Meta.pad_row size_cat size_map.
have: (0 <= pad_len - (size x)%:Z)%R by rewrite subr_ge0.
case E: (pad_len - (size x)%:Z)%R => [k|k] // _.
rewrite /tuple_repeat size_flatten /shape map_nseq sumn_nseq /= mul1n.
by rewrite PoszD -E addrC subrK.
Qed.

Lemma rectangularP (T : Type) (rows : seq (seq T)) (w : nat) :
  all (fun r => size r == w) rows -> Meta.rectangular rows.
Proof.
rewrite /Meta.rectangular; case: rows => [|r rows] //= /andP [/eqP -> Hall].
by rewrite eqxx.
Qed.

Lemma to_tensor_padded (T : Type) (inj : T -> Meta.num) (pad_len : int)
    (rows : seq (seq T)) :
  all (fun x => ((size x)%:Z <= pad_len)%R) rows ->
  Meta.to_tensor [seq Meta.pad_row inj pad_len x | x <- rows]
  = Ok [seq Meta.pad_row inj pad_len x | x <- rows].
Proof.
move=> Hall; rewrite /Meta.to_tensor (@rectangularP _ _ `|pad_len|%N) //.
rewrite all_map; apply: sub_all Hall => x /= le_x.
by rewrite -eqz_nat size_pad_row // gez0_abs // (le_trans _ le_x).
Qed.

Lemma enumerateE (T : Type) (x0 : T) (s : seq T) :
  enumerate s = [seq (i, nth x0 s i) | i <- iota 0 (size s)].
Proof.
apply: (@eq_from_nth _ (0, x0)).
  by rewrite /enumerate size_zip size_map size_iota minnn.
move=> i; rewrite /enumerate size_zip size_iota minnn => lt_i.
rewrite nth_zip ?size_iota // (nth_map 0) ?size_iota //.
by rewrite nth_iota.
Qed.

Lemma enum_zip3E (xs ss : seq Meta.float) (js : seq int) :
  size ss = size xs -> size js = size xs ->
  enumerate (zip3 xs ss js)
  = [seq (i, (nth PrimFloat.nan xs i,
              (nth PrimFloat.nan ss i, nth 0%R js i)))
    | i <- iota 0 (size js)].
Proof.
move=> Hs Hj.
rewrite (enumerateE (PrimFloat.nan, (PrimFloat.nan, 0%R))).
have Hz : size (zip3 xs ss js) = size js.
  by rewrite /zip3 !size_zip Hs Hj !minnn.
rewrite Hz; apply/eq_in_map => i; rewrite mem_iota add0n => /andP [_ lt_i].
rewrite /zip3 nth_zip ?size_zip ?Hs ?Hj ?minnn // nth_zip ?Hs ?Hj //.
Qed.

Lemma entries1E c :
  parallel c -> entries1 c = [seq entry1_at c i | i <- iota 0 (size (Meta.j1s c))].
Proof.
case/and4P => /eqP Hs /eqP Hj _ _; exact: enum_zip3E.
Qed.

Lemma entries2E c :
  parallel c -> entries2 c = [seq entry2_at c i | i <- iota 0 (size (Meta.j2s c))].
Proof.
case/and4P => _ _ /eqP Hs /eqP Hj; exact: enum_zip3E.
Qed.

Lemma rows2E (A : Type) mk (max_order : int) c :
  parallel c ->
  rows2 mk max_order c (entries1 c)
  = if (max_order < 2)%R then [::]
    else [seq @row2 A mk (entry1_at c p.1) (entry2_at c p.2)
         | p <- order2_pairs c].
Proof.
move=> Hp; rewrite /rows2; case: ifP => // _.
rewrite /order2_pairs /allpairs_dep filter_flatten map_flatten -!map_comp.
rewrite (entries1E Hp) -map_comp; congr flatten; apply: eq_map => i /=.
rewrite /valid2 (entries2E Hp) !filter_map -!map_comp.
by [].
Qed.

Lemma getitem_nth (T : Type) (x0 : T) (s : seq T) (i : nat) :
  i < size s -> getitem s i = Ok (nth x0 s i).
Proof.
rewrite /getitem; elim: s i => [|x s IH] [|i] //= lt_i.
by rewrite -IH.
Qed.

Lemma getitem_default (T : Type) (s : seq T) (i : nat) :
  size s <= i -> getitem s i = Raise IndexError.
Proof. by move=> le_s; rewrite /getitem drop_oversize. Qed.

Lemma for_each_ok (T : eqType) (S : Type) (body : S -> T -> result S)
    (f : S -> T -> S) (xs : seq T) (s : S) :
  (forall s' x, x \in xs -> body s' x = Ok (f s' x)) ->
  for_each xs body s = Ok (foldl f s xs).
Proof.
elim: xs s => [|x xs IH] s Hbody //=.
rewrite Hbody ?mem_head //= IH // => s' y Hy.
by rewrite Hbody // in_cons Hy orbT.
Qed.

Section CountOrder2.

Variable c : Meta.calibration.

Let later (n1 n2 : nat) : bool :=
  (nth 0%R (Meta.j1s c) n1 < nth 0%R (Meta.j2s c) n2)%R.

Lemma foldl_count (T : Type) (p : pred T) (xs : seq T) (acc : nat) :
  foldl (fun a x => if p x then a.+1 else a) acc xs = acc + count p xs.
Proof.
elim: xs acc => [|x xs IH] acc /=; first by rewrite addn0.
by rewrite IH; case: (p x); rewrite ?add0n ?addSn ?addnS.
Qed.

Lemma count_outer (ns1 : seq nat) (acc : nat) :
  all (fun n1 => n1 < size (Meta.j1s c)) ns1 ->
  foldl (fun a n1 => a + count (later n1) (iota 0 (size (Meta.j2s c))))
        acc ns1
  = acc + size [seq p <- allpairs pair ns1 (iota 0 (size (Meta.j2s c)))
               | later p.1 p.2].
Proof.
elim: ns1 acc => [|n1 ns1 IH] acc /=; first by rewrite addn0.
case/andP => lt1 Hns1; rewrite IH // filter_cat size_cat addnA.
by congr (_ + _ + _); rewrite size_filter count_map.
Qed.

Lemma count_order2E :
  parallel c -> count_order2 c = Ok (size (order2_pairs c)).
Proof.
case/and4P => _ /eqP Hj1 _ /eqP Hj2; rewrite /count_order2 -Hj1 -Hj2.
rewrite (@for_each_ok _ _ _
  (fun a n1 => a + count (later n1) (iota 0 (size (Meta.j2s c))))); last first.
  rewrite count_outer ?add0n //.
  by apply/allP => i; rewrite mem_iota add0n.
move=> a n1; rewrite mem_iota add0n /= => lt1.
rewrite (@for_each_ok _ _ _ (fun a n2 => if later n1 n2 then a.+1 else a));
  last by rewrite foldl_count.
move=> a' n2; rewrite mem_iota add0n /= => lt2.
by rewrite (getitem_nth 0%R lt2) (getitem_nth 0%R lt1).
Qed.

End CountOrder2.

Lemma all_flatten (T : Type) (a : pred T) (ss : seq (seq T)) :
  all a (flatten ss) = all (all a) ss.
Proof. by elim: ss => [|s ss IH] //=; rewrite all_cat IH. Qed.

Lemma rows_bounded (T : Type)
    (mk : int -> seq Meta.float -> seq Meta.float -> seq int -> seq nat ->
          seq T)
    (max_order : int) c :
  (forall o xs ss js ns,
     size xs = size ns -> size ss = size ns -> size js = size ns ->
     size (mk o xs ss js ns) = size ns) ->
  (1 <= max_order)%R ->
  all (fun x => ((size x)%:Z <= max_order)%R)
      (mk 0%R [::] [::] [::] [::]
       :: [seq row1 mk e1 | e1 <- entries1 c]
       ++ rows2 mk max_order c (entries1 c)).
Proof.
move=> Hmk le1 /=; rewrite Hmk //= (le_trans _ le1) //= all_cat.
apply/andP; split.
  rewrite all_map; apply: sub_all (all_predT _) => e _ /=.
  by rewrite /row1 Hmk.
rewrite /rows2; case: ltP => // le2.
rewrite all_flatten all_map; apply: sub_all (all_predT _) => e1 _ /=.
rewrite all_map; apply: sub_all (all_predT _) => e2 _ /=.
by rewrite /row2 Hmk.
Qed.

Section MetaResult.

Variable calibrate_scattering_filters : int -> int -> result Meta.calibration.
Variables (J Q max_order : int) (c : Meta.calibration).

Hypothesis calibrated : calibrate_scattering_filters J Q = Ok c.
Hypothesis positive_order : (1 <= max_order)%R.

(* The rows of 'order' and 'key' that compute_meta_scattering returns. *)
Lemma compute_metaE :
  exists meta,
    [/\ compute_meta_scattering calibrate_scattering_filters J Q max_order
        = Ok meta,
        Meta.order meta
        = 0%R :: [seq 1%R | e1 <- entries1 c]
          ++ rows2 (fun o _ _ _ _ => o) max_order c (entries1 c)
      & Meta.key meta
        = [::] :: [seq [:: e1.1] | e1 <- entries1 c]
          ++ rows2 (fun _ _ _ _ ns => ns) max_order c (entries1 c)].
Proof.
rewrite /compute_meta_scattering calibrated /=.
rewrite (@concat3_outer _ Meta.l_xi (fun _ xs _ _ _ => xs)) //.
rewrite (@concat3_outer _ Meta.l_sigma (fun _ _ ss _ _ => ss)) //.
rewrite (@concat3_outer _ Meta.l_j (fun _ _ _ js _ => js)) //.
rewrite (@concat3_outer _ Meta.l_n (fun _ _ _ _ ns => ns)) //.
rewrite (@concat3_outer _ Meta.l_key (fun _ _ _ _ ns => ns)) //.
rewrite (@concat3_outer _ Meta.l_order (fun o _ _ _ _ => o)) //.
rewrite !to_tensor_padded /=; try by apply: rows_bounded => // o xs ss js ns.
by eexists; split; first by [].
Qed.

End MetaResult.

Section PathEnumeration.

Variable calibrate_scattering_filters : int -> int -> result Meta.calibration.
Variables (J Q : int) (c : Meta.calibration).

Hypothesis calibrated : calibrate_scattering_filters J Q = Ok c.
Hypothesis sequences_parallel : parallel c.

Lemma size_entries1 : size (entries1 c) = size (Meta.xi1s c).
Proof.
rewrite entries1E // size_map size_iota.
by case/and4P: sequences_parallel => _ /eqP.
Qed.

Lemma key_order1E :
  [seq [:: e1.1] | e1 <- entries1 c]
  = [seq [:: i] | i <- iota 0 (size (Meta.j1s c))].
Proof. by rewrite entries1E // -map_comp. Qed.

Lemma order2_pairs_uniq : uniq (order2_pairs c).
Proof.
rewrite filter_uniq // allpairs_uniq ?iota_uniq //.
by move=> [a b] [a' b'] _ _.
Qed.

Lemma mem_order2_pairs (n1 n2 : nat) :
  ((n1, n2) \in order2_pairs c)
  = [&& n1 < size (Meta.j1s c), n2 < size (Meta.j2s c)
      & (nth 0%R (Meta.j1s c) n1 < nth 0%R (Meta.j2s c) n2)%R].
Proof.
rewrite mem_filter /= andbC andbA; congr (_ && _).
apply/allpairsP/andP => [[[a b] /= [Ha Hb [-> ->]]]|[H1 H2]].
  by move: Ha Hb; rewrite !mem_iota !add0n.
by exists (n1, n2); rewrite /= !mem_iota !add0n.
Qed.

(* The 'key' list for max_order = 2: (), then (n1,), then the pairs. *)
Lemma key_max_order2 :
  exists meta,
    [/\ compute_meta_scattering calibrate_scattering_filters J Q 2 = Ok meta,
        size (Meta.order meta) = size (Meta.key meta)
      & Meta.key meta
        = [::] :: [seq [:: i] | i <- iota 0 (size (Meta.j1s c))]
          ++ [seq [:: p.1; p.2] | p <- order2_pairs c]].
Proof.
have [meta [Hmeta Horder Hkey]] :=
  @compute_metaE _ J Q 2 c calibrated (isT : (1 <= 2 :> int)%R).
exists meta; split => //.
  by rewrite Horder Hkey /= !size_cat !size_map !rows2E //= !size_map.
by rewrite Hkey rows2E //= key_order1E.
Qed.

End PathEnumeration.

(** C1: with the calibrated sequences of (J, Q) parallel, the order-2 keys
    (n1, n2) that compute_meta_scattering lists all have j2 > j1 strictly,
    every pair of a first-order filter n1 and a second-order filter n2 with
    j2 > j1 is listed exactly once, and precompute_size_scattering counts
    exactly these keys as its order-2 size. *)
Theorem order2_paths_exactly_later_scales
    (calibrate_scattering_filters : int -> int -> result Meta.calibration)
    (J Q : int) (c : Meta.calibration) :
  calibrate_scattering_filters J Q = Ok c ->
  parallel c ->
  exists meta size_order2,
    [/\ compute_meta_scattering calibrate_scattering_filters J Q 2 = Ok meta,
        precompute_size_scattering calibrate_scattering_filters J Q 2 true
        = Ok (Size.Detail [:: 1; size (Meta.xi1s c); size_order2]),
        forall n1 n2, [:: n1; n2] \in Meta.key meta ->
          [/\ n1 < size (Meta.j1s c), n2 < size (Meta.j2s c)
            & (nth 0 (Meta.j1s c) n1 < nth 0 (Meta.j2s c) n2)%R],
        forall n1 n2, n1 < size (Meta.j1s c) -> n2 < size (Meta.j2s c) ->
          (nth 0 (Meta.j1s c) n1 < nth 0 (Meta.j2s c) n2)%R ->
          count_mem [:: n1; n2] (Meta.key meta) = 1
      & size_order2 = count (fun k => size k == 2) (Meta.key meta)].
Proof.
move=> Hcal Hpar.
have [meta [Hmeta _ Hkey]] := key_max_order2 Hcal Hpar.
exists meta, (size (order2_pairs c)).
have Hin n1 n2 : ([:: n1; n2] \in Meta.key meta)
                 = ((n1, n2) \in order2_pairs c).
  rewrite Hkey in_cons /= mem_cat.
  have /negbTE -> : [:: n1; n2] \notin
                    [seq [:: i] | i <- iota 0 (size (Meta.j1s c))].
    by apply/mapP => -[i _].
  rewrite /=; apply/mapP/idP => [[[a b] Hp [-> ->]] //|Hp].
  by exists (n1, n2).
split=> //.
- by rewrite /precompute_size_scattering Hcal /= count_order2E.
- by move=> n1 n2; rewrite Hin mem_order2_pairs => /and3P [].
- move=> n1 n2 lt1 lt2 ltj; rewrite count_uniq_mem;
    last by rewrite Hin mem_order2_pairs lt1 lt2 ltj.
  rewrite Hkey /= cat_uniq !map_inj_uniq ?iota_uniq ?order2_pairs_uniq //.
  + by move=> a b [].
  + by move=> [a b] [a' b'] [-> ->].
  + rewrite /= !andbT mem_cat negb_or -andbA; apply/and3P; split.
    * by apply/mapP => -[].
    * by apply/mapP => -[].
    * by apply/hasPn => k /mapP [[a b] _ ->]; apply/mapP => -[].
- rewrite Hkey /= count_cat !count_map.
  rewrite -size_filter (@eq_in_filter _ _ pred0) //= ?filter_pred0 /=.
  by rewrite -size_filter (@eq_filter _ _ predT) //= filter_predT.
Qed.

Lemma order2_paths_exactly_later_scales_witness :
  sample_calibrate 2 1 = Ok sample_calibration /\
  parallel sample_calibration /\
  exists meta size_order2,
    [/\ compute_meta_scattering sample_calibrate 2 1 2 = Ok meta,
        precompute_size_scattering sample_calibrate 2 1 2 true
        = Ok (Size.Detail
                [:: 1; size (Meta.xi1s sample_calibration); size_order2]),
        forall n1 n2, [:: n1; n2] \in Meta.key meta ->
          [/\ n1 < size (Meta.j1s sample_calibration),
              n2 < size (Meta.j2s sample_calibration)
            & (nth 0 (Meta.j1s sample_calibration) n1
               < nth 0 (Meta.j2s sample_calibration) n2)%R],
        forall n1 n2,
          n1 < size (Meta.j1s sample_calibration) ->
          n2 < size (Meta.j2s sample_calibration) ->
          (nth 0 (Meta.j1s sample_calibration) n1
           < nth 0 (Meta.j2s sample_calibration) n2)%R ->
          count_mem [:: n1; n2] (Meta.key meta) = 1
      & size_order2 = count (fun k => size k == 2) (Meta.key meta)].
Proof.
split; first by reflexivity.
split; first by reflexivity.
apply: (@order2_paths_exactly_later_scales sample_calibrate 2 1
          sample_calibration); reflexivity.
Defined.

(** C4: for max_order in {1, 2} and parallel calibrated sequences, the
    per-order counts of precompute_size_scattering (detail = True) sum to
    the aggregate count (detail = False), and that aggregate is the number
    of paths compute_meta_scattering lists, the common length of its
    'order' and 'key' lists. *)
Theorem detailed_sizes_sum_to_total_path_count
    (calibrate_scattering_filters : int -> int -> result Meta.calibration)
    (J Q max_order : int) (c : Meta.calibration) :
  calibrate_scattering_filters J Q = Ok c ->
  parallel c ->
  (max_order == 1) || (max_order == 2) ->
  exists cs total meta,
    [/\ precompute_size_scattering calibrate_scattering_filters
          J Q max_order true = Ok (Size.Detail cs),
        precompute_size_scattering calibrate_scattering_filters
          J Q max_order false = Ok (Size.Total total),
        sumn cs = total,
        compute_meta_scattering calibrate_scattering_filters J Q max_order
        = Ok meta
      & size (Meta.order meta) = total /\ size (Meta.key meta) = total].
Proof.
move=> Hcal Hpar Hmo.
have le1 : (1 <= max_order)%R by case/orP: Hmo => /eqP ->.
have [meta [Hmeta Horder Hkey]] := compute_metaE Hcal le1.
rewrite /precompute_size_scattering Hcal /= count_order2E //=.
have Hsz := size_entries1 Hpar.
case/orP: Hmo Hmeta Horder Hkey => /eqP -> Hmeta Horder Hkey /=.
- exists [:: 1; size (Meta.xi1s c)], (1 + size (Meta.xi1s c)), meta.
  split=> //=; first by rewrite addn0.
  by rewrite Horder Hkey /rows2 /= !cats0 !size_map Hsz.
- exists [:: 1; size (Meta.xi1s c); size (order2_pairs c)],
         (1 + size (Meta.xi1s c) + size (order2_pairs c)), meta.
  split=> //=; first by rewrite addn0 !addnA.
  by rewrite Horder Hkey !rows2E //= !size_cat !size_map Hsz -addnA add1n.
Qed.

Lemma detailed_sizes_sum_to_total_path_count_witness :
  sample_calibrate 2 1 = Ok sample_calibration /\
  parallel sample_calibration /\
  ((2 : int) == 1) || ((2 : int) == 2) /\
  exists cs total meta,
    [/\ precompute_size_scattering sample_calibrate 2 1 2 true
        = Ok (Size.Detail cs),
        precompute_size_scattering sample_calibrate 2 1 2 false
        = Ok (Size.Total total),
        sumn cs = total,
        compute_meta_scattering sample_calibrate 2 1 2 = Ok meta
      & size (Meta.order meta) = total /\ size (Meta.key meta) = total].
Proof.
split; first by reflexivity.
split; first by reflexivity.
split; first by reflexivity.
apply: (@detailed_sizes_sum_to_total_path_count sample_calibrate 2 1 2
          sample_calibration); reflexivity.
Defined.

(* --------------------------------------------------------------------- *)
(* Attributes and statements                                             *)
(* --------------------------------------------------------------------- *)

Lemma string_eqbE (s t : string) : String.eqb s t = (s == t).
Proof. by []. Qed.

Lemma lookup_insert (V : Type) (k k' : string) (v : V) d :
  lookup String.eqb k (insert String.eqb k' v d)
  = if k == k' then Some v else lookup String.eqb k d.
Proof.
elim: d => [|[k0 v0] d IH] /=; rewrite !string_eqbE //.
case: (k' =P k0) => [<-|ne0] /=; rewrite !string_eqbE.
  by case: (k == k').
rewrite IH; case: (k =P k0) => [->|//].
by case: (k0 =P k') => // e; case: ne0.
Qed.

(* A statement that cannot return makes the sequence it starts or ends
   unable to return. *)
Lemma never_ok_bind_l (A B : Type) (m : act A) (k : A -> act B) w :
  ~~ is_ok (m w).1 -> ~~ is_ok (abind m k w).1.
Proof. by rewrite /abind; case: (m w) => [[a|e] w']. Qed.

Lemma never_ok_bind_r (A B : Type) (m : act A) (k : A -> act B) w :
  (forall a w', ~~ is_ok (k a w').1) -> ~~ is_ok (abind m k w).1.
Proof. by move=> Hk; rewrite /abind; case: (m w) => [[a|e] w']. Qed.

Lemma load_unbound (name : string) w :
  (name \in module_globals) || (name \in builtins) = false ->
  load_global name w = (Raise (NameError name), w).
Proof. by rewrite /load_global => ->. Qed.

Lemma bind_returns (A B : Type) (m : act A) (k : A -> act B) w a w1 :
  m w = (Ok a, w1) -> abind m k w = k a w1.
Proof. by rewrite /abind => ->. Qed.

Lemma bind_raises (A B : Type) (m : act A) (k : A -> act B) w e w1 :
  m w = (Raise e, w1) -> abind m k w = (Raise e, w1).
Proof. by rewrite /abind => ->. Qed.

Lemma getattr_attribute (name : string) (v : value) w :
  lookup String.eqb name (attrs w) = Some v -> getattr name w = (Ok v, w).
Proof. by rewrite /getattr => ->. Qed.

Lemma exec_getattr (B : Type) (name : string) (v : value)
    (k : value -> act B) w :
  lookup String.eqb name (attrs w) = Some v ->
  abind (getattr name) k w = k v w.
Proof. by move=> H; rewrite (bind_returns _ (getattr_attribute H)). Qed.

Lemma frame_refl names w : frame names w w.
Proof. by split. Qed.

Lemma frame_trans names1 names2 w1 w2 w3 :
  frame names1 w1 w2 -> frame names2 w2 w3 -> frame (names1 ++ names2) w1 w3.
Proof.
move=> [Hc1 Hb1 Ha1] [Hc2 Hb2 Ha2]; split; rewrite ?Hc2 ?Hb2 //.
move=> name; rewrite mem_cat negb_or => /andP [H1 H2].
by rewrite Ha2 // Ha1.
Qed.

Lemma frame_sub names1 names2 w w' :
  {subset names1 <= names2} -> frame names1 w w' -> frame names2 w w'.
Proof.
move=> Hsub [Hc Hb Ha]; split=> // name Hn; apply: Ha.
by apply: contra Hn; apply: Hsub.
Qed.

Lemma setattr_frame (name : string) (v : value) w :
  (setattr name v w).1 = Ok tt /\ frame [:: name] w (setattr name v w).2.
Proof.
split=> //; split=> //= nm; rewrite inE lookup_insert.
by case: (nm == name).
Qed.

Section Construction.

Variable base_init : act unit.
Variable import_torch_backend : result value.
Variable extern : string -> seq value -> act value.

Lemma plan_padding_raises w :
  plan_padding extern w
  = (Raise (NameError "compute_minimum_support_to_pad"), w).
Proof.
rewrite /plan_padding.
by rewrite (bind_raises _ (@load_unbound "compute_minimum_support_to_pad" w _)).
Qed.

Lemma build_never_returns w :
  ~~ is_ok (build import_torch_backend extern w).1.
Proof.
rewrite /build.
do 3![apply: never_ok_bind_r => ? {}w].
by apply: never_ok_bind_l; rewrite plan_padding_raises.
Qed.

Lemma init_never_returns J shape Q max_order average oversampling vectorize
    backend w :
  ~~ is_ok (init base_init import_torch_backend extern J shape Q max_order
              average oversampling vectorize backend w).1.
Proof.
rewrite /init.
do 9![apply: never_ok_bind_r => ? {}w].
exact: build_never_returns.
Qed.

Lemma select_backend_returns backend m w :
  lookup String.eqb "backend"%string (attrs w) = Some backend ->
  import_torch_backend = Ok m ->
  backend_accepted backend ->
  exists2 w', select_backend import_torch_backend w = (Ok tt, w')
            & frame [:: "backend"%string] w w'.
Proof.
move=> Hb Himp; rewrite /backend_accepted /select_backend (exec_getattr _ Hb).
case Ht: (truthy backend); rewrite /=; last move=> _.
  case: backend Hb Ht => // name Hb _ /eqP Hname.
  rewrite (exec_getattr _ Hb) /abind /= Hname /=.
  by exists w => //; exact: frame_refl.
rewrite Himp /abind /=; eexists; first by [].
by have [] := setattr_frame "backend" m w.
Qed.

Lemma set_defaults_returns w :
  exists2 w', set_defaults w = (Ok tt, w')
            & frame [:: "r_psi"; "sigma0"; "alpha"; "P_max"; "eps";
                        "criterion_amplitude"; "normalize"]%string w w'.
Proof.
rewrite /set_defaults /abind /=; eexists; first by [].
split=> //= nm; rewrite !inE !negb_or !lookup_insert.
by do 6![case/andP => /negbTE ->] => /negbTE ->.
Qed.

Lemma check_shape_returns shape w :
  lookup String.eqb "shape"%string (attrs w) = Some shape ->
  shape_accepted shape ->
  exists2 w', check_shape w = (Ok tt, w') & frame [:: "T"%string] w w'.
Proof.
move=> Hs; rewrite /shape_accepted /check_shape (exec_getattr _ Hs).
case Hi: (is_integral shape); rewrite /=; first move=> _.
  rewrite (exec_getattr _ Hs); eexists; first by [].
  by have [] := setattr_frame "T" shape w.
case: shape Hs Hi => // [[|a [|? ?]]] // Hs _ _.
rewrite /abind /=; eexists; first by [].
by have [] := setattr_frame "T" a w.
Qed.

End Construction.

Section ValidConstruction.

Variable base_init : act unit.
Variable import_torch_backend : result value.
Variable extern : string -> seq value -> act value.

Lemma build_valid_arguments backend shape m w :
  lookup String.eqb "backend"%string (attrs w) = Some backend ->
  lookup String.eqb "shape"%string (attrs w) = Some shape ->
  import_torch_backend = Ok m ->
  backend_accepted backend ->
  shape_accepted shape ->
  exists2 w',
    build import_torch_backend extern w
    = (Raise (NameError "compute_minimum_support_to_pad"), w')
    & frame [:: "backend"; "r_psi"; "sigma0"; "alpha"; "P_max"; "eps";
                "criterion_amplitude"; "normalize"; "T"]%string w w'.
Proof.
move=> Hb Hs Himp Hba Hsa; rewrite /build.
have [w1 E1 F1] := select_backend_returns Hb Himp Hba.
have [w2 E2 F2] := set_defaults_returns w1.
have Hs2 : lookup String.eqb "shape"%string (attrs w2) = Some shape.
  by case: F2 => _ _ ->; rewrite //; case: F1 => _ _ ->.
have [w3 E3 F3] := check_shape_returns Hs2 Hsa.
rewrite (bind_returns _ E1) (bind_returns _ E2) (bind_returns _ E3).
rewrite (bind_raises _ (plan_padding_raises extern w3)).
exists w3 => //.
exact: frame_trans (frame_trans F1 F2) F3.
Qed.

Lemma init_valid_arguments J shape Q max_order average oversampling
    vectorize backend w w1 m :
  base_init w = (Ok tt, w1) ->
  import_torch_backend = Ok m ->
  backend_accepted backend ->
  shape_accepted shape ->
  stops_at_line_218 w1
    (init base_init import_torch_backend extern J shape Q max_order
       average oversampling vectorize backend w).
Proof.
move=> Hbase Himp Hba Hsa; rewrite /init (bind_returns _ Hbase).
set w2 := {| attrs :=
               insert String.eqb "backend"%string backend
                 (insert String.eqb "vectorize"%string vectorize
                 (insert String.eqb "oversampling"%string oversampling
                 (insert String.eqb "average"%string average
                 (insert String.eqb "max_order"%string max_order
                 (insert String.eqb "Q"%string Q
                 (insert String.eqb "shape"%string shape
                 (insert String.eqb "J"%string J (attrs w1))))))));
             buffers := buffers w1; calls := calls w1 |}.
have -> : forall b : act unit,
    (setattr "J" J ;;~ setattr "shape" shape ;;~ setattr "Q" Q ;;~
     setattr "max_order" max_order ;;~ setattr "average" average ;;~
     setattr "oversampling" oversampling ;;~
     setattr "vectorize" vectorize ;;~ setattr "backend" backend ;;~
     b) w1 = b w2 by [].
have Hb : lookup String.eqb "backend"%string (attrs w2) = Some backend.
  by rewrite /= !lookup_insert.
have Hs : lookup String.eqb "shape"%string (attrs w2) = Some shape.
  by rewrite /= !lookup_insert.
have [w' -> [Hc Hbuf Ha]] := build_valid_arguments Hb Hs Himp Hba Hsa.
split=> //= name Hin; rewrite Ha.
  by move: Hin; rewrite !inE; do 7?[case/orP]; move/eqP->.
rewrite /= !lookup_insert.
by move: Hin; rewrite !inE; do 7?[case/orP]; move/eqP->.
Qed.

End ValidConstruction.

(** C2: constructing a Scattering1DTorch object never completes, whatever
    the arguments; when the arguments pass the checks of build (a backend
    that is None or named 'torch...', a shape that is an int or a 1-tuple),
    the exception is the NameError raised at line 218 for the bare name
    compute_minimum_support_to_pad, which is bound in the class body only,
    and at that point no function of another module has been entered and
    no attribute of the padding plan or of the filter bank exists. *)
Theorem construction_never_completes
    (base_init : act unit) (import_torch_backend : result value)
    (extern : string -> seq value -> act value)
    (J shape Q max_order average oversampling vectorize backend : value)
    (w : world) :
  ("compute_minimum_support_to_pad"%string \in class_attributes) /\
  ("compute_minimum_support_to_pad"%string \notin module_globals) /\
  ~~ is_ok (init base_init import_torch_backend extern J shape Q max_order
              average oversampling vectorize backend w).1 /\
  (forall w1 m,
     base_init w = (Ok tt, w1) ->
     import_torch_backend = Ok m ->
     backend_accepted backend ->
     shape_accepted shape ->
     stops_at_line_218 w1
       (init base_init import_torch_backend extern J shape Q max_order
          average oversampling vectorize backend w)).
Proof.
split; first by [].
split; first by [].
split; first exact: init_never_returns.
by move=> w1 m; exact: init_valid_arguments.
Qed.

Lemma construction_never_completes_witness :
  sample_base_init fresh_world = (Ok tt, fresh_world) /\
  sample_backend = Ok (VModule "torch") /\
  backend_accepted VNone /\
  shape_accepted (VInt 8192) /\
  stops_at_line_218 fresh_world
    (init sample_base_init sample_backend sample_extern
       (VInt 6) (VInt 8192) (VInt 8) (VInt 2) (VBool true) (VInt 0)
       (VBool true) VNone fresh_world).
Proof.
split; first by reflexivity.
split; first by reflexivity.
split; first by reflexivity.
split; first by reflexivity.
apply: (proj2 (proj2 (proj2
  (construction_never_completes sample_base_init sample_backend
     sample_extern (VInt 6) (VInt 8192) (VInt 8) (VInt 2) (VBool true)
     (VInt 0) (VBool true) VNone fresh_world))) fresh_world
  (VModule "torch")); reflexivity.
Defined.

(** C7: at the constructor arguments J = 6, shape = 8192, Q = 8 (the
    defaults for the rest) build raises the NameError of line 218 before it
    computes min_to_pad: J_pad is never set and neither numpy nor the
    filter factory is entered. The minimum pad of 3 * t_max_phi and the
    J_pad formula of lines 225-227 are never evaluated. *)
Theorem build_stops_before_padding_plan
    (extern : string -> seq value -> act value) :
  let r := init sample_base_init sample_backend extern
             (VInt 6) (VInt 8192) (VInt 8) (VInt 2) (VBool true) (VInt 0)
             (VBool true) VNone fresh_world in
  [/\ r.1 = Raise (NameError "compute_minimum_support_to_pad"),
      lookup String.eqb "J_pad"%string (attrs r.2) = None,
      lookup String.eqb "T"%string (attrs r.2) = Some (VInt 8192)
    & calls r.2 = [::]].
Proof.
by split.
Qed.

Section Masking.

Variable base_init : act unit.
Variable import_torch_backend : result value.
Variable extern : string -> seq value -> act value.
Variable import_frontend : string -> result unit.
Variable numpy_init : seq value -> seq (string * value) -> act unit.
Variable tensorflow_init : seq value -> seq (string * value) -> act unit.

Lemma torch_init_never_returns args kwargs w :
  ~~ is_ok (torch_init base_init import_torch_backend extern args kwargs w).1.
Proof.
rewrite /torch_init; apply: never_ok_bind_r => vs {}w.
case: vs => [|? [|? [|? [|? [|? [|? [|? [|? [|? ?]]]]]]]]] //.
exact: init_never_returns.
Qed.

Lemma try_except_never_returns (A : Type) (body : act A) (e : exn) w :
  ~~ is_ok (body w).1 ->
  exists w', try_except body (fun _ => raise e) w = (Raise e, w').
Proof.
by rewrite /try_except; case: (body w) => [[a|e'] w'] //= _; exists w'.
Qed.

Lemma bare_except_masks (body : act unit) (msg : string) w :
  returns_or_runtime_error
    ((try_except body (fun _ => raise (RuntimeError msg)) ;;~
      log_call "logging.info") w).1.
Proof. by rewrite /abind /try_except; case: (body w) => [[a|e] w']. Qed.

Lemma scattering1d_init_masks args kwargs w :
  returns_or_runtime_error
    (scattering1d_init base_init import_torch_backend extern
       import_frontend numpy_init tensorflow_init args kwargs w).1.
Proof.
rewrite /scattering1d_init.
by do 3![case: ifP => _; first exact: bare_except_masks].
Qed.

Lemma scattering1d_init_torch args kwargs w :
  lookup String.eqb "frontend"%string kwargs = Some (VStr "torch") ->
  (scattering1d_init base_init import_torch_backend extern
     import_frontend numpy_init tensorflow_init args kwargs w).1
  = Raise (RuntimeError "Make sure PyTorch is correctly installed.").
Proof.
move=> Hf; rewrite /scattering1d_init Hf /=.
set body := (X in try_except X _).
have Hbody : ~~ is_ok (body w).1.
  rewrite /body; do 2![apply: never_ok_bind_r => ? ?].
  exact: torch_init_never_returns.
have [w' E] := try_except_never_returns
  (RuntimeError "Make sure PyTorch is correctly installed.") Hbody.
by rewrite (bind_raises _ E).
Qed.

End Masking.

(** C6: Scattering1D(6, (8192, 2), frontend='torch') passes an invalid
    shape. The torch constructor raises the ValueError that names it, and
    the bare `except:` of lines 26-27 replaces it by
    RuntimeError('Make sure PyTorch is correctly installed.'). The same
    happens to the error of any front-end constructor: whatever the
    arguments, only a RuntimeError leaves Scattering1D.__init__. *)
Theorem invalid_configuration_is_masked
    (base_init : act unit) (import_torch_backend : result value)
    (extern : string -> seq value -> act value)
    (import_frontend : string -> result unit)
    (numpy_init tensorflow_init : seq value -> seq (string * value) ->
                                  act unit)
    (w : world) :
  let args := [:: VInt 6; VTuple [:: VInt 8192; VInt 2]] in
  [/\ (torch_init sample_base_init sample_backend sample_extern args [::]
         fresh_world).1
      = Raise (ValueError
          "If shape is specified as a tuple, it must have exactly one element"),
      (scattering1d_init base_init import_torch_backend extern
         import_frontend numpy_init tensorflow_init args
         [:: ("frontend"%string, VStr "torch")] w).1
      = Raise (RuntimeError "Make sure PyTorch is correctly installed."),
      (scattering1d_init base_init import_torch_backend extern
         sample_import refusing_init tensorflow_init
         [:: VInt 6; VInt 8192; VInt 0] [::] w).1
      = Raise (RuntimeError "Make sure NumPy is correctly installed.")
    & forall args kwargs,
        returns_or_runtime_error
          (scattering1d_init base_init import_torch_backend extern
             import_frontend numpy_init tensorflow_init args kwargs w).1].
Proof.
split=> //; first exact: scattering1d_init_torch.
move=> args kwargs; exact: scattering1d_init_masks.
Qed.

Section ForwardChecks.

Variable extern : string -> seq value -> act value.
Variable calibrate_scattering_filters : int -> int -> result Meta.calibration.
Variable reshape : Tensor.t -> seq int -> result Tensor.t.

Lemma check_input_world x w : (check_input reshape x w).2 = w.
Proof.
rewrite /check_input /abind /lift /=.
by case: ifP => _ //=; case: (reshape _ _).
Qed.

Lemma check_input_returns x x' w :
  0 < size (Tensor.shape x) ->
  reshape x ([:: Negz 0; Posz 1]
             ++ [seq Posz d
                | d <- drop (size (Tensor.shape x)).-1 (Tensor.shape x)])
  = Ok x' ->
  check_input reshape x w
  = (Ok (take (size (Tensor.shape x)).-1 (Tensor.shape x), x'), w).
Proof.
move=> Hsz Hre; rewrite /check_input /abind /lift /=.
by rewrite ltnNge Hsz /= Hre.
Qed.

Lemma treat_arguments_refuses vectorize average w :
  lookup String.eqb "vectorize"%string (attrs w) = Some vectorize ->
  truthy vectorize ->
  lookup String.eqb "average"%string (attrs w) = Some average ->
  ~~ truthy average ->
  treat_arguments calibrate_scattering_filters w
  = (Raise incompatible_options, w).
Proof.
move=> Hv Tv Ha Ta.
by rewrite /treat_arguments (exec_getattr _ Hv) Tv (exec_getattr _ Ha) Ta.
Qed.

End ForwardChecks.

(** C3 (as stated, refuted): `torch.zeros(0)` has one axis. On the
    registered object with vectorize = True and average = False, forward
    raises on it the RuntimeError of the reshape of line 351, not the
    ValueError of lines 357-359: the input is reshaped before the options
    are looked at. *)
Lemma forward_reshapes_before_option_check :
  [/\ 0 < size (Tensor.shape empty_input),
      lookup String.eqb "vectorize"%string
        (attrs (registered_world false true)) = Some (VBool true),
      lookup String.eqb "average"%string
        (attrs (registered_world false true)) = Some (VBool false),
      forward sample_extern sample_calibrate torch_reshape empty_input
        (registered_world false true)
      = (Raise (RuntimeError
           ("cannot reshape tensor of 0 elements: the unspecified "
            ++ "dimension size -1 can be any value and is ambiguous")),
         registered_world false true)
    & (forward sample_extern sample_calibrate torch_reshape empty_input
         (registered_world false true)).1
      <> Raise incompatible_options].
Proof. by split; vm_compute. Qed.

(** C3 (amended): on an object whose vectorize flag is true and whose
    average flag is false, and an input with at least one axis whose
    reshape at line 351 returns, forward raises the ValueError of lines
    357-359 and leaves the object as it found it: neither flag is
    rewritten, no buffer is restored and scattering1d is not entered.
    When the reshape raises, forward raises what the reshape raised, on
    an object left as it was. *)
Theorem vectorize_without_average_is_refused
    (extern : string -> seq value -> act value)
    (calibrate_scattering_filters : int -> int -> result Meta.calibration)
    (reshape : Tensor.t -> seq int -> result Tensor.t)
    (x : Tensor.t) (vectorize average : value) (w : world) :
  0 < size (Tensor.shape x) ->
  lookup String.eqb "vectorize"%string (attrs w) = Some vectorize ->
  truthy vectorize ->
  lookup String.eqb "average"%string (attrs w) = Some average ->
  ~~ truthy average ->
  let reshaped :=
    reshape x ([:: Negz 0; Posz 1]
               ++ [seq Posz d
                  | d <- drop (size (Tensor.shape x)).-1 (Tensor.shape x)]) in
  [/\ forall x',
        reshaped = Ok x' ->
        forward extern calibrate_scattering_filters reshape x w
        = (Raise incompatible_options, w)
    & forall e,
        reshaped = Raise e ->
        forward extern calibrate_scattering_filters reshape x w
        = (Raise e, w)].
Proof.
move=> Hsz Hv Tv Ha Ta /=; split=> [x' Hre|e Hre]; rewrite /forward.
  rewrite (bind_returns _ (check_input_returns w Hsz Hre)).
  by rewrite (bind_raises _
               (treat_arguments_refuses calibrate_scattering_filters
                  Hv Tv Ha Ta)).
have Hc : check_input reshape x w = (Raise e, w).
  by rewrite /check_input /abind /lift /= ltnNge Hsz /= Hre.
by rewrite (bind_raises _ Hc).
Qed.

Section Restoring.

Variable buffer_dict : seq (string * value).

Lemma buffer_getitem_present n :
  isSome (lookup String.eqb (tensor_name n) buffer_dict) ->
  exists v, buffer_getitem buffer_dict n = Ok v.
Proof.
by rewrite /buffer_getitem; case: (lookup _ _ _) => // v _; exists v.
Qed.

Lemma restore_phi_loop ks n d w :
  lookup String.eqb "phi_f"%string (attrs w) = Some (VDict d) ->
  (forall i, i < count not_str ks ->
     isSome (lookup String.eqb (tensor_name (n + i)) buffer_dict)) ->
  exists2 w',
    afor ks (restore_phi_key buffer_dict) n w
    = (Ok (n + count not_str ks), w')
    & frame [:: "phi_f"%string] w w'.
Proof.
elim: ks n d w => [|k ks IH] n d w Hphi Hbuf /=.
  by exists w; rewrite ?addn0 //; exact: frame_refl.
rewrite /restore_phi_key; case Hk: (not_str k); last first.
  rewrite /abind /ret /= add0n; apply: (IH _ d) => // i Hi.
  by apply: Hbuf; rewrite /= Hk add0n.
have [v Hv] : exists v, buffer_getitem buffer_dict n = Ok v.
  apply: buffer_getitem_present.
  by have := Hbuf 0; rewrite addn0 /= Hk; apply.
rewrite /abind /lift Hv /= (getattr_attribute Hphi) /=.
set w1 := World _ _ _.
have Hphi1 : lookup String.eqb "phi_f"%string (attrs w1)
             = Some (VDict (insert key_eqb k v d)).
  by rewrite /= lookup_insert.
have [i Hi|w' E F] := IH n.+1 _ w1 Hphi1.
  by have := Hbuf i.+1; rewrite /= Hk addnS addSn; apply.
exists w'; first by rewrite E /= add1n addSn addnS.
have F1 : frame [:: "phi_f"%string] w w1.
  by have [] := setattr_frame "phi_f" (VDict (insert key_eqb k v d)) w.
by apply: frame_sub (frame_trans F1 F) => s; rewrite !inE orbb.
Qed.

Lemma restore_psi1_keys ks n w :
  isSome (lookup String.eqb (tensor_name n) buffer_dict) ->
  lookup String.eqb "psi_f"%string (attrs w) = None ->
  lookup String.eqb "psi_f"%string (buffers w) = None ->
  afor ks (restore_psi1_key buffer_dict) n w
  = if has not_str ks then (Raise (AttributeError "psi_f"), w)
    else (Ok n, w).
Proof.
move=> Hbuf Ha Hb; elim: ks => [|k ks IH] //=.
rewrite /restore_psi1_key; case Hk: (not_str k) => /=.
  have [v Hv] := buffer_getitem_present Hbuf.
  by rewrite /abind /lift Hv /= /getattr Ha Hb.
by rewrite /abind /ret /= IH.
Qed.

Lemma restore_psi1_loop (psi1 : seq (seq (key * value))) n w :
  isSome (lookup String.eqb (tensor_name n) buffer_dict) ->
  lookup String.eqb "psi_f"%string (attrs w) = None ->
  lookup String.eqb "psi_f"%string (buffers w) = None ->
  afor [seq VDict d | d <- psi1]
    (fun n psi_f =>
       ks <~ lift (dict_keys psi_f) ;;
       afor ks (restore_psi1_key buffer_dict) n)
    n w
  = if has (fun d => has not_str (keys d)) psi1
    then (Raise (AttributeError "psi_f"), w)
    else (Ok n, w).
Proof.
move=> Hbuf Ha Hb; elim: psi1 => [|d psi1 IH] //=.
have E : (ks <~ lift (dict_keys (VDict d)) ;;
          afor ks (restore_psi1_key buffer_dict) n) w
         = if has not_str (keys d) then (Raise (AttributeError "psi_f"), w)
           else (Ok n, w).
  by rewrite -(@restore_psi1_keys (keys d) n w Hbuf Ha Hb).
case: (has not_str (keys d)) E => E /=.
  by rewrite (bind_raises _ E).
by rewrite (bind_returns _ E) IH.
Qed.

End Restoring.

Lemma quiet_ret (A : Type) (a : A) : quiet (ret a).
Proof. by []. Qed.

Lemma quiet_raise (A : Type) (e : exn) : quiet (raise e : act A).
Proof. by []. Qed.

Lemma quiet_lift (A : Type) (r : result A) : quiet (lift r).
Proof. by []. Qed.

Lemma quiet_getattr (name : string) : quiet (getattr name).
Proof.
by move=> w; rewrite /getattr; do 2![case: (lookup _ _ _) => //].
Qed.

Lemma quiet_setattr (name : string) (v : value) : quiet (setattr name v).
Proof. by []. Qed.

Lemma quiet_load_global (name : string) : quiet (load_global name).
Proof. by move=> w; rewrite /load_global; case: ifP. Qed.

Lemma quiet_bind (A B : Type) (m : act A) (k : A -> act B) :
  quiet m -> (forall a, quiet (k a)) -> quiet (abind m k).
Proof.
move=> Hm Hk w; rewrite /abind; case E: (m w) => [[a|e] w'] /=.
  by rewrite Hk -(Hm w) E.
by rewrite -(Hm w) E.
Qed.

Lemma quiet_afor (A S : Type) (xs : seq A) (body : S -> A -> act S) s :
  (forall s' x, quiet (body s' x)) -> quiet (afor xs body s).
Proof.
move=> Hbody; elim: xs s => [|x xs IH] s //=.
by apply: quiet_bind => // s'; exact: IH.
Qed.

Ltac quiet_step :=
  match goal with
  | |- quiet (ret _) => exact: quiet_ret
  | |- quiet (raise _) => exact: quiet_raise
  | |- quiet (lift _) => exact: quiet_lift
  | |- quiet (getattr _) => exact: quiet_getattr
  | |- quiet (setattr _ _) => exact: quiet_setattr
  | |- quiet (load_global _) => exact: quiet_load_global
  | |- quiet (abind _ _) => apply: quiet_bind; [|move=> ?]
  | |- quiet (afor _ _ _) => apply: quiet_afor => ? ?
  | |- quiet (if ?b then _ else _) => case: b
  end.

Section ForwardNeverCalls.

Variable extern : string -> seq value -> act value.
Variable calibrate_scattering_filters : int -> int -> result Meta.calibration.
Variable reshape : Tensor.t -> seq int -> result Tensor.t.

Lemma cascade_raises x batch_shape size_scattering w :
  cascade extern x batch_shape size_scattering w
  = (Raise (NameError "pad"), w).
Proof.
rewrite /cascade.
have E : load_global "scattering1d" w = (Ok (VFunction "scattering1d"), w).
  by [].
rewrite (bind_returns _ E).
by rewrite (bind_raises _ (@load_unbound "pad" w _)).
Qed.

Lemma quiet_restore_phi bd n : quiet (restore_phi bd n).
Proof. by rewrite /restore_phi /restore_phi_key; do ![quiet_step]. Qed.

Lemma quiet_restore_psi1 bd n : quiet (restore_psi1 bd n).
Proof. by rewrite /restore_psi1 /restore_psi1_key; do ![quiet_step]. Qed.

Lemma quiet_restore_psi2 bd n : quiet (restore_psi2 bd n).
Proof. by rewrite /restore_psi2 /restore_psi2_key; do ![quiet_step]. Qed.

Lemma quiet_forward x :
  quiet (forward extern calibrate_scattering_filters reshape x).
Proof.
rewrite /forward; apply: quiet_bind => [|checked].
  by rewrite /check_input; do ![quiet_step].
apply: quiet_bind => [|size_scattering].
  by rewrite /treat_arguments; do ![quiet_step].
apply: quiet_bind => [|bd]; first by [].
apply: quiet_bind => [|n1]; first exact: quiet_restore_phi.
apply: quiet_bind => [|n2]; first exact: quiet_restore_psi1.
apply: quiet_bind => [|n3]; first exact: quiet_restore_psi2.
by move=> w; rewrite cascade_raises.
Qed.

Lemma forward_never_returns x w :
  ~~ is_ok (forward extern calibrate_scattering_filters reshape x w).1.
Proof.
rewrite /forward; do 6![apply: never_ok_bind_r => ? {}w].
by rewrite cascade_raises.
Qed.

End ForwardNeverCalls.

Lemma readonly_ret (A : Type) (a : A) : readonly (ret a).
Proof. by []. Qed.

Lemma readonly_raise (A : Type) (e : exn) : readonly (raise e : act A).
Proof. by []. Qed.

Lemma readonly_lift (A : Type) (r : result A) : readonly (lift r).
Proof. by []. Qed.

Lemma readonly_getattr (name : string) : readonly (getattr name).
Proof.
by move=> w; rewrite /getattr; do 2![case: (lookup _ _ _) => //].
Qed.

Lemma readonly_bind (A B : Type) (m : act A) (k : A -> act B) :
  readonly m -> (forall a, readonly (k a)) -> readonly (abind m k).
Proof.
move=> Hm Hk w; rewrite /abind; case E: (m w) => [[a|e] w'] /=.
  by rewrite Hk -(Hm w) E.
by rewrite -(Hm w) E.
Qed.

Ltac readonly_step :=
  match goal with
  | |- readonly (ret _) => exact: readonly_ret
  | |- readonly (raise _) => exact: readonly_raise
  | |- readonly (lift _) => exact: readonly_lift
  | |- readonly (getattr _) => exact: readonly_getattr
  | |- readonly (abind _ _) => apply: readonly_bind; [|move=> ?]
  | |- readonly (if ?b then _ else _) => case: b
  end.

Section ForwardRestoring.

Variable extern : string -> seq value -> act value.
Variable calibrate_scattering_filters : int -> int -> result Meta.calibration.
Variable reshape : Tensor.t -> seq int -> result Tensor.t.

Lemma treat_arguments_world w :
  (treat_arguments calibrate_scattering_filters w).2 = w.
Proof.
have : readonly (treat_arguments calibrate_scattering_filters).
  by rewrite /treat_arguments; do ![readonly_step].
exact.
Qed.

Lemma restore_phi_returns w phi psi1 :
  restorable w phi psi1 ->
  exists2 w',
    restore_phi (buffers w) 0 w = (Ok (count not_str (keys phi)), w')
    & frame [:: "phi_f"%string] w w'.
Proof.
move=> R; rewrite /restore_phi (exec_getattr _ (has_phi_f R)).
rewrite /abind /lift /=.
have [i Hi|w' E F] :=
  @restore_phi_loop (buffers w) (keys phi) 0 phi w (has_phi_f R).
  by rewrite add0n; apply: (has_buffers R); exact: ltnW.
by exists w'; rewrite ?E.
Qed.

Lemma forward_restorable x w phi psi1 :
  is_ok (check_input reshape x w).1 ->
  is_ok (treat_arguments calibrate_scattering_filters w).1 ->
  restorable w phi psi1 ->
  (forward extern calibrate_scattering_filters reshape x w).1
  = Raise (AttributeError "psi_f").
Proof.
move=> Hc Ht R; rewrite /forward.
have Hcw := check_input_world reshape x w.
case Ec: (check_input reshape x w) Hc Hcw => [[checked|//] w0] /= _ Hcw.
rewrite (bind_returns _ Ec) {w0 Ec}Hcw.
have Htw := treat_arguments_world w.
case Et: (treat_arguments _ w) Ht Htw => [[ss|//] w0] /= _ Htw.
rewrite (bind_returns _ Et) {w0 Et}Htw.
have -> : forall k : seq (string * value) -> act value,
    abind named_buffers k w = k (buffers w) w by [].
have [w' E [Hcalls Hbuf Hattr]] := restore_phi_returns R.
rewrite (bind_returns _ E).
have E1 : restore_psi1 (buffers w) (count not_str (keys phi)) w'
          = (Raise (AttributeError "psi_f"), w').
  rewrite /restore_psi1 (@exec_getattr _ "psi1_f"
            (VList [seq VDict d | d <- psi1]));
    first by rewrite Hattr // (has_psi1_f R).
  rewrite /abind /lift /= restore_psi1_loop ?(has_resolution_key R) //.
  - by apply: (has_buffers R).
  - by rewrite Hattr // (no_psi_f_attribute R).
  - by rewrite Hbuf (no_psi_f_buffer R).
by rewrite (bind_raises _ E1).
Qed.

End ForwardRestoring.

Lemma registered_world_restorable average vectorize :
  restorable (registered_world average vectorize)
    registered_phi registered_psi1.
Proof.
split=> //.
by case=> [|[|[|n]]].
Qed.

(** C9 (as stated, refuted): the object that create_and_register_filters
    leaves with vectorize = True and average = False has resolution keys
    in psi1_f, and forward on it raises the ValueError of lines 357-359,
    not an AttributeError: the check of the options comes before the
    restoring loops. *)
Lemma forward_refuses_before_restoring :
  restorable (registered_world false true) registered_phi registered_psi1 /\
  (forward sample_extern sample_calibrate sample_reshape sample_input
     (registered_world false true)).1
  = Raise incompatible_options /\
  (forward sample_extern sample_calibrate sample_reshape sample_input
     (registered_world false true)).1
  <> Raise (AttributeError "psi_f").
Proof.
split; first exact: registered_world_restorable.
by split; first by vm_compute.
Qed.

(** C9 (amended): forward never returns and never enters scattering1d,
    whatever the object and the input; and when the input and the options
    pass the checks of lines 343-363 on an object whose psi1_f has a
    resolution key, whose buffers exist and which has no attribute psi_f,
    the exception is the AttributeError for self.psi_f of line 376. *)
Theorem forward_stops_at_psi_f
    (extern : string -> seq value -> act value)
    (calibrate_scattering_filters : int -> int -> result Meta.calibration)
    (reshape : Tensor.t -> seq int -> result Tensor.t)
    (x : Tensor.t) (w : world) :
  let r := forward extern calibrate_scattering_filters reshape x w in
  [/\ ~~ is_ok r.1,
      calls r.2 = calls w
    & forall phi psi1,
        is_ok (check_input reshape x w).1 ->
        is_ok (treat_arguments calibrate_scattering_filters w).1 ->
        restorable w phi psi1 ->
        r.1 = Raise (AttributeError "psi_f")].
Proof.
split.
- exact: forward_never_returns.
- exact: quiet_forward.
- by move=> phi psi1; exact: forward_restorable.
Qed.

Lemma forward_stops_at_psi_f_witness :
  is_ok (check_input sample_reshape sample_input
           (registered_world true true)).1 /\
  is_ok (treat_arguments sample_calibrate (registered_world true true)).1 /\
  restorable (registered_world true true) registered_phi registered_psi1 /\
  (forward sample_extern sample_calibrate sample_reshape sample_input
     (registered_world true true)).1
  = Raise (AttributeError "psi_f").
Proof.
split; first by vm_compute.
split; first by vm_compute.
split; first exact: registered_world_restorable.
have [_ _ H] := forward_stops_at_psi_f sample_extern sample_calibrate
  sample_reshape sample_input (registered_world true true).
apply: (H registered_phi registered_psi1).
- by vm_compute.
- by vm_compute.
- exact: registered_world_restorable.
Defined.

Lemma vectorize_without_average_is_refused_witness :
  forward sample_extern sample_calibrate sample_reshape sample_input
    (registered_world false true)
  = (Raise incompatible_options, registered_world false true).
Proof.
have [H _] := @vectorize_without_average_is_refused sample_extern
  sample_calibrate sample_reshape sample_input (VBool true) (VBool false)
  (registered_world false true) isT erefl isT erefl isT.
exact: (H _ erefl).
Defined.

(* --------------------------------------------------------------------- *)
(* numpy_backend.py: SubsampleFourier                                    *)
(* --------------------------------------------------------------------- *)

Section Subsample.

Variable C : numClosedFieldType.

Lemma SubsampleFourier_eval (x : Np.ndarray C) (B Cn M N k : nat) :
  Np.ndshape x = [:: B; Cn; M; N] ->
  Np.well_formed x ->
  0 < k -> (k %| M)%N -> (k %| N)%N -> 0 < M -> 0 < N ->
  SubsampleFourier x (Posz k)
  = Np.mean {| Np.ndshape := [:: B; Cn; k; M %/ k; k; N %/ k];
               Np.data := Np.data x |} [:: 2; 4].
Proof.
move=> Hsh Hwf k0 kM kN M0 N0.
rewrite /SubsampleFourier /Np.shape_at Hsh /=.
case: k k0 kM kN => // k _ kM kN /=.
have EM := divnK kM; have EN := divnK kN.
have M'0 : 0 < M %/ k.+1 by rewrite divn_gt0 // dvdn_leq.
have N'0 : 0 < N %/ k.+1 by rewrite divn_gt0 // dvdn_leq.
have -> : M %/ (M %/ k.+1) = k.+1 by rewrite -{1}EM mulKn.
have -> : N %/ (N %/ k.+1) = k.+1 by rewrite -{1}EN mulKn.
case: (M %/ k.+1) M'0 EM => // M' _ EM.
case: (N %/ k.+1) N'0 EN => // N' _ EN /=.
rewrite /Np.reshape /= (eqP Hwf) Hsh /= -EM -EN.
have -> : (B * (Cn * (k.+1 * (M'.+1 * (k.+1 * (N'.+1 * 1)))))
           == B * (Cn * (M'.+1 * k.+1 * (N'.+1 * k.+1 * 1))))%N.
  by apply/eqP; ring.
by [].
Qed.

End Subsample.

Section SubsampleErrors.

Variable C : numClosedFieldType.

Lemma SubsampleFourier_zero_division (x : Np.ndarray C) (B Cn M N k : nat) :
  Np.ndshape x = [:: B; Cn; M; N] ->
  (k == 0) || (M < k) || (N < k) ->
  SubsampleFourier x (Posz k) = Raise ZeroDivisionError.
Proof.
move=> Hsh; rewrite /SubsampleFourier /Np.shape_at Hsh /=.
case: k => [|k] //= Hk.
case EM: (M %/ k.+1) => [|M'] //=.
case EN: (N %/ k.+1) => [|N'] //=.
have kM : k < M by rewrite -divn_gt0 // EM.
have kN : k < N by rewrite -divn_gt0 // EN.
by move: Hk; rewrite ltnS [M <= k]leqNgt kM ltnS [N <= k]leqNgt kN.
Qed.

Lemma SubsampleFourier_negative (x : Np.ndarray C) (B Cn M N d : nat) :
  Np.ndshape x = [:: B; Cn; M; N] ->
  ~~ is_ok (SubsampleFourier x (Negz d)).
Proof.
move=> Hsh; rewrite /SubsampleFourier /Np.shape_at Hsh /= /Np.zeros /=.
case EM: ((M + d) %/ d.+1) => [|M'] //=.
by case EN: ((N + d) %/ d.+1) => [|N'].
Qed.

(** X1: on an array x of shape (B, C, M, N), SubsampleFourier returns for
    every factor n > 0 that divides M and N (M, N > 0, x holding
    B * C * M * N entries), and whenever it returns, for whatever int k,
    what it returns has the shape (B, C, M // k, N // k). Nothing is said
    of the entries, which numpy computes in floating point. *)
Theorem subsample_fourier_output_shape (x : Np.ndarray C)
    (B Cn M N : nat) (k : int) :
  Np.ndshape x = [:: B; Cn; M; N] ->
  [/\ forall n : nat,
        Np.well_formed x ->
        0 < n -> n %| M -> n %| N -> 0 < M -> 0 < N ->
        is_ok (SubsampleFourier x (Posz n))
    & forall out,
        SubsampleFourier x k = Ok out ->
        Np.ndshape out = [:: B; Cn; M %/ `|k|; N %/ `|k|]].
Proof.
move=> Hsh; split=> [n wf n0 nM nN M0 N0|out].
  by rewrite (SubsampleFourier_eval Hsh wf n0 nM nN M0 N0).
case: k => [n|d]; last first.
  by move=> E; have := SubsampleFourier_negative d Hsh; rewrite E.
rewrite /SubsampleFourier /Np.shape_at Hsh /=.
case: n => [|n] //=.
case: (M %/ n.+1) => [|M'] //=; case: (N %/ n.+1) => [|N'] //=.
rewrite /Np.reshape; case: ifP => //= _.
by case=> <-.
Qed.

(** X3: on an array of shape (B, C, M, N), SubsampleFourier returns only
    for a factor k with 1 <= k <= M and k <= N. For k = 0, and for k
    larger than M or N (an output axis of length 0), it raises
    ZeroDivisionError; for k < 0 it raises too. *)
Theorem subsample_fourier_returns_only_in_range (x : Np.ndarray C)
    (B Cn M N : nat) (k : int) :
  Np.ndshape x = [:: B; Cn; M; N] ->
  [/\ is_ok (SubsampleFourier x k) ->
      [&& (0 < k)%R, (k <= Posz M)%R & (k <= Posz N)%R]
    & forall n : nat,
        (n == 0) || (M < n) || (N < n) ->
        SubsampleFourier x (Posz n) = Raise ZeroDivisionError].
Proof.
move=> Hsh; split; last by move=> n; exact: (SubsampleFourier_zero_division Hsh).
case: k => [n|d]; last by rewrite (negbTE (SubsampleFourier_negative d Hsh)).
case E: ((n == 0) || (M < n) || (N < n)).
  by rewrite (SubsampleFourier_zero_division Hsh E).
move=> _; move/negbT: E.
rewrite !negb_or -lt0n -!leqNgt => /andP [/andP [n0 nM] nN].
by rewrite ltz_nat !lez_nat n0 nM nN.
Qed.

(** X4: SubsampleFourier reads x.shape[0] to x.shape[3]: on an array with
    fewer than four axes it raises IndexError, except that with exactly
    three axes and k = 0 the division x.shape[2] // k comes first and
    raises ZeroDivisionError. *)
Theorem subsample_fourier_needs_four_axes (x : Np.ndarray C) (k : int) :
  size (Np.ndshape x) < 4 ->
  SubsampleFourier x k
  = Raise (if (size (Np.ndshape x) == 3) && (k == 0)
           then ZeroDivisionError else IndexError).
Proof.
rewrite /SubsampleFourier /Np.shape_at.
case: (Np.ndshape x) => [|a [|b [|c [|d [|? ?]]]]] //= _.
by case: k => [[|k]|k].
Qed.

End SubsampleErrors.

Section SubsampleShape.

Variable C : numClosedFieldType.


End SubsampleShape.



Lemma subsample_fourier_output_shape_witness :
  is_ok (SubsampleFourier sample_image (Posz 2))
  /\ forall out,
       SubsampleFourier sample_image (Posz 2) = Ok out ->
       Np.ndshape out = [:: 1; 1; 1; 1].
Proof.
have [H1 H2] := @subsample_fourier_output_shape algC sample_image 1 1 2 2
                  (Posz 2) erefl.
by split; [exact: (H1 2 isT isT isT isT isT isT) | exact: H2].
Defined.

Lemma subsample_fourier_returns_only_in_range_witness :
  [/\ is_ok (SubsampleFourier sample_image (Posz 2)) ->
      [&& (0 < Posz 2)%R, (Posz 2 <= Posz 2)%R & (Posz 2 <= Posz 2)%R]
    & forall n : nat,
        (n == 0) || (2 < n) || (2 < n) ->
        SubsampleFourier sample_image (Posz n) = Raise ZeroDivisionError].
Proof.
exact: (@subsample_fourier_returns_only_in_range algC sample_image 1 1 2 2
          (Posz 2) erefl).
Defined.

Lemma subsample_fourier_needs_four_axes_witness :
  SubsampleFourier
    {| Np.ndshape := [:: 2; 2]; Np.data := [:: 1; 1; 1; 1]%R |} (Posz 2)
  = Raise IndexError :> result (Np.ndarray algC).
Proof.
exact: (@subsample_fourier_needs_four_axes algC
          {| Np.ndshape := [:: 2; 2]; Np.data := [:: 1; 1; 1; 1]%R |}
          (Posz 2) isT).
Defined.

(* --------------------------------------------------------------------- *)
(* numpy_backend.py: fft                                                 *)
(* --------------------------------------------------------------------- *)

Section FftCases.

Variable C : numClosedFieldType.
Variable omega : nat -> C.

Open Scope ring_scope.

Lemma getitem_raises (A : Type) (s : seq A) (i : nat) (e : exn) :
  getitem s i = Raise e -> e = IndexError.
Proof. by rewrite /getitem; case: (ohead _) => // -[]. Qed.

Lemma last_two_raises (x : Np.ndarray C) (e : exn) :
  Np.last_two x = Raise e ->
  e = IndexError
  \/ e = ValueError "Invalid number of FFT data points (0) specified.".
Proof.
rewrite /Np.last_two; case: (rev _) => [|n [|m pre]]; try by case; left.
by case: ifP => // _ [<-]; right.
Qed.

Lemma last_two_getitem (x : Np.ndarray C) s :
  Np.last_two x = Ok s ->
  getitem (rev (Np.ndshape x)) 0 = Ok s.2
  /\ getitem (rev (Np.ndshape x)) 1 = Ok s.1.2.
Proof.
rewrite /Np.last_two; case: (rev _) => [|n [|m pre]] //.
by case: ifP => // _ [<-].
Qed.

(** X5: fft raises a RuntimeError exactly when direction is 'C2R' and
    inverse is false, and the message is then the one of line 121; the
    errors of the transforms themselves are of other classes. *)
Theorem fft_runtime_error_iff (x : Np.ndarray C) (direction : string)
    (inverse : bool) (msg : string) :
  fft omega x direction inverse = Raise (RuntimeError msg)
  <-> [/\ direction = "C2R"%string, inverse = false
        & msg = "C2R mode can only be done with an inverse FFT."%string].
Proof.
split; last by case=> -> -> ->.
rewrite /fft /Np.ifft2 /Np.fft2.
case: (direction =P "C2R"%string) => [->|_] /=.
  case: inverse => /=; last by case=> <-.
  case E: (Np.last_two x) => [[[pre m] n]|e] /=.
    by have [-> ->] := last_two_getitem E.
  by case: (last_two_raises E) => ->.
case: (direction == "C2C"%string) => //.
case: inverse => /=.
  case E: (Np.last_two x) => [[[pre m] n]|e] /=.
    by have [-> ->] := last_two_getitem E.
  by case: (last_two_raises E) => ->.
case E: (Np.last_two x) => [[[pre m] n]|e] //=.
by case: (last_two_raises E) => ->.
Qed.

(** X6: fft returns exactly when the direction is 'C2C', or 'C2R' with
    inverse true, and x has two last axes that are not empty. Any other
    direction string passes both tests of lines 119-129 and fails at
    `return output` on the unbound local. *)
Theorem fft_returns_iff (x : Np.ndarray C) (direction : string)
    (inverse : bool) :
  is_ok (fft omega x direction inverse)
  = ((direction == "C2C"%string) || (direction == "C2R"%string) && inverse)
    && is_ok (Np.last_two x).
Proof.
rewrite /fft /Np.ifft2 /Np.fft2.
case: (direction =P "C2R"%string) => [->|_] /=.
  case: inverse => //=.
  case E: (Np.last_two x) => [[[pre m] n]|e] //=.
  by have [-> ->] := last_two_getitem E.
case: (direction == "C2C"%string) => //=.
case: inverse => /=.
  case E: (Np.last_two x) => [[[pre m] n]|e] //=.
  by have [-> ->] := last_two_getitem E.
by case E: (Np.last_two x) => [[[pre m] n]|e].
Qed.

End FftCases.

Section FftRoundTrip.

Variable C : numClosedFieldType.
Variable omega : nat -> C.


End FftRoundTrip.


(* --------------------------------------------------------------------- *)
(* torch_frontend.py: what build refuses                                 *)
(* --------------------------------------------------------------------- *)

Section BuildRefusals.

Variable import_torch_backend : result value.
Variable extern : string -> seq value -> act value.

(** X10: build refuses a backend whose name does not start with 'torch':
    it raises RuntimeError('This backend is not supported.') at once,
    leaving the object as it found it: no default parameter is set and
    no function of another module is entered. *)
Theorem build_refuses_other_backend (name : string) (w : world) :
  lookup String.eqb "backend"%string (attrs w) = Some (VModule name) ->
  substring 0 5 name != "torch"%string ->
  build import_torch_backend extern w
  = (Raise (RuntimeError "This backend is not supported."), w).
Proof.
move=> Hb Hname; rewrite /build.
apply: bind_raises; rewrite /select_backend (exec_getattr _ Hb) /=.
by rewrite (exec_getattr _ Hb) /abind /= Hname.
Qed.

(** X11: with an accepted backend, build refuses every shape that is
    neither an integer nor a tuple of one element. A tuple of two or more
    elements gives the ValueError of lines 212-213, raised after T has
    been set to the first element; the empty tuple gives the IndexError
    of `self.shape[0]`; any other object gives the ValueError of line 215.
    No buffer is registered on the way. *)
Theorem build_refuses_shape (backend shape m : value) (w : world) :
  lookup String.eqb "backend"%string (attrs w) = Some backend ->
  lookup String.eqb "shape"%string (attrs w) = Some shape ->
  import_torch_backend = Ok m ->
  backend_accepted backend ->
  ~~ shape_accepted shape ->
  exists w',
    [/\ build import_torch_backend extern w
        = (Raise
             match shape with
             | VTuple [::] => IndexError
             | VTuple _ =>
                 ValueError
                   ("If shape is specified as a tuple, it must have "
                    ++ "exactly one element")
             | _ => ValueError "shape must be an integer or a 1-tuple"
             end, w'),
        buffers w' = buffers w
      & lookup String.eqb "T"%string (attrs w')
        = if shape is VTuple (a :: _) then Some a
          else lookup String.eqb "T"%string (attrs w)].
Proof.
move=> Hb Hs Himp Hba Hsa; rewrite /build.
have [w1 E1 F1] := select_backend_returns Hb Himp Hba.
have [w2 E2 F2] := set_defaults_returns w1.
have F := frame_trans F1 F2.
have Hs2 : lookup String.eqb "shape"%string (attrs w2) = Some shape.
  by case: F => _ _ ->.
rewrite (bind_returns _ E1) (bind_returns _ E2).
have [c12 b12 a12] := F.
have HT : lookup String.eqb "T"%string (attrs w2)
          = lookup String.eqb "T"%string (attrs w).
  by rewrite a12.
case: shape Hs Hsa Hs2 => [|b|z|f|s|vs|vs|kvs|a|a|nm|nm] Hs //= Hsa Hs2;
  try by exists w2; split=> //; apply: bind_raises;
         rewrite /check_shape (exec_getattr _ Hs2).
case: vs Hs Hsa Hs2 => [|a [|a' vs]] Hs //= _ Hs2.
  exists w2; split=> //; apply: bind_raises.
  by rewrite /check_shape (exec_getattr _ Hs2).
exists (setattr "T" a w2).2; split=> //=.
  apply: bind_raises.
  by rewrite /check_shape (exec_getattr _ Hs2) /abind /=.
by rewrite lookup_insert eqxx.
Qed.

End BuildRefusals.

Lemma build_refuses_other_backend_witness :
  build sample_backend sample_extern
    {| attrs := [:: ("backend"%string, VModule "numpy")];
       buffers := [::]; calls := [::] |}
  = (Raise (RuntimeError "This backend is not supported."),
     {| attrs := [:: ("backend"%string, VModule "numpy")];
        buffers := [::]; calls := [::] |}).
Proof.
exact: (@build_refuses_other_backend sample_backend sample_extern "numpy"
          {| attrs := [:: ("backend"%string, VModule "numpy")];
             buffers := [::]; calls := [::] |} erefl isT).
Defined.

Lemma build_refuses_shape_witness :
  let w := {| attrs := [:: ("backend"%string, VNone);
                           ("shape"%string,
                            VTuple [:: VInt 8192; VInt 2])];
              buffers := [::]; calls := [::] |} in
  exists w',
    [/\ build sample_backend sample_extern w
        = (Raise (ValueError
             ("If shape is specified as a tuple, it must have "
              ++ "exactly one element")), w'),
        buffers w' = buffers w
      & lookup String.eqb "T"%string (attrs w') = Some (VInt 8192)].
Proof.
exact: (@build_refuses_shape sample_backend sample_extern VNone
          (VTuple [:: VInt 8192; VInt 2]) (VModule "torch")
          {| attrs := [:: ("backend"%string, VNone);
                          ("shape"%string, VTuple [:: VInt 8192; VInt 2])];
             buffers := [::]; calls := [::] |} erefl erefl erefl isT isT).
Defined.

(* --------------------------------------------------------------------- *)
(* torch_frontend.py: forward before and after the restoring loops       *)
(* --------------------------------------------------------------------- *)

Section ForwardEnds.

Variable extern : string -> seq value -> act value.
Variable calibrate_scattering_filters : int -> int -> result Meta.calibration.
Variable reshape : Tensor.t -> seq int -> result Tensor.t.

(** X12: on an input without axes forward raises the ValueError of lines
    343-346 and leaves the object as it was, whatever x.reshape would
    do and whatever the options are. *)
Theorem forward_refuses_input_without_axes (x : Tensor.t) (w : world) :
  Tensor.shape x = [::] ->
  forward extern calibrate_scattering_filters reshape x w
  = (Raise
       (ValueError "Input tensor x should have at least one axis, got 0"),
     w).
Proof.
move=> Hx; rewrite /forward; apply: bind_raises.
by rewrite /check_input Hx.
Qed.

Lemma restore_phi_strings bd ks n w :
  ~~ has not_str ks -> afor ks (restore_phi_key bd) n w = (Ok n, w).
Proof.
elim: ks => [|k ks IH] //=; rewrite negb_or => /andP [/negbTE Hk /IH E].
by rewrite /restore_phi_key Hk /abind.
Qed.

Lemma restore_psi1_strings bd ks n w :
  ~~ has not_str ks -> afor ks (restore_psi1_key bd) n w = (Ok n, w).
Proof.
elim: ks => [|k ks IH] //=; rewrite negb_or => /andP [/negbTE Hk /IH E].
by rewrite /restore_psi1_key Hk /abind.
Qed.

Lemma restore_psi2_strings bd i ks n w :
  ~~ has not_str ks -> afor ks (restore_psi2_key bd i) n w = (Ok n, w).
Proof.
elim: ks => [|k ks IH] //=; rewrite negb_or => /andP [/negbTE Hk /IH E].
by rewrite /restore_psi2_key Hk /abind.
Qed.

Lemma restore_psi1_list bd (psi : seq (seq (key * value))) n w :
  ~~ has (fun d => has not_str (keys d)) psi ->
  afor [seq VDict d | d <- psi]
    (fun n psi_f =>
       ks <~ lift (dict_keys psi_f) ;;
       afor ks (restore_psi1_key bd) n)
    n w
  = (Ok n, w).
Proof.
elim: psi => [|d psi IH] //=; rewrite negb_or => /andP [Hd /IH E].
by rewrite /abind /lift /= restore_psi1_strings.
Qed.

Lemma restore_psi2_list bd (ds : seq (nat * seq (key * value))) n w :
  ~~ has (fun e => has not_str (keys e.2)) ds ->
  afor [seq (e.1, VDict e.2) | e <- ds]
    (fun n (e : nat * value) =>
       ks <~ lift (dict_keys e.2) ;;
       afor ks (restore_psi2_key bd e.1) n)
    n w
  = (Ok n, w).
Proof.
elim: ds => [|d ds IH] //=; rewrite negb_or => /andP [Hd /IH E].
by rewrite /abind /lift /= restore_psi2_strings.
Qed.

Lemma has_zip_snd (A B : Type) (P : B -> bool) (s : seq A) (t : seq B) :
  has (fun e => P e.2) (zip s t) -> has P t.
Proof.
elim: t s => [|b t IH] [|a s] //= /orP [->|/IH ->] //.
by rewrite orbT.
Qed.

Lemma enumerate_map (A B : Type) (f : A -> B) (s : seq A) :
  enumerate [seq f a | a <- s]
  = [seq (e.1, f e.2) | e <- enumerate s].
Proof.
rewrite /enumerate size_map; move: 0 => i.
by elim: s i => [|a s IH] i //=; rewrite IH.
Qed.

(** X13: on an object whose filter dictionaries hold no resolution key
    (only string keys), with vectorize off and an input that passes the
    checks, the three restoring loops change nothing and forward stops at
    line 385: `pad` is not a name of the module, so the NameError is
    raised before scattering1d is entered and with the object left as it
    was. *)
Theorem forward_stops_at_pad (x x' : Tensor.t) (w : world)
    (vectorize : value) (phi : seq (key * value))
    (psi1 psi2 : seq (seq (key * value))) :
  0 < size (Tensor.shape x) ->
  reshape x ([:: Negz 0; Posz 1]
             ++ [seq Posz d
                | d <- drop (size (Tensor.shape x)).-1 (Tensor.shape x)])
  = Ok x' ->
  lookup String.eqb "vectorize"%string (attrs w) = Some vectorize ->
  ~~ truthy vectorize ->
  lookup String.eqb "phi_f"%string (attrs w) = Some (VDict phi) ->
  lookup String.eqb "psi1_f"%string (attrs w)
  = Some (VList [seq VDict d | d <- psi1]) ->
  lookup String.eqb "psi2_f"%string (attrs w)
  = Some (VList [seq VDict d | d <- psi2]) ->
  ~~ has not_str (keys phi) ->
  ~~ has (fun d => has not_str (keys d)) psi1 ->
  ~~ has (fun d => has not_str (keys d)) psi2 ->
  forward extern calibrate_scattering_filters reshape x w
  = (Raise (NameError "pad"), w).
Proof.
move=> Hsz Hre Hv Tv Hphi Hpsi1 Hpsi2 Sphi Spsi1 Spsi2; rewrite /forward.
rewrite (bind_returns _ (check_input_returns w Hsz Hre)).
have Et : treat_arguments calibrate_scattering_filters w = (Ok (VInt 0), w).
  by rewrite /treat_arguments (exec_getattr _ Hv) (negbTE Tv).
have Eb : named_buffers w = (Ok (buffers w), w) by [].
have Ephi : restore_phi (buffers w) 0 w = (Ok 0, w).
  rewrite /restore_phi (exec_getattr _ Hphi) /abind /lift /=.
  exact: restore_phi_strings.
have Epsi1 : restore_psi1 (buffers w) 0 w = (Ok 0, w).
  rewrite /restore_psi1 (exec_getattr _ Hpsi1) /abind /lift /=.
  exact: restore_psi1_list.
have Epsi2 : restore_psi2 (buffers w) 0 w = (Ok 0, w).
  rewrite /restore_psi2 (exec_getattr _ Hpsi2) /abind /lift /=.
  rewrite enumerate_map; apply: restore_psi2_list.
  by apply: contra Spsi2; rewrite /enumerate; exact: has_zip_snd.
rewrite (bind_returns _ Et) (bind_returns _ Eb) (bind_returns _ Ephi).
rewrite (bind_returns _ Epsi1) (bind_returns _ Epsi2).
exact: cascade_raises.
Qed.

End ForwardEnds.

Lemma forward_refuses_input_without_axes_witness :
  forward sample_extern sample_calibrate sample_reshape scalar_input
    bare_world
  = (Raise
       (ValueError "Input tensor x should have at least one axis, got 0"),
     bare_world).
Proof.
exact: (@forward_refuses_input_without_axes sample_extern sample_calibrate
          sample_reshape scalar_input bare_world erefl).
Defined.

Lemma forward_stops_at_pad_witness :
  forward sample_extern sample_calibrate sample_reshape sample_input
    bare_world
  = (Raise (NameError "pad"), bare_world).
Proof.
exact: (@forward_stops_at_pad sample_extern sample_calibrate sample_reshape
          sample_input
          {| Tensor.shape := [:: 3; 1; 16]; Tensor.storage := 0 |}
          bare_world (VBool false) [:: (KStr "xi", VFloat 0%float)]
          [:: [:: (KStr "j", VInt 0)]] [::]
          isT erefl erefl isT erefl erefl erefl isT isT isT).
Defined.

(* --------------------------------------------------------------------- *)
(* torch_frontend.py: the padded rows of compute_meta_scattering and the *)
(* orders outside {1, 2}                                                 *)
(* --------------------------------------------------------------------- *)

Lemma map_rows2 (A B : Type) (f : A -> B)
    (mk : int -> seq Meta.float -> seq Meta.float -> seq int -> seq nat -> A)
    (max_order : int) (c : Meta.calibration) (es : seq entry) :
  [seq f a | a <- rows2 mk max_order c es]
  = rows2 (fun o xs ss js ns => f (mk o xs ss js ns)) max_order c es.
Proof.
rewrite /rows2; case: ifP => // _.
rewrite map_flatten -map_comp; congr flatten; apply: eq_map => e1 /=.
by rewrite -map_comp.
Qed.

Lemma size_rows2 (A B : Type)
    (mk : int -> seq Meta.float -> seq Meta.float -> seq int -> seq nat -> A)
    (mk' : int -> seq Meta.float -> seq Meta.float -> seq int -> seq nat -> B)
    (max_order : int) (c : Meta.calibration) (es : seq entry) :
  size (rows2 mk max_order c es) = size (rows2 mk' max_order c es).
Proof.
have H X (m : int -> seq Meta.float -> seq Meta.float -> seq int ->
              seq nat -> X) :
    size (rows2 m max_order c es)
    = size (rows2 (fun _ _ _ _ _ => tt) max_order c es).
  by rewrite -(map_rows2 (fun _ => tt) m) size_map.
by rewrite H (H B).
Qed.

Section MetaPadding.

Variable calibrate_scattering_filters : int -> int -> result Meta.calibration.
Variables (J Q max_order : int) (c : Meta.calibration).

Lemma padded_width (T : Type) (inj : T -> Meta.num)
    (mk : int -> seq Meta.float -> seq Meta.float -> seq int -> seq nat ->
          seq T) :
  (forall o xs ss js ns,
     size xs = size ns -> size ss = size ns -> size js = size ns ->
     size (mk o xs ss js ns) = size ns) ->
  (1 <= max_order)%R ->
  all (fun r : seq Meta.num => ((size r)%:Z == max_order)%R)
      [seq Meta.pad_row inj max_order x
      | x <- mk 0%R [::] [::] [::] [::]
             :: [seq row1 mk e1 | e1 <- entries1 c]
             ++ rows2 mk max_order c (entries1 c)].
Proof.
move=> Hmk le1; rewrite all_map.
apply: sub_all (rows_bounded c Hmk le1) => x /= le_x.
by rewrite size_pad_row.
Qed.

(** X14: for max_order >= 1, compute_meta_scattering returns, the rows of
    'n' are the tuples of 'key' padded with NaN to the width max_order,
    'order', 'xi', 'sigma' and 'j' have one row for each key, and every
    row of 'xi', 'sigma', 'j' and 'n' has exactly max_order entries. *)
Theorem meta_rows_are_padded_keys :
  calibrate_scattering_filters J Q = Ok c ->
  (1 <= max_order)%R ->
  exists meta,
    [/\ compute_meta_scattering calibrate_scattering_filters J Q max_order
        = Ok meta,
        Meta.n meta
        = [seq Meta.pad_row (fun i : nat => Meta.NInt (Posz i)) max_order k
          | k <- Meta.key meta],
        [/\ size (Meta.order meta) = size (Meta.key meta),
            size (Meta.xi meta) = size (Meta.key meta),
            size (Meta.sigma meta) = size (Meta.key meta)
          & size (Meta.j meta) = size (Meta.key meta)]
      & all (fun r : seq Meta.num => ((size r)%:Z == max_order)%R)
            (Meta.xi meta ++ Meta.sigma meta ++ Meta.j meta ++ Meta.n meta)].
Proof.
move=> calibrated le1; rewrite /compute_meta_scattering calibrated /=.
rewrite (@concat3_outer _ Meta.l_xi (fun _ xs _ _ _ => xs)) //.
rewrite (@concat3_outer _ Meta.l_sigma (fun _ _ ss _ _ => ss)) //.
rewrite (@concat3_outer _ Meta.l_j (fun _ _ _ js _ => js)) //.
rewrite (@concat3_outer _ Meta.l_n (fun _ _ _ _ ns => ns)) //.
rewrite (@concat3_outer _ Meta.l_key (fun _ _ _ _ ns => ns)) //.
rewrite (@concat3_outer _ Meta.l_order (fun o _ _ _ _ => o)) //.
rewrite !to_tensor_padded /=; try by apply: rows_bounded => // o xs ss js ns.
eexists; split; first by [].
- by [].
- rewrite /= !(size_cat, size_map).
  by split; congr (_ + _).+1; exact: size_rows2.
rewrite !all_cat; apply/and4P; split.
- exact: (@padded_width _ Meta.NFloat (fun _ xs _ _ _ => xs)).
- exact: (@padded_width _ Meta.NFloat (fun _ _ ss _ _ => ss)).
- exact: (@padded_width _ Meta.NInt (fun _ _ _ js _ => js)).
- exact: (@padded_width _ (fun i : nat => Meta.NInt (Posz i))
            (fun _ _ _ _ ns => ns)).
Qed.

(** X15: for max_order >= 3 the two static methods disagree.
    compute_meta_scattering still lists the order-2 paths (it only tests
    max_order < 2), while precompute_size_scattering counts them for
    max_order == 2 only: the number of keys exceeds the announced total
    by the number of order-2 paths. *)
Theorem path_count_disagrees_beyond_order_two :
  calibrate_scattering_filters J Q = Ok c ->
  parallel c ->
  (3 <= max_order)%R ->
  exists meta,
    [/\ precompute_size_scattering calibrate_scattering_filters
          J Q max_order false
        = Ok (Size.Total (1 + size (Meta.xi1s c))),
        precompute_size_scattering calibrate_scattering_filters
          J Q max_order true
        = Ok (Size.Detail [:: 1; size (Meta.xi1s c)]),
        compute_meta_scattering calibrate_scattering_filters J Q max_order
        = Ok meta
      & size (Meta.key meta)
        = 1 + size (Meta.xi1s c) + size (order2_pairs c)].
Proof.
move=> Hcal Hpar le3.
have le1 : (1 <= max_order)%R by apply: le_trans le3.
have lt2 : (max_order < 2)%R = false.
  by apply/negbTE; rewrite -leNgt; apply: le_trans le3.
have ne2 : (max_order == 2) = false.
  by apply/negbTE; rewrite neq_lt orbC (lt_le_trans _ le3).
have [meta [Hmeta Horder Hkey]] := compute_metaE Hcal le1.
rewrite /precompute_size_scattering Hcal /= count_order2E //= ne2.
exists meta; split=> //.
rewrite Hkey rows2E // lt2 /= size_cat !size_map (size_entries1 Hpar).
by rewrite add1n.
Qed.

(** X16: for max_order <= 0 and at least one first-order filter,
    compute_meta_scattering does not return: the row of order 0 is padded
    to no entry and the rows of order 1 keep their one entry, so the
    rows do not make an array. precompute_size_scattering returns
    1 + len(xi1) for the same arguments. *)
Theorem meta_needs_positive_order :
  calibrate_scattering_filters J Q = Ok c ->
  parallel c ->
  0 < size (Meta.xi1s c) ->
  (max_order <= 0)%R ->
  ~~ is_ok (compute_meta_scattering calibrate_scattering_filters
              J Q max_order)
  /\ precompute_size_scattering calibrate_scattering_filters
       J Q max_order false
     = Ok (Size.Total (1 + size (Meta.xi1s c))).
Proof.
move=> Hcal Hpar Hsz le0; split; last first.
  rewrite /precompute_size_scattering Hcal /= count_order2E //=.
  by case: max_order le0 => [[|[|[|n]]]|n].
rewrite /compute_meta_scattering Hcal /=.
rewrite (@concat3_outer _ Meta.l_xi (fun _ xs _ _ _ => xs)) //.
have : 0 < size (entries1 c) by rewrite (size_entries1 Hpar).
case: (entries1 c) => [|e1 es] // _.
rewrite /Meta.to_tensor /Meta.rectangular /= /Meta.pad_row /=.
by case: max_order le0 => [[|n]|n].
Qed.

End MetaPadding.

Lemma meta_rows_are_padded_keys_witness :
  exists meta,
    [/\ compute_meta_scattering sample_calibrate 2 1 2 = Ok meta,
        Meta.n meta
        = [seq Meta.pad_row (fun i : nat => Meta.NInt (Posz i)) 2 k
          | k <- Meta.key meta],
        [/\ size (Meta.order meta) = size (Meta.key meta),
            size (Meta.xi meta) = size (Meta.key meta),
            size (Meta.sigma meta) = size (Meta.key meta)
          & size (Meta.j meta) = size (Meta.key meta)]
      & all (fun r : seq Meta.num => ((size r)%:Z == 2)%R)
            (Meta.xi meta ++ Meta.sigma meta ++ Meta.j meta ++ Meta.n meta)].
Proof.
exact: (@meta_rows_are_padded_keys sample_calibrate 2 1 2 sample_calibration
          erefl isT).
Defined.

Lemma path_count_disagrees_beyond_order_two_witness :
  exists meta,
    [/\ precompute_size_scattering sample_calibrate 2 1 3 false
        = Ok (Size.Total (1 + size (Meta.xi1s sample_calibration))),
        precompute_size_scattering sample_calibrate 2 1 3 true
        = Ok (Size.Detail [:: 1; size (Meta.xi1s sample_calibration)]),
        compute_meta_scattering sample_calibrate 2 1 3 = Ok meta
      & size (Meta.key meta)
        = 1 + size (Meta.xi1s sample_calibration)
          + size (order2_pairs sample_calibration)].
Proof.
exact: (@path_count_disagrees_beyond_order_two sample_calibrate 2 1 3
          sample_calibration erefl isT isT).
Defined.

Lemma meta_needs_positive_order_witness :
  ~~ is_ok (compute_meta_scattering sample_calibrate 2 1 0)
  /\ precompute_size_scattering sample_calibrate 2 1 0 false
     = Ok (Size.Total (1 + size (Meta.xi1s sample_calibration))).
Proof.
exact: (@meta_needs_positive_order sample_calibrate 2 1 0 sample_calibration
          erefl isT isT isT).
Defined.

(* --------------------------------------------------------------------- *)
(* torch_frontend.py: compute_minimum_support_to_pad called as the class *)
(* attribute it is                                                       *)
(* --------------------------------------------------------------------- *)

Section MinimumSupport.

Variable extern : string -> seq value -> act value.

(** X17: called through the class, compute_minimum_support_to_pad enters
    np.log2, np.ceil, int and scattering_filter_factory, in this order
    and once each, passes the factory J_tentative = int(ceil(log2(T)))
    with to_torch = False and max_subsampling = 0, and returns three
    times the fourth component t_max_phi of what the factory returns. *)
Theorem minimum_support_is_thrice_t_max_phi
    (T J Q criterion_amplitude normalize r_psi sigma0 alpha P_max eps : value)
    (l cl J_tentative phi_f psi1_f psi2_f : value) (t_max_phi : int)
    (w : world) :
  (forall w, extern "np.log2" [:: T] w = (Ok l, w)) ->
  (forall w, extern "np.ceil" [:: l] w = (Ok cl, w)) ->
  (forall w, extern "int" [:: cl] w = (Ok J_tentative, w)) ->
  (forall w,
     extern "scattering_filter_factory"
       [:: J_tentative; J; Q; normalize; VBool false; VInt 0;
           criterion_amplitude; r_psi; sigma0; alpha; P_max; eps] w
     = (Ok (VTuple [:: phi_f; psi1_f; psi2_f; VInt t_max_phi]), w)) ->
  compute_minimum_support_to_pad extern T J Q criterion_amplitude normalize
    r_psi sigma0 alpha P_max eps w
  = (Ok (VInt (3 * t_max_phi)%R),
     {| attrs := attrs w; buffers := buffers w;
        calls := calls w ++ [:: "np.log2"; "np.ceil"; "int";
                                "scattering_filter_factory"]%string |}).
Proof.
move=> Hlog Hceil Hint Hfac.
rewrite /compute_minimum_support_to_pad /int_ceil_log2 /invoke.
rewrite /abind /log_call /= Hlog /= Hceil /= Hint /= Hfac /=.
by rewrite -!cats1 -!catA.
Qed.

End MinimumSupport.

Lemma minimum_support_is_thrice_t_max_phi_witness :
  compute_minimum_support_to_pad sample_factory (VInt 16) (VInt 2) (VInt 1)
    (VFloat 1e-3%float) (VStr "l1") (VFloat (PrimFloat.sqrt 0.5%float))
    (VFloat 0.1%float) (VFloat 5%float) (VInt 5) (VFloat 1e-7%float)
    fresh_world
  = (Ok (VInt (3 * 7)%R),
     {| attrs := [::]; buffers := [::];
        calls := [:: "np.log2"; "np.ceil"; "int";
                     "scattering_filter_factory"]%string |}).
Proof.
exact: (@minimum_support_is_thrice_t_max_phi sample_factory
          (VInt 16) (VInt 2) (VInt 1) (VFloat 1e-3%float) (VStr "l1")
          (VFloat (PrimFloat.sqrt 0.5%float)) (VFloat 0.1%float)
          (VFloat 5%float) (VInt 5) (VFloat 1e-7%float)
          VNone VNone VNone sample_phi_f sample_psi1_f sample_psi2_f 7
          fresh_world
          (fun _ => erefl) (fun _ => erefl) (fun _ => erefl)
          (fun _ => erefl)).
Defined.

(* --------------------------------------------------------------------- *)
(* frontend/__init__.py: the choice of the front end                     *)
(* --------------------------------------------------------------------- *)

Lemma remove_key_absent (name : string) (kwargs : seq (string * value)) :
  lookup String.eqb name kwargs = None -> remove_key name kwargs = kwargs.
Proof.
rewrite /remove_key; elim: kwargs => [|[k v] kwargs IH] //=.
rewrite string_eqbE; case: ifP => // Hk /IH ->.
by rewrite eq_sym Hk.
Qed.

Section FrontendChoice.

Variable base_init : act unit.
Variable import_torch_backend : result value.
Variable extern : string -> seq value -> act value.
Variable import_frontend : string -> result unit.
Variable numpy_init : seq value -> seq (string * value) -> act unit.
Variable tensorflow_init : seq value -> seq (string * value) -> act unit.

(** X18: Scattering1D(..., frontend='torch') never builds an object.
    Whatever the other arguments are, whether or not the torch front end
    imports, and whatever the constructor of the base class does, the
    call raises RuntimeError('Make sure PyTorch is correctly
    installed.'): the NameError of build is caught by the bare except. *)
Theorem torch_frontend_is_unreachable (args : seq value)
    (kwargs : seq (string * value)) (w : world) :
  lookup String.eqb "frontend"%string kwargs = Some (VStr "torch") ->
  (scattering1d_init base_init import_torch_backend extern import_frontend
     numpy_init tensorflow_init args kwargs w).1
  = Raise (RuntimeError "Make sure PyTorch is correctly installed.").
Proof. exact: scattering1d_init_torch. Qed.

(** X19: a frontend that is none of 'numpy', 'torch' and 'tensorflow'
    (another string, or an object that is not a string) is refused with
    RuntimeError('This frontend is not available.'); nothing is imported
    and the object is left as it was. *)
Theorem unknown_frontend_is_refused (args : seq value)
    (kwargs : seq (string * value)) (frontend : value) (w : world) :
  lookup String.eqb "frontend"%string kwargs = Some frontend ->
  ~~ [|| is_str frontend "numpy", is_str frontend "torch"
       | is_str frontend "tensorflow"] ->
  scattering1d_init base_init import_torch_backend extern import_frontend
    numpy_init tensorflow_init args kwargs w
  = (Raise (RuntimeError "This frontend is not available."), w).
Proof.
move=> Hf; rewrite !negb_or => /and3P [/negbTE Hn /negbTE Ht /negbTE Htf].
by rewrite /scattering1d_init Hf Hn Ht Htf.
Qed.

(** X20: the default front end is numpy: a call without the keyword
    `frontend` does what the same call with frontend='numpy' does,
    result and object alike. *)
Theorem default_frontend_is_numpy (args : seq value)
    (kwargs : seq (string * value)) (w : world) :
  lookup String.eqb "frontend"%string kwargs = None ->
  scattering1d_init base_init import_torch_backend extern import_frontend
    numpy_init tensorflow_init args kwargs w
  = scattering1d_init base_init import_torch_backend extern import_frontend
      numpy_init tensorflow_init args
      (("frontend"%string, VStr "numpy") :: kwargs) w.
Proof.
move=> Hf; rewrite /scattering1d_init Hf /=.
by rewrite (remove_key_absent Hf).
Qed.

End FrontendChoice.

Lemma torch_frontend_is_unreachable_witness :
  (scattering1d_init sample_base_init sample_backend sample_extern
     sample_import sample_init sample_init
     [:: VInt 6; VInt 8192] [:: ("frontend"%string, VStr "torch")]
     fresh_world).1
  = Raise (RuntimeError "Make sure PyTorch is correctly installed.").
Proof.
exact: (@torch_frontend_is_unreachable sample_base_init sample_backend
          sample_extern sample_import sample_init sample_init
          [:: VInt 6; VInt 8192] [:: ("frontend"%string, VStr "torch")]
          fresh_world erefl).
Defined.

Lemma unknown_frontend_is_refused_witness :
  scattering1d_init sample_base_init sample_backend sample_extern
    sample_import sample_init sample_init
    [:: VInt 6; VInt 8192] [:: ("frontend"%string, VStr "jax")] fresh_world
  = (Raise (RuntimeError "This frontend is not available."), fresh_world).
Proof.
exact: (@unknown_frontend_is_refused sample_base_init sample_backend
          sample_extern sample_import sample_init sample_init
          [:: VInt 6; VInt 8192] [:: ("frontend"%string, VStr "jax")]
          (VStr "jax") fresh_world erefl isT).
Defined.

Lemma default_frontend_is_numpy_witness :
  scattering1d_init sample_base_init sample_backend sample_extern
    sample_import sample_init sample_init
    [:: VInt 6; VInt 8192] [:: ("Q"%string, VInt 8)] fresh_world
  = scattering1d_init sample_base_init sample_backend sample_extern
      sample_import sample_init sample_init
      [:: VInt 6; VInt 8192]
      [:: ("frontend"%string, VStr "numpy"); ("Q"%string, VInt 8)]
      fresh_world.
Proof.
exact: (@default_frontend_is_numpy sample_base_init sample_backend
          sample_extern sample_import sample_init sample_init
          [:: VInt 6; VInt 8192] [:: ("Q"%string, VInt 8)] fresh_world
          erefl).
Defined.

(* --------------------------------------------------------------------- *)
(* torch_frontend.py: _apply_phi and _apply_psi                          *)
(* --------------------------------------------------------------------- *)

Lemma key_eqb_refl (k : key) : key_eqb k k.
Proof. by case: k => [z|s] /=. Qed.

Lemma key_eqb_sym (k k' : key) : key_eqb k k' = key_eqb k' k.
Proof. by case: k k' => [z|s] [z'|s'] //=; rewrite eq_sym. Qed.

Section ApplyFiltersMap.

Variable fn : value -> result value.
Variable g : value -> value.

Hypothesis fn_returns : forall v, is_tensor v -> fn v = Ok (g v).

Lemma apply_key_head k v d :
  apply_key fn (VDict ((k, v) :: d)) k = Ok (VDict (applied g (k, v) :: d)).
Proof.
rewrite /apply_key /= key_eqb_refl /=.
case Hv: (is_tensor v); rewrite /applied /= Hv //=.
by rewrite fn_returns.
Qed.

Lemma apply_key_tail p d d' k :
  ~~ key_eqb p.1 k ->
  apply_key fn (VDict d) k = Ok (VDict d') ->
  apply_key fn (VDict (p :: d)) k = Ok (VDict (p :: d')).
Proof.
case: p => k0 v0 /= /negbTE Hk; rewrite /apply_key /=.
rewrite key_eqb_sym Hk.
case: (lookup key_eqb k d) => [v|] //=.
case: (is_tensor v) => /=; last by case=> ->.
by case: (fn v) => [r|e] //= [<-].
Qed.

Lemma apply_key_dict d k x :
  apply_key fn (VDict d) k = Ok x -> exists d', x = VDict d'.
Proof.
rewrite /apply_key /=; case: (lookup key_eqb k d) => [v|] //=.
case: (is_tensor v) => /=; last by case=> <-; exists d.
by case: (fn v) => [r|e] //= [<-]; eexists.
Qed.

Lemma apply_keys_tail p d ks d' :
  ~~ has (key_eqb p.1) ks ->
  for_each ks (apply_key fn) (VDict d) = Ok (VDict d') ->
  for_each ks (apply_key fn) (VDict (p :: d)) = Ok (VDict (p :: d')).
Proof.
elim: ks d => [|k ks IH] d /=; first by move=> _ [->].
rewrite negb_or => /andP [Hk Hks].
case E: (apply_key fn (VDict d) k) => [x|e] //= H.
have [d1 Ex] := apply_key_dict E; rewrite {x}Ex in E H.
by rewrite (apply_key_tail Hk E) /=; apply: IH.
Qed.

Lemma apply_keys_map (d : seq (key * value)) :
  distinct (keys d) ->
  for_each (keys d) (apply_key fn) (VDict d)
  = Ok (VDict [seq applied g kv | kv <- d]).
Proof.
elim: d => [|[k v] d IH] //= /andP [Hk Hd].
rewrite apply_key_head /=.
by apply: (@apply_keys_tail (applied g (k, v))) => //; exact: IH.
Qed.

End ApplyFiltersMap.

Section ApplyStore.

Variable fn : value -> result value.
Variable g : value -> value.

Hypothesis fn_returns : forall v, is_tensor v -> fn v = Ok (g v).

Lemma set_nth_same (store : seq value) (a : nat) :
  a < size store -> set_nth VNone store a (nth VNone store a) = store.
Proof.
move=> lta; apply: (@eq_from_nth _ VNone) => [|i _].
  by rewrite size_set_nth; apply/maxn_idPr.
by rewrite nth_set_nth /=; case: eqP => // ->.
Qed.

Lemma set_nth_twice (store : seq value) (a : nat) (x y : value) :
  set_nth VNone (set_nth VNone store a x) a y = set_nth VNone store a y.
Proof.
apply: (@eq_from_nth _ VNone) => [|i _].
  by rewrite !size_set_nth maxnA maxnn.
by rewrite nth_set_nth /= [in RHS]nth_set_nth /=; case: ifP => // E; rewrite nth_set_nth /= E.
Qed.

Lemma store_for_keys (ks : seq key) (a : nat) (store : seq value)
    (r : value) :
  a < size store ->
  for_each ks (apply_key fn) (nth VNone store a) = Ok r ->
  store_for ks (apply_key_at fn a) store
  = (Ok tt, set_nth VNone store a r).
Proof.
elim: ks store => [|k ks IH] store lta /=.
  by case=> <-; rewrite set_nth_same.
rewrite /apply_key_at.
case: (apply_key fn (nth VNone store a) k) => [x|e] //= H.
rewrite IH ?set_nth_twice //.
  by rewrite size_set_nth leq_max ltnSn.
by rewrite nth_set_nth /= eqxx.
Qed.

Lemma apply_filt_returns (a : nat) (store : seq value) :
  a < size store -> filter_dict (nth VNone store a) ->
  apply_filt fn a store = (Ok tt, applied_at g store a).
Proof.
move=> lta; rewrite /apply_filt /applied_at.
case E: (nth VNone store a) => [| | | | | | |d| | | |] //= Hd.
by apply: store_for_keys => //; rewrite E; exact: apply_keys_map.
Qed.

Lemma applied_at_size (store : seq value) (a : nat) :
  a < size store -> size (applied_at g store a) = size store.
Proof. by move=> lta; rewrite size_set_nth; apply/maxn_idPr. Qed.

Lemma applied_dict_filter (v : value) :
  filter_dict (applied_dict g v) = filter_dict v.
Proof.
case: v => //= d; congr distinct.
by rewrite /keys -map_comp; apply: eq_map.
Qed.

Lemma applied_at_filter (store : seq value) (a b : nat) :
  filter_dict (nth VNone store b) ->
  filter_dict (nth VNone (applied_at g store a) b).
Proof.
rewrite /applied_at nth_set_nth /=; case: eqP => [->|] //.
by rewrite applied_dict_filter.
Qed.

Lemma store_for_filters (addrs : seq nat) (store : seq value) :
  all (fun a => (a < size store) && filter_dict (nth VNone store a)) addrs ->
  store_for addrs (apply_filt fn) store
  = (Ok tt, foldl (applied_at g) store addrs).
Proof.
elim: addrs store => [|a addrs IH] store //= /andP [/andP [lta Ha] Hs].
rewrite apply_filt_returns //; apply: IH.
apply: sub_all Hs => b /andP [ltb Hb].
by rewrite applied_at_size // ltb applied_at_filter.
Qed.

Lemma foldl_applied_size (addrs : seq nat) (store : seq value) :
  all (fun a => a < size store) addrs ->
  size (foldl (applied_at g) store addrs) = size store.
Proof.
elim: addrs store => [|a addrs IH] store //= /andP [lta Hs].
by rewrite IH applied_at_size.
Qed.

Lemma foldl_applied_nth (addrs : seq nat) (store : seq value) (i : nat) :
  nth VNone (foldl (applied_at g) store addrs) i
  = iter (count_mem i addrs) (applied_dict g) (nth VNone store i).
Proof.
elim: addrs store => [|a addrs IH] store //=.
rewrite IH /applied_at nth_set_nth /= [a == i]eq_sym.
by case: eqP => [->|_] //=; rewrite add0n -iterS iterSr.
Qed.

End ApplyStore.

(** X21: when fn returns g(v) on every tensor v, _apply_phi on a
    dictionary (of pairwise different keys) replaces the value of every
    key that holds a tensor by g of it and leaves the other items, the
    keys and their order as they are. *)
Theorem apply_phi_maps_tensors (fn : value -> result value)
    (g : value -> value) (d : seq (key * value)) :
  (forall v, is_tensor v -> fn v = Ok (g v)) ->
  distinct (keys d) ->
  _apply_phi fn (VDict d) = Ok (VDict [seq applied g kv | kv <- d]).
Proof. by move=> Hfn Hd; rewrite /_apply_phi /=; exact: apply_keys_map. Qed.

(** X22: _apply_psi on a list Psi, when fn returns g(v) on every tensor v
    and every item of Psi is a dictionary of pairwise different keys:
    the call returns None, and it has done to the dictionary of every
    item, one item after the other, what _apply_phi does to one
    dictionary. A dictionary that the list holds c times has therefore
    had fn applied c times in a row to each of its tensors, and an
    object that the list does not hold is as it was. On a dictionary Psi
    the loop goes through the keys: the call returns at once when Psi
    is empty and raises an AttributeError otherwise, whatever fn is. *)
Theorem apply_psi_maps_every_filter (fn : value -> result value)
    (g : value -> value) (addrs : seq nat) (store : seq value) :
  (forall v, is_tensor v -> fn v = Ok (g v)) ->
  all (fun a => (a < size store) && filter_dict (nth VNone store a)) addrs ->
  let store' := foldl (applied_at g) store addrs in
  [/\ _apply_psi fn (Listed addrs) store = (Ok tt, store'),
      size store' = size store,
      forall i,
        nth VNone store' i
        = iter (count_mem i addrs) (applied_dict g) (nth VNone store i)
    & forall d,
        _apply_psi fn (Mapping d) store
        = (if d is [::] then Ok tt else Raise (AttributeError "keys"),
           store)].
Proof.
move=> Hfn Hs store'; split.
- exact: store_for_filters.
- by apply: foldl_applied_size; apply: sub_all Hs => a /andP [].
- exact: foldl_applied_nth.
by case.
Qed.

Lemma apply_phi_maps_tensors_witness :
  _apply_phi sample_cast
    (VDict [:: (KInt 0, VTensor 0); (KStr "xi", VFloat 0%float);
               (KInt 1, VTensor 1)])
  = Ok (VDict [:: (KInt 0, VTensor 1); (KStr "xi", VFloat 0%float);
                  (KInt 1, VTensor 2)]).
Proof.
have H : forall v, is_tensor v -> sample_cast v = Ok (sample_cast_value v).
  by case.
exact: (@apply_phi_maps_tensors sample_cast sample_cast_value
          [:: (KInt 0, VTensor 0); (KStr "xi", VFloat 0%float);
              (KInt 1, VTensor 1)] H isT).
Defined.

Lemma apply_psi_maps_every_filter_witness :
  _apply_psi sample_cast (Listed [:: 0; 1; 0]) sample_store
  = (Ok tt,
     [:: VDict [:: (KInt 0, VTensor 4); (KStr "j", VInt 0)];
         VDict [:: (KInt 0, VTensor 4); (KInt 1, VTensor 5)]]).
Proof.
have H : forall v, is_tensor v -> sample_cast v = Ok (sample_cast_value v).
  by case.
by have [E _ _ _] := @apply_psi_maps_every_filter sample_cast
                       sample_cast_value [:: 0; 1; 0] sample_store H isT.
Defined.

(* --------------------------------------------------------------------- *)
(* torch_frontend.py: the buffers of create_and_register_filters and the *)
(* restoring loop of forward                                             *)
(* --------------------------------------------------------------------- *)

Lemma tensor_name_inj : injective tensor_name.
Proof.
move=> m n; rewrite /tensor_name /str_of_nat /= => -[E].
apply: DecimalNat.Unsigned.to_uint_inj.
have := NilEmpty.usu (Nat.to_uint m); rewrite E NilEmpty.usu.
by case.
Qed.

Lemma key_eqb_eq (k k' : key) : key_eqb k k' -> k = k'.
Proof. by case: k k' => [z|s] [z'|s'] //= /eqP ->. Qed.

Lemma insert_same (K V : Type) (eqb : K -> K -> bool) (k : K) (v : V)
    (d : seq (K * V)) :
  (forall k', eqb k k' -> k = k') ->
  lookup eqb k d = Some v -> insert eqb k v d = d.
Proof.
move=> Heq; elim: d => [|[k0 v0] d IH] //=.
case E: (eqb k k0); first by case=> ->; rewrite (Heq _ E).
by move/IH => ->.
Qed.

Lemma string_eqb_eq (s t : string) : String.eqb s t -> s = t.
Proof. by rewrite string_eqbE => /eqP. Qed.

Lemma world_eta w :
  {| attrs := attrs w; buffers := buffers w; calls := calls w |} = w.
Proof. by case: w. Qed.

Section Restoring.

Variable buffer_dict : seq (string * value).

Lemma restore_phi_key_fixed (D : seq (key * value)) k v n w :
  lookup String.eqb "phi_f"%string (attrs w) = Some (VDict D) ->
  not_str k ->
  lookup String.eqb (tensor_name n) buffer_dict = Some v ->
  lookup key_eqb k D = Some v ->
  restore_phi_key buffer_dict n k w = (Ok n.+1, w).
Proof.
move=> Hphi Hk Hbuf HD; rewrite /restore_phi_key Hk.
rewrite /abind /lift /buffer_getitem Hbuf /= /getattr Hphi /=.
rewrite (insert_same (@key_eqb_eq k) HD) /setattr /ret.
by rewrite (insert_same (@string_eqb_eq _) Hphi) world_eta.
Qed.

Lemma restore_keys_fixed (D d : seq (key * value)) n w :
  lookup String.eqb "phi_f"%string (attrs w) = Some (VDict D) ->
  (forall i, i < size d ->
     lookup key_eqb (nth (KStr "", VNone) d i).1 D
     = Some (nth (KStr "", VNone) d i).2) ->
  buffered buffer_dict n d ->
  afor (keys d) (restore_phi_key buffer_dict) n w
  = (Ok (n + count not_str (keys d)), w).
Proof.
move=> Hphi; elim: d n => [|[k v] d IH] n HD /=; first by rewrite addn0.
have HD' : forall i, i < size d ->
    lookup key_eqb (nth (KStr "", VNone) d i).1 D
    = Some (nth (KStr "", VNone) d i).2.
  by move=> i lti; exact: (HD i.+1).
case Hk: (not_str k) => Hrest.
  case: Hrest => Hbuf Hrest.
  rewrite (bind_returns _ (restore_phi_key_fixed Hphi Hk Hbuf (HD 0 isT))).
  by rewrite IH // add1n addSnnS.
rewrite /restore_phi_key Hk /abind /ret /= add0n.
exact: IH.
Qed.

End Restoring.

Lemma lookup_distinct (d : seq (key * value)) i :
  distinct (keys d) -> i < size d ->
  lookup key_eqb (nth (KStr "", VNone) d i).1 d
  = Some (nth (KStr "", VNone) d i).2.
Proof.
elim: d i => [|[k v] d IH] [|i] //=; first by rewrite key_eqb_refl.
case/andP=> Hk Hd lti; rewrite IH //.
have Hnth : ~~ key_eqb k (nth (KStr "", VNone) d i).1.
  move: Hk; rewrite -all_predC => /all_nthP Hall.
  have := Hall (KStr "") i; rewrite size_map => /(_ lti) /=.
  by rewrite (nth_map (KStr "", VNone)).
by rewrite key_eqb_sym (negbTE Hnth).
Qed.

(** X24: if the buffers hold, under the names 'tensor<n>', 'tensor<n+1>',
    ... and in the order of the keys, the values that phi_f has under its
    resolution keys, the first restoring loop of forward (lines 367-371)
    leaves the object exactly as it was and advances the counter by the
    number of resolution keys. *)
Theorem restore_phi_is_identity_on_registered (D : seq (key * value))
    (n : nat) (w : world) :
  lookup String.eqb "phi_f"%string (attrs w) = Some (VDict D) ->
  distinct (keys D) ->
  buffered (buffers w) n D ->
  restore_phi (buffers w) n w = (Ok (n + count not_str (keys D)), w).
Proof.
move=> Hphi HD Hbuf; rewrite /restore_phi (exec_getattr _ Hphi).
rewrite /abind /lift /=; apply: (restore_keys_fixed Hphi) => // i lti.
exact: lookup_distinct.
Qed.

Section Registering.

Lemma afor_cons (A S : Type) (x : A) (xs : seq A) (body : S -> A -> act S)
    (s : S) :
  afor (x :: xs) body s = abind (body s x) (afor xs body).
Proof. by []. Qed.

Lemma register_key_string (d : value) n k w :
  ~~ not_str k -> register_key (d, n) k w = (Ok (d, n), w).
Proof. by rewrite /register_key => /negbTE ->. Qed.

Lemma register_key_head k a d n w :
  not_str k ->
  lookup String.eqb (tensor_name n) (attrs w) = None ->
  register_key (VDict ((k, VArray a) :: d), n) k w
  = (Ok (VDict ((k, VTensor a) :: d), n.+1),
     {| attrs := attrs w;
        buffers := insert String.eqb (tensor_name n) (VTensor a) (buffers w);
        calls := calls w |}).
Proof.
move=> Hk Hfree; rewrite /register_key Hk /abind /lift /= key_eqb_refl /=.
by rewrite key_eqb_refl /= /register_buffer Hfree.
Qed.

Lemma register_key_dict d n k w x n' w' :
  register_key (VDict d, n) k w = (Ok (x, n'), w') -> exists d', x = VDict d'.
Proof.
rewrite /register_key; case: (not_str k); last by case=> <- _ _; exists d.
rewrite /abind /lift /=; case: (lookup key_eqb k d) => [v|] //=.
case: v => //= a.
case: (lookup key_eqb k (insert key_eqb k (VTensor a) d)) => [v|] //=.
rewrite /register_buffer; case: (lookup String.eqb _ (attrs w)) => //=.
by case=> <- _ _; eexists.
Qed.

Lemma lookup_key_insert k x (d : seq (key * value)) :
  lookup key_eqb k (insert key_eqb k x d) = Some x.
Proof.
elim: d => [|[k0 v0] d IH] /=; first by rewrite key_eqb_refl.
by case E: (key_eqb k k0) => /=; rewrite ?key_eqb_refl ?E.
Qed.

Lemma register_key_tail p d n k w d' n' w' :
  ~~ key_eqb p.1 k ->
  register_key (VDict d, n) k w = (Ok (VDict d', n'), w') ->
  register_key (VDict (p :: d), n) k w = (Ok (VDict (p :: d'), n'), w').
Proof.
case: p => k0 v0 /= /negbTE Hk; rewrite /register_key.
case: (not_str k); last by case=> -> -> ->.
rewrite /abind /lift /= key_eqb_sym Hk.
case: (lookup key_eqb k d) => [v|] //=.
case: v => //= a; rewrite key_eqb_sym Hk /= !lookup_key_insert /=.
rewrite /register_buffer; case: (lookup String.eqb _ (attrs w)) => //=.
by case=> -> -> ->.
Qed.

Lemma register_keys_tail p d ks n w d' n' w' :
  ~~ has (key_eqb p.1) ks ->
  afor ks register_key (VDict d, n) w = (Ok (VDict d', n'), w') ->
  afor ks register_key (VDict (p :: d), n) w
  = (Ok (VDict (p :: d'), n'), w').
Proof.
elim: ks d n w => [|k ks IH] d n w; first by rewrite /= => _ [-> -> ->].
rewrite [has _ _]/= negb_or !afor_cons => /andP [Hk Hks]; rewrite {1}/abind.
case E: (register_key (VDict d, n) k w) => [[[x n1]|e] w1] // H.
have [d1 Ex] := register_key_dict E; rewrite {x}Ex in E H.
by rewrite (bind_returns _ (register_key_tail Hk E)); apply: IH.
Qed.

Lemma keys_torched d : keys [seq torched kv | kv <- d] = keys d.
Proof.
rewrite /keys -map_comp; apply: eq_map => -[k v] /=.
by rewrite /torched /=; case: (not_str k).
Qed.

Lemma register_keys_spec (d : seq (key * value)) (n : nat) (w : world) :
  registrable d ->
  (forall i, i < count not_str (keys d) ->
     lookup String.eqb (tensor_name (n + i)) (attrs w) = None) ->
  exists w',
    [/\ afor (keys d) register_key (VDict d, n) w
        = (Ok (VDict [seq torched kv | kv <- d],
               n + count not_str (keys d)), w'),
        attrs w' = attrs w /\ calls w' = calls w,
        buffered (buffers w') n [seq torched kv | kv <- d]
      & forall name,
          (forall i, i < count not_str (keys d) ->
             name != tensor_name (n + i)) ->
          lookup String.eqb name (buffers w')
          = lookup String.eqb name (buffers w)].
Proof.
rewrite /registrable.
elim: d n w => [|[k v] d IH] n w.
  by move=> _ _; exists w; split; rewrite /= ?addn0.
rewrite [distinct _]/= [all _ _]/= [keys _]/= [count _ _]/= [map _ _]/=.
rewrite afor_cons.
case/andP=> /andP [Hk Hd] /andP [Hv Ha] Hfree.
case Hs: (not_str k) Hv Hfree => Hv Hfree; last first.
  have [|i lti|w' [E [Hat Hca] Hbuf Hoth]] := IH n w; first by rewrite Hd.
    by apply: Hfree; rewrite add0n.
  have Et : torched (k, v) = (k, v) by rewrite /torched /= Hs.
  exists w'; rewrite Et; split=> //.
  - rewrite (bind_returns _ (@register_key_string _ n k w _)) ?Hs //.
    rewrite add0n.
    exact: (@register_keys_tail (k, v) _ _ _ _ _ _ _ Hk E).
  by rewrite /= Hs.
have {Hv} [a ->] : exists a, v = VArray a.
  by case: v Hv => //= a _; exists a.
have Hfree0 : lookup String.eqb (tensor_name n) (attrs w) = None.
  by rewrite -[n]addn0; exact: Hfree.
set w1 := {| attrs := attrs w;
             buffers := insert String.eqb (tensor_name n) (VTensor a)
                          (buffers w);
             calls := calls w |}.
have [|i lti|w' [E [Hat Hca] Hbuf Hoth]] := IH n.+1 w1; first by rewrite Hd.
  by rewrite addSnnS; apply: Hfree; rewrite add1n.
have Et : torched (k, VArray a) = (k, VTensor a) by rewrite /torched /= Hs.
exists w'; rewrite Et; split=> //.
- rewrite (bind_returns _ (register_key_head a d Hs Hfree0)) -/w1.
  rewrite add1n -addSnnS.
  exact: (@register_keys_tail (k, VTensor a) _ _ _ _ _ _ _ Hk E).
- rewrite /= Hs; split=> //.
  have -> : lookup String.eqb (tensor_name n) (buffers w')
            = lookup String.eqb (tensor_name n) (buffers w1).
    apply: Hoth => i _; apply/eqP => /tensor_name_inj /eqP.
    by rewrite -[X in X == _]addn0 addSnnS eqn_add2l.
  by rewrite /= lookup_insert eqxx.
move=> name Hname.
have -> : lookup String.eqb name (buffers w')
          = lookup String.eqb name (buffers w1).
  by apply: Hoth => i lti; rewrite addSnnS; apply: Hname; rewrite add1n.
rewrite /= lookup_insert; case: eqP => // Ename.
by have := Hname 0 isT; rewrite addn0 Ename eqxx.
Qed.

End Registering.

(** X23: on a dictionary of pairwise different keys with an array under
    every resolution key, and an object that has no attribute called
    'tensor<n+i>', the registering loop of create_and_register_filters
    (lines 249-255; the same body at 256-271) turns every such array
    into a tensor, leaves the string keys alone, registers the tensors in
    key order under 'tensor<n>', 'tensor<n+1>', ..., changes no other
    buffer and no attribute of the object, and returns the counter
    advanced by the number of resolution keys. *)
Theorem register_dict_numbers_buffers (d : seq (key * value)) (n : nat)
    (w : world) :
  registrable d ->
  (forall i, i < count not_str (keys d) ->
     lookup String.eqb (tensor_name (n + i)) (attrs w) = None) ->
  exists w',
    [/\ register_dict (VDict d) n w
        = (Ok (VDict [seq torched kv | kv <- d],
               n + count not_str (keys d)), w'),
        attrs w' = attrs w,
        buffered (buffers w') n [seq torched kv | kv <- d]
      & forall name,
          (forall i, i < count not_str (keys d) ->
             name != tensor_name (n + i)) ->
          lookup String.eqb name (buffers w')
          = lookup String.eqb name (buffers w)].
Proof.
move=> Hd Hfree.
have [w' [E [Hat _] Hbuf Hoth]] := register_keys_spec Hd Hfree.
by exists w'; split=> //; rewrite /register_dict /abind /lift /=.
Qed.

(** X25: the restoring loop of forward agrees with the registering loop
    of create_and_register_filters: after register_dict on the low-pass
    dictionary, started at counter 0 and with the result stored as
    phi_f, the loop of lines 367-371 finds every buffer under the name
    the registering loop gave it, leaves the object unchanged and ends
    with the same counter. *)
Theorem restore_phi_after_register_dict (d : seq (key * value))
    (w : world) :
  registrable d ->
  (forall i, i < count not_str (keys d) ->
     lookup String.eqb (tensor_name i) (attrs w) = None) ->
  exists phi_f n w',
    register_dict (VDict d) 0 w = (Ok (phi_f, n), w')
    /\ let w'' := (setattr "phi_f" phi_f w').2 in
       restore_phi (buffers w'') 0 w'' = (Ok n, w'').
Proof.
move=> Hd Hfree.
have [i lti|w' [E _ Hbuf _]] := @register_keys_spec d 0 w Hd.
  by rewrite add0n; exact: Hfree.
exists (VDict [seq torched kv | kv <- d]), (0 + count not_str (keys d)), w'.
split; first by rewrite /register_dict /abind /lift /=.
move=> w''.
have Hphi : lookup String.eqb "phi_f"%string (attrs w'')
            = Some (VDict [seq torched kv | kv <- d]).
  by rewrite /w'' /= lookup_insert eqxx.
have Hdist : distinct (keys [seq torched kv | kv <- d]).
  by rewrite keys_torched; case/andP: Hd.
rewrite /restore_phi (exec_getattr _ Hphi) /abind /lift /=.
rewrite -(keys_torched d) in Hbuf *.
apply: (restore_keys_fixed Hphi) => // i lti.
exact: lookup_distinct.
Qed.

Lemma register_dict_numbers_buffers_witness :
  let d := [:: (KInt 0, VArray 0); (KInt 1, VArray 1);
               (KStr "xi", VFloat 0%float)] in
  exists w',
    [/\ register_dict (VDict d) 0 fresh_world
        = (Ok (VDict [:: (KInt 0, VTensor 0); (KInt 1, VTensor 1);
                         (KStr "xi", VFloat 0%float)], 2), w'),
        attrs w' = [::],
        buffered (buffers w') 0
          [:: (KInt 0, VTensor 0); (KInt 1, VTensor 1);
              (KStr "xi", VFloat 0%float)]
      & forall name,
          (forall i, i < 2 -> name != tensor_name (0 + i)) ->
          lookup String.eqb name (buffers w') = None].
Proof.
exact: (@register_dict_numbers_buffers
          [:: (KInt 0, VArray 0); (KInt 1, VArray 1);
              (KStr "xi", VFloat 0%float)] 0 fresh_world isT
          (fun _ _ => erefl)).
Defined.

Lemma restore_phi_is_identity_on_registered_witness :
  restore_phi (buffers (registered_world true true)) 0
    (registered_world true true)
  = (Ok 2, registered_world true true).
Proof.
exact: (@restore_phi_is_identity_on_registered registered_phi 0
          (registered_world true true) erefl isT
          (conj erefl (conj erefl I))).
Defined.

Lemma restore_phi_after_register_dict_witness :
  exists phi_f n w',
    register_dict
      (VDict [:: (KInt 0, VArray 0); (KInt 1, VArray 1);
                 (KStr "xi", VFloat 0%float)]) 0 fresh_world
    = (Ok (phi_f, n), w')
    /\ let w'' := (setattr "phi_f" phi_f w').2 in
       restore_phi (buffers w'') 0 w'' = (Ok n, w'').
Proof.
exact: (@restore_phi_after_register_dict
          [:: (KInt 0, VArray 0); (KInt 1, VArray 1);
              (KStr "xi", VFloat 0%float)] fresh_world isT
          (fun _ _ => erefl)).
Defined.

(* --------------------------------------------------------------------- *)
(* torch_frontend.py: create_and_register_filters as a whole             *)
(* --------------------------------------------------------------------- *)

Lemma buffered_cat bd n (d1 d2 : seq (key * value)) :
  buffered bd n (d1 ++ d2)
  <-> buffered bd n d1 /\ buffered bd (n + count not_str (keys d1)) d2.
Proof.
elim: d1 n => [|[k v] d1 IH] n /=; first by rewrite addn0; split=> [|[]].
case: (not_str k) => /=; last by rewrite add0n.
rewrite add1n -addSnnS; split.
  by case=> H /IH [H1 H2].
by case=> -[H H1] H2; split=> //; apply/IH.
Qed.

Lemma buffered_persists bd bd' n (d : seq (key * value)) :
  (forall i, i < count not_str (keys d) ->
     lookup String.eqb (tensor_name (n + i)) bd'
     = lookup String.eqb (tensor_name (n + i)) bd) ->
  buffered bd n d -> buffered bd' n d.
Proof.
elim: d n => [|[k v] d IH] n //=.
case: (not_str k) => /= Hsame; last first.
  by apply: IH => i lti; apply: Hsame; rewrite add0n.
case=> H0 Hrest; split.
  by have := Hsame 0 isT; rewrite addn0 => ->.
apply: IH Hrest => i lti.
by rewrite addSnnS; apply: Hsame; rewrite add1n.
Qed.

Lemma buffered_present bd n (d : seq (key * value)) i :
  buffered bd n d -> i < count not_str (keys d) ->
  isSome (lookup String.eqb (tensor_name (n + i)) bd).
Proof.
elim: d n i => [|[k v] d IH] n i //=.
case: (not_str k) => /=; last by rewrite add0n; exact: IH.
case=> H0 Hrest; case: i => [|i]; first by rewrite addn0 H0.
by rewrite add1n ltnS -addSnnS; exact: IH.
Qed.

Lemma count_torched (d : seq (key * value)) :
  count not_str (keys [seq torched kv | kv <- d]) = count not_str (keys d).
Proof. by rewrite keys_torched. Qed.

Lemma tensor_name_neq (n m : nat) :
  n != m -> tensor_name n != tensor_name m.
Proof. by apply: contra => /eqP /tensor_name_inj ->. Qed.

Lemma register_dicts_spec (ds : seq (seq (key * value))) (done : seq value)
    (n : nat) (w : world) :
  all registrable ds ->
  (forall i, i < count not_str (keys (flatten ds)) ->
     lookup String.eqb (tensor_name (n + i)) (attrs w) = None) ->
  exists w',
    [/\ afor [seq VDict d | d <- ds]
          (fun (s : seq value * nat) psi_f =>
             r <~ register_dict psi_f s.2 ;;
             ret (rcons s.1 r.1, r.2))
          (done, n) w
        = (Ok (done ++ [seq VDict [seq torched kv | kv <- d] | d <- ds],
               n + count not_str (keys (flatten ds))), w'),
        attrs w' = attrs w /\ calls w' = calls w,
        buffered (buffers w') n [seq torched kv | kv <- flatten ds]
      & forall name,
          (forall i, i < count not_str (keys (flatten ds)) ->
             name != tensor_name (n + i)) ->
          lookup String.eqb name (buffers w')
          = lookup String.eqb name (buffers w)].
Proof.
elim: ds done n w => [|d ds IH] done n w.
  by move=> _ _; exists w; split; rewrite /= ?cats0 ?addn0.
rewrite [all _ _]/= [flatten _]/= /keys map_cat -/(keys d) -/(keys _).
rewrite count_cat [map _ (_ :: _)]/= afor_cons => /andP [Hd Hds] Hfree.
have [i lti|w1 [E1 [Hat1 Hca1] Hbuf1 Hoth1]] := @register_keys_spec d n w Hd.
  by apply: Hfree; apply: ltn_addr.
have [||w' [E [Hat Hca] Hbuf Hoth]] :=
  IH (rcons done (VDict [seq torched kv | kv <- d]))
     (n + count not_str (keys d)) w1.
- by [].
- by move=> i lti; rewrite Hat1 -addnA; apply: Hfree; rewrite ltn_add2l.
exists w'; split.
- have E0 : (r <~ register_dict (VDict d) (done, n).2 ;;
             ret (rcons (done, n).1 r.1, r.2)) w
            = (Ok (rcons done (VDict [seq torched kv | kv <- d]),
                   n + count not_str (keys d)), w1).
    by rewrite /register_dict /abind /lift /= E1.
  by rewrite (bind_returns _ E0) E cat_rcons addnA.
- by rewrite Hat Hca.
- rewrite map_cat; apply/buffered_cat; split; last by rewrite count_torched.
  apply: buffered_persists Hbuf1 => i; rewrite count_torched => lti.
  apply: Hoth => j ltj; apply: tensor_name_neq.
  by rewrite -addnA eqn_add2l neq_ltn ltn_addr.
move=> name Hname.
have -> : lookup String.eqb name (buffers w')
          = lookup String.eqb name (buffers w1).
  by apply: Hoth => i lti; rewrite -addnA; apply: Hname; rewrite ltn_add2l.
by apply: Hoth1 => i lti; apply: Hname; apply: ltn_addr.
Qed.

Lemma count_flatten_has (ds : seq (seq (key * value))) :
  has (fun d => has not_str (keys d)) ds ->
  0 < count not_str (keys (flatten ds)).
Proof.
elim: ds => [|d ds IH] //=; rewrite /keys map_cat count_cat addn_gt0.
rewrite -!/(keys _) -has_count.
by case/orP=> [->|/IH ->] //; rewrite orbT.
Qed.

Section CreateAndRegister.

Variable extern : string -> seq value -> act value.

Variables (J_pad J Q normalize criterion_amplitude r_psi sigma0 alpha
           P_max eps t_max_phi : value).
Variable phi : seq (key * value).
Variables psi1 psi2 : seq (seq (key * value)).
Variables w w1 : world.

Hypothesis has_J_pad :
  lookup String.eqb "J_pad"%string (attrs w) = Some J_pad.
Hypothesis has_J : lookup String.eqb "J"%string (attrs w) = Some J.
Hypothesis has_Q : lookup String.eqb "Q"%string (attrs w) = Some Q.
Hypothesis has_normalize :
  lookup String.eqb "normalize"%string (attrs w) = Some normalize.
Hypothesis has_criterion_amplitude :
  lookup String.eqb "criterion_amplitude"%string (attrs w)
  = Some criterion_amplitude.
Hypothesis has_r_psi :
  lookup String.eqb "r_psi"%string (attrs w) = Some r_psi.
Hypothesis has_sigma0 :
  lookup String.eqb "sigma0"%string (attrs w) = Some sigma0.
Hypothesis has_alpha :
  lookup String.eqb "alpha"%string (attrs w) = Some alpha.
Hypothesis has_P_max :
  lookup String.eqb "P_max"%string (attrs w) = Some P_max.
Hypothesis has_eps : lookup String.eqb "eps"%string (attrs w) = Some eps.

Hypothesis factory_returns :
  extern "scattering_filter_factory"%string
    [:: J_pad; J; Q; normalize; criterion_amplitude; r_psi; sigma0; alpha;
        P_max; eps]
    (log_call "scattering_filter_factory"%string w).2
  = (Ok (VTuple [:: VDict phi; VList [seq VDict d | d <- psi1];
                    VList [seq VDict d | d <- psi2]; t_max_phi]), w1).

Hypothesis filters_registrable : all registrable (phi :: psi1 ++ psi2).

Hypothesis names_free :
  forall i,
    i < count not_str (keys (phi ++ flatten psi1 ++ flatten psi2)) ->
    lookup String.eqb (tensor_name i) (attrs w1) = None.

Lemma create_and_register_filters_spec :
  exists w',
    [/\ create_and_register_filters extern w = (Ok tt, w'),
        calls w' = calls w1,
        [/\ lookup String.eqb "phi_f"%string (attrs w')
            = Some (VDict [seq torched kv | kv <- phi]),
            lookup String.eqb "psi1_f"%string (attrs w')
            = Some (VList [seq VDict [seq torched kv | kv <- d]
                          | d <- psi1]),
            lookup String.eqb "psi2_f"%string (attrs w')
            = Some (VList [seq VDict [seq torched kv | kv <- d]
                          | d <- psi2])
          & forall name,
              name \notin [:: "psi1_f"; "psi2_f"; "phi_f"]%string ->
              lookup String.eqb name (attrs w')
              = lookup String.eqb name (attrs w1)],
        buffered (buffers w') 0
          [seq torched kv | kv <- phi ++ flatten psi1 ++ flatten psi2]
      & forall name,
          (forall i,
             i < count not_str (keys (phi ++ flatten psi1 ++ flatten psi2)) ->
             name != tensor_name i) ->
          lookup String.eqb name (buffers w')
          = lookup String.eqb name (buffers w1)].
Proof.
move: filters_registrable.
rewrite [all _ _]/= all_cat => /and3P [Hphi Hpsi1 Hpsi2].
move: names_free; rewrite /keys !map_cat !count_cat -!/(keys _) => Hfree.
set K0 := count not_str (keys phi) in Hfree *.
set K1 := count not_str (keys (flatten psi1)) in Hfree *.
set K2 := count not_str (keys (flatten psi2)) in Hfree *.
have [i lti|w2 [E2 [Hat2 Hca2] Hbuf2 Hoth2]] :=
  @register_keys_spec phi 0 w1 Hphi.
  by rewrite add0n; apply: Hfree; apply: ltn_addr.
have [i lti|w3 [E3 [Hat3 Hca3] Hbuf3 Hoth3]] :=
  @register_dicts_spec psi1 [::] (0 + K0) w2 Hpsi1.
  rewrite Hat2 add0n; apply: Hfree.
  by rewrite ltn_add2l; apply: ltn_addr.
have [i lti|w4 [E4 [Hat4 Hca4] Hbuf4 Hoth4]] :=
  @register_dicts_spec psi2 [::] (0 + K0 + K1) w3 Hpsi2.
  rewrite Hat3 Hat2 add0n -addnA; apply: Hfree.
  by rewrite !ltn_add2l.
rewrite /create_and_register_filters.
have El : load_global "scattering_filter_factory" w
          = (Ok (VFunction "scattering_filter_factory"), w) by [].
rewrite (bind_returns _ El).
rewrite (exec_getattr _ has_J_pad) (exec_getattr _ has_J).
rewrite (exec_getattr _ has_Q) (exec_getattr _ has_normalize).
rewrite (exec_getattr _ has_criterion_amplitude) (exec_getattr _ has_r_psi).
rewrite (exec_getattr _ has_sigma0) (exec_getattr _ has_alpha).
rewrite (exec_getattr _ has_P_max) (exec_getattr _ has_eps).
have Ei : invoke extern (VFunction "scattering_filter_factory")
            [:: J_pad; J; Q; normalize; criterion_amplitude; r_psi; sigma0;
                alpha; P_max; eps] w
          = (Ok (VTuple [:: VDict phi; VList [seq VDict d | d <- psi1];
                            VList [seq VDict d | d <- psi2]; t_max_phi]), w1).
  by rewrite /invoke /abind /= factory_returns.
rewrite (bind_returns _ Ei).
have Eu : forall w0,
    lift (unpack4 (VTuple [:: VDict phi; VList [seq VDict d | d <- psi1];
                              VList [seq VDict d | d <- psi2]; t_max_phi])) w0
    = (Ok (VDict phi, VList [seq VDict d | d <- psi1],
           VList [seq VDict d | d <- psi2], t_max_phi), w0) by [].
rewrite (bind_returns _ (Eu w1)).
have Ed : register_dict (VDict phi) 0 w1
          = (Ok (VDict [seq torched kv | kv <- phi], 0 + K0), w2).
  by rewrite /register_dict /abind /lift /= E2.
rewrite (bind_returns _ Ed).
have El1 : register_list (VList [seq VDict d | d <- psi1]) (0 + K0) w2
           = (Ok (VList [seq VDict [seq torched kv | kv <- d] | d <- psi1],
                  0 + K0 + K1), w3).
  by rewrite /register_list /abind /lift /= E3.
rewrite (bind_returns _ El1).
have El2 : register_list (VList [seq VDict d | d <- psi2]) (0 + K0 + K1) w3
           = (Ok (VList [seq VDict [seq torched kv | kv <- d] | d <- psi2],
                  0 + K0 + K1 + K2), w4).
  by rewrite /register_list /abind /lift /= E4.
rewrite (bind_returns _ El2).
eexists; split; first by [].
- by rewrite /= Hca4 Hca3 Hca2.
- split; rewrite /= ?lookup_insert //.
  move=> name; rewrite !inE !negb_or => /and3P [/negbTE N1 /negbTE N2
    /negbTE N3].
  by rewrite !lookup_insert N1 N2 N3 Hat4 Hat3 Hat2.
- apply/buffered_cat; split.
    apply: buffered_persists Hbuf2 => i; rewrite count_torched => lti.
    have -> : lookup String.eqb (tensor_name (0 + i)) (buffers w4)
              = lookup String.eqb (tensor_name (0 + i)) (buffers w3).
      apply: Hoth4 => j ltj; apply: tensor_name_neq.
      by rewrite -!addnA eqn_add2l neq_ltn ltn_addr // ltn_addr.
    apply: Hoth3 => j ltj; apply: tensor_name_neq.
    by rewrite -!addnA eqn_add2l neq_ltn ltn_addr.
  rewrite count_torched -/K0; apply/buffered_cat; split.
    apply: buffered_persists Hbuf3 => i; rewrite count_torched => lti.
    apply: Hoth4 => j ltj; apply: tensor_name_neq.
    by rewrite -!addnA !eqn_add2l neq_ltn ltn_addr.
  by rewrite count_torched.
move=> name Hname /=.
have -> : lookup String.eqb name (buffers w4)
          = lookup String.eqb name (buffers w3).
  apply: Hoth4 => i lti; rewrite add0n -addnA; apply: Hname.
  by rewrite !ltn_add2l.
have -> : lookup String.eqb name (buffers w3)
          = lookup String.eqb name (buffers w2).
  apply: Hoth3 => i lti; rewrite add0n; apply: Hname.
  by rewrite ltn_add2l ltn_addr.
by apply: Hoth2 => i lti; rewrite add0n; apply: Hname; rewrite ltn_addr.
Qed.

End CreateAndRegister.

(** X26: create_and_register_filters, on an object that has the ten
    attributes it reads, with a filter factory that returns a low-pass
    dictionary and two lists of wavelet dictionaries (different objects,
    each of pairwise different keys with an array under every resolution
    key) and no attribute called
    'tensor<i>': the call returns; phi_f, psi1_f and psi2_f hold the
    dictionaries of the factory with every filter array turned into a
    tensor, in the same order; and the tensors are registered as buffers
    'tensor0', 'tensor1', ... numbered consecutively through the
    resolution keys of phi_f, then of the dictionaries of psi1_f, then
    of those of psi2_f. Once the factory has returned, no other
    attribute and no other buffer of the object changes. *)
Theorem create_and_register_filters_numbers_buffers
    (extern : string -> seq value -> act value)
    (J_pad J Q normalize criterion_amplitude r_psi sigma0 alpha P_max eps
       t_max_phi : value)
    (phi : seq (key * value)) (psi1 psi2 : seq (seq (key * value)))
    (w w1 : world) :
  lookup String.eqb "J_pad"%string (attrs w) = Some J_pad ->
  lookup String.eqb "J"%string (attrs w) = Some J ->
  lookup String.eqb "Q"%string (attrs w) = Some Q ->
  lookup String.eqb "normalize"%string (attrs w) = Some normalize ->
  lookup String.eqb "criterion_amplitude"%string (attrs w)
  = Some criterion_amplitude ->
  lookup String.eqb "r_psi"%string (attrs w) = Some r_psi ->
  lookup String.eqb "sigma0"%string (attrs w) = Some sigma0 ->
  lookup String.eqb "alpha"%string (attrs w) = Some alpha ->
  lookup String.eqb "P_max"%string (attrs w) = Some P_max ->
  lookup String.eqb "eps"%string (attrs w) = Some eps ->
  extern "scattering_filter_factory"%string
    [:: J_pad; J; Q; normalize; criterion_amplitude; r_psi; sigma0; alpha;
        P_max; eps]
    (log_call "scattering_filter_factory"%string w).2
  = (Ok (VTuple [:: VDict phi; VList [seq VDict d | d <- psi1];
                    VList [seq VDict d | d <- psi2]; t_max_phi]), w1) ->
  all registrable (phi :: psi1 ++ psi2) ->
  (forall i,
     i < count not_str (keys (phi ++ flatten psi1 ++ flatten psi2)) ->
     lookup String.eqb (tensor_name i) (attrs w1) = None) ->
  exists w',
    [/\ create_and_register_filters extern w = (Ok tt, w'),
        [/\ lookup String.eqb "phi_f"%string (attrs w')
            = Some (VDict [seq torched kv | kv <- phi]),
            lookup String.eqb "psi1_f"%string (attrs w')
            = Some (VList [seq VDict [seq torched kv | kv <- d]
                          | d <- psi1]),
            lookup String.eqb "psi2_f"%string (attrs w')
            = Some (VList [seq VDict [seq torched kv | kv <- d]
                          | d <- psi2])
          & forall name,
              name \notin [:: "psi1_f"; "psi2_f"; "phi_f"]%string ->
              lookup String.eqb name (attrs w')
              = lookup String.eqb name (attrs w1)],
        buffered (buffers w') 0
          [seq torched kv | kv <- phi ++ flatten psi1 ++ flatten psi2]
      & forall name,
          (forall i,
             i < count not_str (keys (phi ++ flatten psi1 ++ flatten psi2)) ->
             name != tensor_name i) ->
          lookup String.eqb name (buffers w')
          = lookup String.eqb name (buffers w1)].
Proof.
move=> H1 H2 H3 H4 H5 H6 H7 H8 H9 H10 Hf Hr Hfree.
have [w' [E _ Hat Hbuf Hoth]] :=
  create_and_register_filters_spec H1 H2 H3 H4 H5 H6 H7 H8 H9 H10 Hf Hr Hfree.
by exists w'; split.
Qed.

(** X27: forward fails on every object create_and_register_filters
    builds. Under the conditions of X26, if one first-order dictionary
    of the factory has a resolution key and nothing is called psi_f,
    the object the call leaves passes through the first restoring loop
    of forward and raises the AttributeError for self.psi_f of line 376
    in the second, for every input and option set that pass the checks
    of lines 343-363. *)
Theorem forward_fails_on_created_object
    (extern : string -> seq value -> act value)
    (J_pad J Q normalize criterion_amplitude r_psi sigma0 alpha P_max eps
       t_max_phi : value)
    (phi : seq (key * value)) (psi1 psi2 : seq (seq (key * value)))
    (w w1 : world) :
  lookup String.eqb "J_pad"%string (attrs w) = Some J_pad ->
  lookup String.eqb "J"%string (attrs w) = Some J ->
  lookup String.eqb "Q"%string (attrs w) = Some Q ->
  lookup String.eqb "normalize"%string (attrs w) = Some normalize ->
  lookup String.eqb "criterion_amplitude"%string (attrs w)
  = Some criterion_amplitude ->
  lookup String.eqb "r_psi"%string (attrs w) = Some r_psi ->
  lookup String.eqb "sigma0"%string (attrs w) = Some sigma0 ->
  lookup String.eqb "alpha"%string (attrs w) = Some alpha ->
  lookup String.eqb "P_max"%string (attrs w) = Some P_max ->
  lookup String.eqb "eps"%string (attrs w) = Some eps ->
  extern "scattering_filter_factory"%string
    [:: J_pad; J; Q; normalize; criterion_amplitude; r_psi; sigma0; alpha;
        P_max; eps]
    (log_call "scattering_filter_factory"%string w).2
  = (Ok (VTuple [:: VDict phi; VList [seq VDict d | d <- psi1];
                    VList [seq VDict d | d <- psi2]; t_max_phi]), w1) ->
  all registrable (phi :: psi1 ++ psi2) ->
  (forall i,
     i < count not_str (keys (phi ++ flatten psi1 ++ flatten psi2)) ->
     lookup String.eqb (tensor_name i) (attrs w1) = None) ->
  has (fun d => has not_str (keys d)) psi1 ->
  lookup String.eqb "psi_f"%string (attrs w1) = None ->
  lookup String.eqb "psi_f"%string (buffers w1) = None ->
  exists w',
    [/\ create_and_register_filters extern w = (Ok tt, w'),
        restorable w' [seq torched kv | kv <- phi]
          [seq [seq torched kv | kv <- d] | d <- psi1]
      & forall (extern' : string -> seq value -> act value)
               (calibrate_scattering_filters :
                  int -> int -> result Meta.calibration)
               (reshape : Tensor.t -> seq int -> result Tensor.t)
               (x : Tensor.t),
          is_ok (check_input reshape x w').1 ->
          is_ok (treat_arguments calibrate_scattering_filters w').1 ->
          (forward extern' calibrate_scattering_filters reshape x w').1
          = Raise (AttributeError "psi_f")].
Proof.
move=> H1 H2 H3 H4 H5 H6 H7 H8 H9 H10 Hfac Hreg Hfree Hres Hattr Hbuf.
have [w' [E Hca [Hphi Hpsi1 Hpsi2 Hat] Hb Hoth]] :=
  create_and_register_filters_spec H1 H2 H3 H4 H5 H6 H7 H8 H9 H10 Hfac Hreg
    Hfree.
have R : restorable w' [seq torched kv | kv <- phi]
           [seq [seq torched kv | kv <- d] | d <- psi1].
  split=> //.
  - by rewrite Hpsi1 -map_comp.
  - move=> n len; rewrite -[n]add0n; apply: buffered_present Hb _.
    rewrite count_torched /keys !map_cat !count_cat -!/(keys _).
    rewrite count_torched in len.
    apply: leq_ltn_trans len _; rewrite -[X in X < _]addn0 ltn_add2l.
    by rewrite addn_gt0 count_flatten_has.
  - rewrite has_map; apply: sub_has Hres => d /=.
    by rewrite keys_torched.
  - by rewrite Hat.
  - by rewrite Hoth.
exists w'; split=> // extern' calibrate reshape x Hc Ht.
exact: forward_restorable R.
Qed.

Lemma created_names_free (average vectorize : bool) (i : nat) :
  i < 6 ->
  lookup String.eqb (tensor_name i)
    (attrs (log_call "scattering_filter_factory"
              (configured_world average vectorize)).2)
  = None.
Proof. by case: i => [|[|[|[|[|[|i]]]]]]. Qed.

Lemma create_and_register_filters_numbers_buffers_witness :
  exists w',
    [/\ create_and_register_filters sample_factory
          (configured_world true true) = (Ok tt, w'),
        [/\ lookup String.eqb "phi_f"%string (attrs w')
            = Some (VDict registered_phi),
            lookup String.eqb "psi1_f"%string (attrs w')
            = Some (VList [seq VDict d | d <- registered_psi1]),
            lookup String.eqb "psi2_f"%string (attrs w')
            = Some (VList [:: VDict [:: (KInt 0, VTensor 5);
                                        (KStr "xi", VFloat 0.2%float);
                                        (KStr "sigma", VFloat 0.05%float);
                                        (KStr "j", VInt 1)]])
          & forall name,
              name \notin [:: "psi1_f"; "psi2_f"; "phi_f"]%string ->
              lookup String.eqb name (attrs w')
              = lookup String.eqb name
                  (attrs (configured_world true true))],
        buffered (buffers w') 0
          (registered_phi ++ flatten registered_psi1
           ++ [:: (KInt 0, VTensor 5); (KStr "xi", VFloat 0.2%float);
                  (KStr "sigma", VFloat 0.05%float); (KStr "j", VInt 1)])
      & forall name,
          (forall i, i < 6 -> name != tensor_name i) ->
          lookup String.eqb name (buffers w') = None].
Proof.
exact: (@create_and_register_filters_numbers_buffers sample_factory
          (VInt 5) (VInt 2) (VInt 1) (VStr "l1") (VFloat 1e-3%float)
          (VFloat (PrimFloat.sqrt 0.5%float)) (VFloat 0.1%float)
          (VFloat 5%float) (VInt 5) (VFloat 1e-7%float) (VInt 7)
          [:: (KInt 0, VArray 0); (KInt 1, VArray 1);
              (KStr "xi", VFloat 0%float);
              (KStr "sigma", VFloat 0.025%float); (KStr "j", VInt 2)]
          [:: [:: (KInt 0, VArray 2); (KStr "xi", VFloat 0.4%float);
                  (KStr "sigma", VFloat 0.1%float); (KStr "j", VInt 0)];
              [:: (KInt 0, VArray 3); (KInt 1, VArray 4);
                  (KStr "xi", VFloat 0.2%float);
                  (KStr "sigma", VFloat 0.05%float); (KStr "j", VInt 1)]]
          [:: [:: (KInt 0, VArray 5); (KStr "xi", VFloat 0.2%float);
                  (KStr "sigma", VFloat 0.05%float); (KStr "j", VInt 1)]]
          (configured_world true true)
          (log_call "scattering_filter_factory"
             (configured_world true true)).2
          erefl erefl erefl erefl erefl erefl erefl erefl erefl erefl
          erefl isT (created_names_free true true)).
Defined.

Lemma forward_fails_on_created_object_witness :
  exists w',
    [/\ create_and_register_filters sample_factory
          (configured_world true true) = (Ok tt, w'),
        restorable w' registered_phi registered_psi1
      & forall (extern' : string -> seq value -> act value)
               (calibrate_scattering_filters :
                  int -> int -> result Meta.calibration)
               (reshape : Tensor.t -> seq int -> result Tensor.t)
               (x : Tensor.t),
          is_ok (check_input reshape x w').1 ->
          is_ok (treat_arguments calibrate_scattering_filters w').1 ->
          (forward extern' calibrate_scattering_filters reshape x w').1
          = Raise (AttributeError "psi_f")].
Proof.
exact: (@forward_fails_on_created_object sample_factory
          (VInt 5) (VInt 2) (VInt 1) (VStr "l1") (VFloat 1e-3%float)
          (VFloat (PrimFloat.sqrt 0.5%float)) (VFloat 0.1%float)
          (VFloat 5%float) (VInt 5) (VFloat 1e-7%float) (VInt 7)
          [:: (KInt 0, VArray 0); (KInt 1, VArray 1);
              (KStr "xi", VFloat 0%float);
              (KStr "sigma", VFloat 0.025%float); (KStr "j", VInt 2)]
          [:: [:: (KInt 0, VArray 2); (KStr "xi", VFloat 0.4%float);
                  (KStr "sigma", VFloat 0.1%float); (KStr "j", VInt 0)];
              [:: (KInt 0, VArray 3); (KInt 1, VArray 4);
                  (KStr "xi", VFloat 0.2%float);
                  (KStr "sigma", VFloat 0.05%float); (KStr "j", VInt 1)]]
          [:: [:: (KInt 0, VArray 5); (KStr "xi", VFloat 0.2%float);
                  (KStr "sigma", VFloat 0.05%float); (KStr "j", VInt 1)]]
          (configured_world true true)
          (log_call "scattering_filter_factory"
             (configured_world true true)).2
          erefl erefl erefl erefl erefl erefl erefl erefl erefl erefl
          erefl isT (created_names_free true true) isT erefl erefl).
Defined.
